(** * TabTalk: the envelope format and the window manager

    A shallow embedding of [source/WindowMessage.js] and of the
    [WindowManager.js] listing (both revisions printed in
    [docs/WindowManager.js.html]), followed by the properties of routing,
    lookup and broadcast that are established on it.

    JavaScript values are the inductive [value]; an object used as a
    dictionary (the session table) is an association list in enumeration
    order; objects with identity (the sessions) live in a store owned by
    the manager and are named by their index; every statement of a handler
    runs in a small state, trace and exception monad. *)

From Stdlib Require Import List String ZArith Bool Lia Arith DecimalString Permutation.
Import ListNotations.

Local Open Scope string_scope.
Local Open Scope list_scope.

Set Warnings "-register-all".

(** ** JavaScript values *)

(** The values that travel in an envelope or sit in a property.  Numbers are
    the integers (sequence numbers and action codes among them); an object
    is its list of own properties: a payload is read at [uuid], [type] and
    [action] only, which no object inherits. *)
Inductive value : Type :=
| VUndefined
| VNull
| VBool (b : bool)
| VNum (n : Z)
| VStr (s : string)
| VObj (fields : list (string * value)).

(** [a === b].  Two objects are the same only by identity, which payloads
    do not have here: an object inside an envelope is a structured clone. *)
Definition strict_eq (a b : value) : bool :=
  match a, b with
  | VUndefined, VUndefined => true
  | VNull, VNull => true
  | VBool x, VBool y => Bool.eqb x y
  | VNum x, VNum y => Z.eqb x y
  | VStr x, VStr y => String.eqb x y
  | _, _ => false
  end.

(** [a !== b]. *)
Definition strict_neq (a b : value) : bool := negb (strict_eq a b).

(** *** Numbers as strings *)

(** The digits of an integer, in base ten. *)
Definition decimal (n : Z) : string := NilZero.string_of_int (Z.to_int n).

(** The Number nearest to an integer that is not negative: 53 bits are
    kept, a tie goes to the even one. *)
Definition nearest_Number (y : Z) : Z :=
  if (y <? 2 ^ 53)%Z then y
  else
    let e := (Z.log2 y - 52)%Z in
    let q := Z.shiftr y e in
    let r := (y - Z.shiftl q e)%Z in
    let half := Z.shiftl 1 (e - 1) in
    let q' := if (r <? half)%Z then q
              else if (half <? r)%Z then (q + 1)%Z
              else if Z.even q then q else (q + 1)%Z in
    Z.shiftl q' e.

(** Among the integers of [k] digits, one that followed by [d - k] zeros
    reads back as [x]: the nearer to [x], then the even one. *)
Definition digits_at (x d k : Z) : option Z :=
  let p := (10 ^ (d - k))%Z in
  let lo := (x / p)%Z in
  let hi := (lo + 1)%Z in
  let lo_ok := Z.eqb (nearest_Number (lo * p)) x in
  let hi_ok := (hi <? 10 ^ k)%Z && Z.eqb (nearest_Number (hi * p)) x in
  match lo_ok, hi_ok with
  | true, true =>
      if (x - lo * p <? hi * p - x)%Z then Some lo
      else if (hi * p - x <? x - lo * p)%Z then Some hi
      else if Z.even lo then Some lo else Some hi
  | true, false => Some lo
  | false, true => Some hi
  | false, false => None
  end.

(** The fewest digits that read back as [x], and how many they are. *)
Fixpoint fewest_digits (fuel : nat) (x d k : Z) : Z * Z :=
  match fuel with
  | O => (x, d)
  | S fuel' =>
      match digits_at x d k with
      | Some s => (s, k)
      | None => fewest_digits fuel' x d (k + 1)
      end
  end.

Fixpoint zeros (n : nat) : string :=
  match n with
  | O => ""
  | S n' => "0" ++ zeros n'
  end.

(** [Number.prototype.toString] on a Number that is an integer and not
    negative: an integer below 2^53 is written as it is; a larger one with
    the fewest digits that read back as the same Number, filled up with
    zeros below 10^21 and with an exponent from there on.  An integer that
    no Number holds exactly is written as the Number nearest to it, which
    is what it is as a literal; past the largest Number that is
    [Infinity]. *)
Definition Number_toString_positive (y : Z) : string :=
  let x := nearest_Number y in
  if (x <? 2 ^ 53)%Z then decimal x
  else if (2 ^ 1024 <=? x)%Z then "Infinity"
  else
    let d := Z.of_nat (String.length (decimal x)) in
    let '(s, k, n) :=
      if Z.eqb (nearest_Number (10 ^ d)) x then (1%Z, 1%Z, (d + 1)%Z)
      else let (s, k) := fewest_digits (Z.to_nat d) x d 1 in (s, k, d) in
    if (n <=? 21)%Z then decimal s ++ zeros (Z.to_nat (n - k))
    else
      match decimal s with
      | String c rest =>
          String c (if (k =? 1)%Z then "" else "." ++ rest) ++ "e+" ++ decimal (n - 1)
      | EmptyString => ""
      end.

Definition Number_toString (x : Z) : string :=
  if (x <? 0)%Z then "-" ++ Number_toString_positive (- x)
  else Number_toString_positive x.

(** The string a value turns into when it is joined to a string
    (["..." + v]) or used as a property key. *)
Definition to_string (v : value) : string :=
  match v with
  | VUndefined => "undefined"
  | VNull => "null"
  | VBool true => "true"
  | VBool false => "false"
  | VNum n => Number_toString n
  | VStr s => s
  | VObj _ => "[object Object]"
  end.

(** The property key a value turns into when it indexes an object
    ([sessions[v]]): the same string. *)
Definition to_key (v : value) : string := to_string v.

(** Reading an optional slot: an absent property reads as [undefined]. *)
Definition read (slot : option value) : value :=
  match slot with
  | Some v => v
  | None => VUndefined
  end.

(** Own-property lookup in an association list (first binding wins). *)
Fixpoint assoc {A : Type} (k : string) (l : list (string * A)) : option A :=
  match l with
  | [] => None
  | (k', a) :: rest => if String.eqb k k' then Some a else assoc k rest
  end.

(** Errors a statement can raise. *)
Inductive exn : Type :=
| ReferenceError (identifier : string)
| TypeError (text : string).

(** [o.p] for a value [o]: a [TypeError] on [undefined] and [null], the own
    property of an object, [undefined] otherwise. *)
Definition get_property (o : value) (p : string) : value + exn :=
  match o with
  | VUndefined => inr (TypeError "Cannot read properties of undefined")
  | VNull => inr (TypeError "Cannot read properties of null")
  | VObj fields => inl (read (assoc p fields))
  | _ => inl VUndefined
  end.

(** ** WindowMessage.js *)

Module WindowMessage.

(** The object built by [new WindowMessage(...)].  The four optional
    fields are properties that may be absent ([None]). *)
Record t : Type := mk {
  number : value;
  action : value;
  originType : value;
  originUUID : value;
  destinationType : option value;
  destinationUUID : option value;
  data : option value;
  authentication : option value;
  hops : list value
}.

(** [if(x !== undefined) { this.f = x; }] *)
Definition optional (x : value) : option value :=
  if strict_neq x VUndefined then Some x else None.

(** [function WindowMessage(number, action, originType, originUUID,
    destinationType, destinationUUID, data, authentication)]; an argument
    left out of the call is [undefined]. *)
Definition new (number action originType originUUID
                destinationType destinationUUID data authentication : value) : t :=
  {| number := number;
     action := action;
     originType := originType;
     originUUID := originUUID;
     destinationType := optional destinationType;
     destinationUUID := optional destinationUUID;
     data := optional data;
     authentication := optional authentication;
     hops := [] |}.

Definition READY : Z := 0.
Definition CLOSED : Z := 1.
Definition LOOKUP : Z := 2.
Definition MESSAGE : Z := 3.
Definition BROADCAST : Z := 4.
Definition LOOKUP_FOUND : Z := 5.
Definition LOOKUP_NOT_FOUND : Z := 6.
Definition CONNECT : Z := 7.

(** [message.hops.push(uuid)] *)
Definition push_hop (m : t) (uuid : value) : t :=
  {| number := number m;
     action := action m;
     originType := originType m;
     originUUID := originUUID m;
     destinationType := destinationType m;
     destinationUUID := destinationUUID m;
     data := data m;
     authentication := authentication m;
     hops := hops m ++ [uuid] |}.

(** [message.hops.pop()]: the removed last element ([undefined] on an
    empty array) and the message left. *)
Definition pop_hop (m : t) : value * t :=
  (last (hops m) VUndefined,
   {| number := number m;
      action := action m;
      originType := originType m;
      originUUID := originUUID m;
      destinationType := destinationType m;
      destinationUUID := destinationUUID m;
      data := data m;
      authentication := authentication m;
      hops := removelast (hops m) |}).

(** [message.action === WindowMessage.X] *)
Definition has_action (m : t) (code : Z) : bool := strict_eq (action m) (VNum code).

End WindowMessage.

(** ** Sessions, callbacks and the effects of a handler *)

(** A session object is named by its place in the manager's store. *)
Definition ref : Type := nat.

(** The properties a plain object inherits from [Object.prototype], in a
    page that adds none to it.  None of them is [undefined] and none is a
    session: each is a function, and [__proto__] is [Object.prototype]
    itself; none has a property [send], [setStatus], [received], [onClose]
    or [onMessage]. *)
Definition Object_prototype : list string :=
  ["constructor"; "toString"; "toLocaleString"; "valueOf"; "hasOwnProperty";
   "isPrototypeOf"; "propertyIsEnumerable"; "__proto__"; "__defineGetter__";
   "__defineSetter__"; "__lookupGetter__"; "__lookupSetter__"].

Definition inherited (key : string) : bool := existsb (String.eqb key) Object_prototype.

(** What a property of the table of sessions gives when it is not
    [undefined]: a session the table lists, or a member the table, a plain
    object, inherits. *)
Inductive peer : Type :=
| Peer (session : ref)
| Member (name : string).

(** A reference to a window, as the host hands it out. *)
Inductive handle : Type :=
| WindowOpener
| WindowOpen (url : value)
| WindowOf (context : string).

(** A function stored in a callback slot or passed to [lookup]: one the
    application supplied, or the closure [function(gateway, uuid, type)]
    that [openSession] passes to [lookup], with the [session] and [url] it
    captured. *)
Inductive callback : Type :=
| UserFunction (id : nat)
| OpenSessionContinuation (session : ref) (url : value).

Module WindowSession.

Inductive state : Type := CONNECTING | WAITING_READY | READY | CLOSED.

(** Modelled from the spec: WindowSession.js is not among the sources.  A
    session has the peer's [uuid] and [type], a [status], a direct
    [window] or a [gateway] session, the three callback slots and the
    queue of received messages; the manager listing also writes [url]. *)
Record t : Type := mk {
  window : option handle;
  url : value;
  uuid : value;
  type : value;
  status : state;
  received : list WindowMessage.t;
  gateway : option peer;
  onMessage : option callback;
  onBroadcastMessage : option callback;
  onClose : option callback
}.

(** Modelled from the spec: the object [new WindowSession(manager)] gives,
    "constructed, not yet handshaking", with nothing bound. *)
Definition new : t :=
  {| window := None; url := VStr ""; uuid := VNull; type := VNull;
     status := CONNECTING; received := []; gateway := None;
     onMessage := None; onBroadcastMessage := None; onClose := None |}.

Definition set_window (s : t) (w : option handle) : t :=
  mk w (url s) (uuid s) (type s) (status s) (received s) (gateway s)
     (onMessage s) (onBroadcastMessage s) (onClose s).
Definition set_url (s : t) (u : value) : t :=
  mk (window s) u (uuid s) (type s) (status s) (received s) (gateway s)
     (onMessage s) (onBroadcastMessage s) (onClose s).
Definition set_uuid (s : t) (u : value) : t :=
  mk (window s) (url s) u (type s) (status s) (received s) (gateway s)
     (onMessage s) (onBroadcastMessage s) (onClose s).
Definition set_type (s : t) (ty : value) : t :=
  mk (window s) (url s) (uuid s) ty (status s) (received s) (gateway s)
     (onMessage s) (onBroadcastMessage s) (onClose s).
Definition set_status (s : t) (st : state) : t :=
  mk (window s) (url s) (uuid s) (type s) st (received s) (gateway s)
     (onMessage s) (onBroadcastMessage s) (onClose s).
Definition set_received (s : t) (q : list WindowMessage.t) : t :=
  mk (window s) (url s) (uuid s) (type s) (status s) q (gateway s)
     (onMessage s) (onBroadcastMessage s) (onClose s).
Definition set_gateway (s : t) (g : option peer) : t :=
  mk (window s) (url s) (uuid s) (type s) (status s) (received s) g
     (onMessage s) (onBroadcastMessage s) (onClose s).

End WindowSession.

(** An argument of a callback invocation: a plain value, a session, or a
    member of [Object.prototype]. *)
Inductive argument : Type :=
| Val (v : value)
| Session (session : ref)
| Prototype (name : string).

Definition argument_of (p : peer) : argument :=
  match p with
  | Peer session => Session session
  | Member name => Prototype name
  end.

Inductive level : Type := log | warn | error.

(** What a handler does to the world outside the manager, in order. *)
Inductive effect : Type :=
| Console (l : level) (text : string)
| Send (session : ref) (message : WindowMessage.t)
| Invoke (f : callback) (args : list argument)
| Method (session : ref) (name : string)
| OpenWindow (url : value).

(** How a statement ends. *)
Inductive completion (A : Type) : Type :=
| Normal (a : A)
| Abrupt (e : exn).
Arguments Normal {A} a.
Arguments Abrupt {A} e.

(** [l[i] := x], nothing out of range. *)
Fixpoint update_nth {A : Type} (i : nat) (f : A -> A) (l : list A) : list A :=
  match l, i with
  | [], _ => []
  | x :: rest, O => f x :: rest
  | x :: rest, S j => x :: update_nth j f rest
  end.

(** [delete o[k]] on an association list. *)
Fixpoint remove_key {A : Type} (k : string) (l : list (string * A)) : list (string * A) :=
  match l with
  | [] => []
  | (k', a) :: rest =>
      if String.eqb k k' then remove_key k rest else (k', a) :: remove_key k rest
  end.

(** [array.indexOf(x) === -1] *)
Definition not_in_array (x : value) (array : list value) : bool :=
  negb (existsb (strict_eq x) array).

(** ** WindowManager.js *)

Module WindowManager.

(** Modelled from the spec: EventManager.js is not among the sources.  The
    event-subscription adapter offers [add], [create] and [destroy]; the
    object [new EventManager()] gives has no [type] and no [uuid]
    property. *)
Definition new_EventManager : value := VObj [].

(** The closure [lookup] registers for "message" events through a
    temporary EventManager: the variables [sent], [received] and [found]
    it shares with [lookup], the [onFinish] it was given, and whether its
    EventManager still has it attached.  Modelled from the spec, for the
    absent EventManager.js: [create()] attaches the listener, [destroy()]
    detaches it, and a detached listener is not run. *)
Record Collector : Type := mkCollector {
  sent : nat;
  received : nat;
  found : bool;
  onFinish : callback;
  attached : bool
}.

(** The manager object, with the store of the sessions it created and the
    collectors of its lookups in flight. *)
Record t : Type := mk {
  type : value;
  uuid : string;
  sessions : list (string * ref);
  waitingSessions : list ref;
  onBroadcastMessage : option callback;
  onMessage : option callback;
  manager : value;
  store : list WindowSession.t;
  collectors : list Collector
}.

Definition set_sessions (self : t) (table : list (string * ref)) : t :=
  mk (type self) (uuid self) table (waitingSessions self)
     (onBroadcastMessage self) (onMessage self) (manager self)
     (store self) (collectors self).
Definition set_store (self : t) (st : list WindowSession.t) : t :=
  mk (type self) (uuid self) (sessions self) (waitingSessions self)
     (onBroadcastMessage self) (onMessage self) (manager self)
     st (collectors self).
Definition set_collectors (self : t) (cs : list Collector) : t :=
  mk (type self) (uuid self) (sessions self) (waitingSessions self)
     (onBroadcastMessage self) (onMessage self) (manager self)
     (store self) cs.

(** *** The monad of handler statements *)

Definition M (A : Type) : Type := t -> t * list effect * completion A.

Definition ret {A : Type} (a : A) : M A := fun self => (self, [], Normal a).

Definition bind {A B : Type} (c : M A) (k : A -> M B) : M B :=
  fun self =>
    match c self with
    | (self1, tr1, Normal a) =>
        match k a self1 with
        | (self2, tr2, r) => (self2, tr1 ++ tr2, r)
        end
    | (self1, tr1, Abrupt e) => (self1, tr1, Abrupt e)
    end.

Definition get : M t := fun self => (self, [], Normal self).
Definition modify (f : t -> t) : M unit := fun self => (f self, [], Normal tt).
Definition emit (e : effect) : M unit := fun self => (self, [e], Normal tt).
Definition throw {A : Type} (e : exn) : M A := fun self => (self, [], Abrupt e).

Definition lift {A : Type} (r : A + exn) : M A :=
  match r with
  | inl a => ret a
  | inr e => throw e
  end.

Declare Scope js_scope.
Delimit Scope js_scope with js.
Notation "x <- c ;; k" := (bind c (fun x => k))
  (at level 61, c at next level, right associativity) : js_scope.
Notation "c ;; k" := (bind c (fun _ => k))
  (at level 61, right associativity) : js_scope.
Local Open Scope js_scope.

(** The final state, the trace and the completion of a run. *)
Definition state_of {A : Type} (r : t * list effect * completion A) : t := fst (fst r).
Definition trace_of {A : Type} (r : t * list effect * completion A) : list effect :=
  snd (fst r).
Definition completion_of {A : Type} (r : t * list effect * completion A) : completion A :=
  snd r.

(** *** Session objects in the store *)

Definition deref (self : t) (session : ref) : WindowSession.t :=
  nth session (store self) WindowSession.new.

(** [session.f = x] *)
Definition assign (session : ref) (f : WindowSession.t -> WindowSession.t) : M unit :=
  modify (fun self => set_store self (update_nth session f (store self))).

(** [new WindowSession(self)] *)
Definition new_WindowSession : M ref :=
  self <- get ;;
  modify (fun self => set_store self (store self ++ [WindowSession.new])) ;;
  ret (List.length (store self)).

(** [session.send(message)]; the body is WindowSession's. *)
Definition send (session : ref) (message : WindowMessage.t) : M unit :=
  emit (Send session message).

(** Modelled from the spec: [session.setStatus(status)] of the absent
    WindowSession.js. *)
Definition setStatus (session : ref) (st : WindowSession.state) : M unit :=
  emit (Method session "setStatus") ;;
  assign session (fun s => WindowSession.set_status s st).

(** Modelled from the spec: "waitReady() forces WAITING_READY". *)
Definition waitReady (session : ref) : M unit :=
  emit (Method session "waitReady") ;;
  assign session (fun s => WindowSession.set_status s WindowSession.WAITING_READY).

(** [session.acknowledge()], [session.connect()], [session.close()]: calls
    into the absent WindowSession.js, recorded as such. *)
Definition acknowledge (session : ref) : M unit := emit (Method session "acknowledge").
Definition connect (session : ref) : M unit := emit (Method session "connect").
Definition close (session : ref) : M unit := emit (Method session "close").

(** [if(slot !== null) { slot(args); }] *)
Definition call_if_set (slot : option callback) (args : list argument) : M unit :=
  match slot with
  | Some f => emit (Invoke f args)
  | None => ret tt
  end.

(** [for(var i in table) body], where [body] may [return] a value out of
    the enclosing function ([Some]), [break] included.  The listings never
    change the table inside such a loop, so [table[i]] is the value listed
    with [i]. *)
Fixpoint for_in {A : Type} (table : list (string * ref))
         (body : string -> ref -> M (option A)) : M (option A) :=
  match table with
  | [] => ret None
  | (i, session) :: rest =>
      r <- body i session ;;
      match r with
      | Some a => ret (Some a)
      | None => for_in rest body
      end
  end.

(** The session object behind a reference, as it is now. *)
Definition load (session : ref) : M WindowSession.t :=
  self <- get ;;
  ret (deref self session).

(** The session the table lists under [key], as a property of its own. *)
Definition session_at (self : t) (key : value) : option ref :=
  assoc (to_key key) (sessions self).

(** [table[key]], [None] for [undefined], for a table that is a plain
    object: a key it does not list is looked up in [Object.prototype]. *)
Definition table_get (table : list (string * ref)) (key : value) : option peer :=
  match assoc (to_key key) table with
  | Some session => Some (Peer session)
  | None => if inherited (to_key key) then Some (Member (to_key key)) else None
  end.

(** [self.sessions[key]]; the table is [this.sessions = {}], line 73. *)
Definition sessions_get (self : t) (key : value) : option peer :=
  table_get (sessions self) key.

(** [f is not a function]: the call of a method that the object does not
    have. *)
Definition not_a_function {A : Type} (f : string) : M A :=
  throw (TypeError (f ++ " is not a function")).

(** *** The "message" listener of the constructor (first listing) *)

(** Lines 122-140: a message for somebody else. *)
Definition redirect (message : WindowMessage.t) : M unit :=
  self <- get ;;
  emit (Console warn
          ("TabTalk: Destination UUID diferent from self, destination is "
           ++ to_string (read (WindowMessage.destinationUUID message)))) ;;
  match sessions_get self (read (WindowMessage.destinationUUID message)) with
  | Some (Peer session) =>
      let message := WindowMessage.push_hop message (VStr (uuid self)) in
      send session message ;;
      emit (Console log "TabTalk: Redirected message to destination.")
  | Some (Member _) => not_a_function "session.send"
  | None =>
      emit (Console warn "TabTalk: Unknown destination, cannot redirect message.")
  end.

(** Lines 145-158. *)
Definition on_closed (message : WindowMessage.t) : M unit :=
  self <- get ;;
  match sessions_get self (WindowMessage.originUUID message) with
  | Some (Peer session) =>
      setStatus session WindowSession.CLOSED ;;
      modify (fun self =>
        set_sessions self
          (remove_key (to_key (WindowMessage.originUUID message)) (sessions self)))
  | Some (Member _) => not_a_function "session.setStatus"
  | None =>
      emit (Console warn "TabTalk: Unknown closed origin session.")
  end.

(** Lines 160-198. *)
Definition on_lookup (message : WindowMessage.t) : M unit :=
  self <- get ;;
  emit (Console log
          ("TabTalk: WindowManager lookup request received from "
           ++ to_string (WindowMessage.originType message) ++ ".")) ;;
  r <- for_in (sessions self) (fun i session =>
         s <- load session ;;
         if strict_eq (WindowSession.type s) (read (WindowMessage.destinationType message))
         then ret (Some (WindowMessage.new (VNum 0) (VNum WindowMessage.LOOKUP_FOUND)
                           (type self) (VStr (uuid self)) VUndefined VUndefined
                           (VObj [("uuid", WindowSession.uuid s);
                                  ("type", WindowSession.type s)])
                           VUndefined))
         else ret None) ;;
  let response :=
    match r with
    | Some response => response
    | None => WindowMessage.new (VNum 0) (VNum WindowMessage.LOOKUP_NOT_FOUND)
                (type self) (VStr (uuid self)) VUndefined VUndefined VUndefined VUndefined
    end in
  match sessions_get self (WindowMessage.originUUID message) with
  | Some (Peer session) =>
      send session response ;;
      emit (Console log "TabTalk: Response to lookup request sent.")
  | Some (Member _) => not_a_function "session.send"
  | None =>
      emit (Console warn "TabTalk: Unknown lookup origin session.")
  end.

(** Lines 200-219. *)
Definition on_connect (message : WindowMessage.t) : M unit :=
  self <- get ;;
  let (gatewayUUID, message) := WindowMessage.pop_hop message in
  match sessions_get self gatewayUUID with
  | Some gateway =>
      session <- new_WindowSession ;;
      assign session (fun s => WindowSession.set_uuid s (WindowMessage.originUUID message)) ;;
      assign session (fun s => WindowSession.set_type s (WindowMessage.originType message)) ;;
      assign session (fun s => WindowSession.set_gateway s (Some gateway)) ;;
      waitReady session ;;
      acknowledge session ;;
      emit (Console warn "TabTalk: Connect message received, creating a new session.")
  | None =>
      emit (Console error "TabTalk: Connect message received, but the gateway is unknown.")
  end.

(** Lines 221-248. *)
Definition on_broadcast (message : WindowMessage.t) : M unit :=
  self <- get ;;
  emit (Console log
          ("TabTalk: WindowManager broadcast message received "
           ++ to_string (WindowMessage.originType message) ++ ".")) ;;
  call_if_set (onBroadcastMessage self)
    [Val (read (WindowMessage.data message));
     Val (read (WindowMessage.authentication message))] ;;
  let message := WindowMessage.push_hop message (VStr (uuid self)) in
  for_in (A := unit) (sessions self) (fun i session =>
    s <- load session ;;
    if strict_neq (WindowSession.uuid s) (WindowMessage.originUUID message)
       && not_in_array (WindowSession.uuid s) (WindowMessage.hops message)
    then
      send session message ;;
      call_if_set (WindowSession.onBroadcastMessage s)
        [Val (read (WindowMessage.data message));
         Val (read (WindowMessage.authentication message))] ;;
      ret None
    else ret None) ;;
  ret tt.

(** Lines 250-273. *)
Definition on_message (message : WindowMessage.t) : M unit :=
  self <- get ;;
  emit (Console log
          ("TabTalk: WindowManager message received "
           ++ to_string (WindowMessage.originType message) ++ ".")) ;;
  call_if_set (onMessage self)
    [Val (WindowMessage.originType message);
     Val (read (WindowMessage.data message));
     Val (read (WindowMessage.authentication message))] ;;
  match sessions_get self (WindowMessage.originUUID message) with
  | Some (Peer session) =>
      assign session (fun s =>
        WindowSession.set_received s (WindowSession.received s ++ [message])) ;;
      s <- load session ;;
      call_if_set (WindowSession.onMessage s)
        [Val (read (WindowMessage.data message));
         Val (read (WindowMessage.authentication message))]
  | Some (Member _) =>
      throw (TypeError "Cannot read properties of undefined")
  | None =>
      emit (Console warn "TabTalk: Unknown origin session.")
  end.

(** [message.destinationUUID !== undefined &&
    message.destinationUUID !== self.uuid] *)
Definition for_somebody_else (self : t) (message : WindowMessage.t) : bool :=
  strict_neq (read (WindowMessage.destinationUUID message)) VUndefined
  && strict_neq (read (WindowMessage.destinationUUID message)) (VStr (uuid self)).

(** Lines 110-279, [function(event)] with [message = event.data]. *)
Definition dispatch (message : WindowMessage.t) : M unit :=
  self <- get ;;
  if WindowMessage.has_action message WindowMessage.READY then ret tt
  else if for_somebody_else self message then redirect message
  else if WindowMessage.has_action message WindowMessage.CLOSED then on_closed message
  else if WindowMessage.has_action message WindowMessage.LOOKUP then on_lookup message
  else if WindowMessage.has_action message WindowMessage.CONNECT then on_connect message
  else if WindowMessage.has_action message WindowMessage.BROADCAST then on_broadcast message
  else if WindowMessage.has_action message WindowMessage.MESSAGE then on_message message
  else emit (Console warn "TabTalk: Unknown message type.").

(** *** The methods (first listing) *)

(** Lines 335-344, [WindowManager.prototype.broadcast]. *)
Definition broadcast (data authentication : value) : M unit :=
  self <- get ;;
  originType <- lift (get_property (manager self) "type") ;;
  originUUID <- lift (get_property (manager self) "uuid") ;;
  let message := WindowMessage.new (VNum 0) (VNum WindowMessage.BROADCAST)
                   originType originUUID VUndefined VUndefined data authentication in
  let message := WindowMessage.push_hop message (VStr (uuid self)) in
  for_in (A := unit) (sessions self) (fun i session =>
    send session message ;;
    ret None) ;;
  ret tt.

(** The [for] loop of [lookup], lines 493-498: the value of [sent]. *)
Fixpoint scatter (table : list (string * ref)) (message : WindowMessage.t) : M nat :=
  match table with
  | [] => ret 0
  | (i, session) :: rest =>
      emit (Console log ("TabTalk: Send lookup message to " ++ i ++ ".")) ;;
      send session message ;;
      sent <- scatter rest message ;;
      ret (S sent)
  end.

(** [session.window = window.open(url)] *)
Definition window_open (url : value) : M handle :=
  emit (OpenWindow url) ;;
  ret (WindowOpen url).

(** A call of [onFinish]: [onFinish(null)] for [None],
    [onFinish(session, uuid, type)] for [Some].  The closure of
    [openSession], lines 397-418, runs its body. *)
Definition call_onFinish (f : callback) (result : option (peer * value * value)) : M unit :=
  emit (Invoke f
          match result with
          | None => [Val VNull]
          | Some (gateway, uuid, type) => [argument_of gateway; Val uuid; Val type]
          end) ;;
  match f with
  | UserFunction _ => ret tt
  | OpenSessionContinuation session url =>
      match result with
      | None =>
          if strict_neq url VNull then
            assign session (fun s => WindowSession.set_url s url) ;;
            w <- window_open url ;;
            assign session (fun s => WindowSession.set_window s (Some w)) ;;
            waitReady session
          else ret tt
      | Some (gateway, uuid, type) =>
          assign session (fun s => WindowSession.set_gateway s (Some gateway)) ;;
          assign session (fun s => WindowSession.set_uuid s uuid) ;;
          assign session (fun s => WindowSession.set_type s type) ;;
          waitReady session ;;
          connect session
      end
  end.

(** Lines 488-545, [WindowManager.prototype.lookup]: the collector, when
    one is made, is attached last ([manager.create()]). *)
Definition lookup (type_ : value) (onFinish : callback) : M unit :=
  self <- get ;;
  let message := WindowMessage.new (VNum 0) (VNum WindowMessage.LOOKUP)
                   (type self) (VStr (uuid self)) type_ VUndefined VUndefined VUndefined in
  sent <- scatter (sessions self) message ;;
  if Nat.ltb 0 sent then
    modify (fun self =>
      set_collectors self (collectors self ++ [mkCollector sent 0 false onFinish true]))
  else
    emit (Console log "TabTalk: No session available to run lookup.") ;;
    call_onFinish onFinish None.

(** An assignment to a variable of the [n]-th collector's closure. *)
Definition update_collector (n : nat) (f : Collector -> Collector) : M unit :=
  modify (fun self => set_collectors self (update_nth n f (collectors self))).

Definition set_found (c : Collector) : Collector :=
  mkCollector (sent c) (received c) true (onFinish c) (attached c).
Definition count_received (c : Collector) : Collector :=
  mkCollector (sent c) (S (received c)) (found c) (onFinish c) (attached c).
Definition detach (c : Collector) : Collector :=
  mkCollector (sent c) (received c) (found c) (onFinish c) false.

(** Lines 504-537: the listener of the [n]-th collector, run on a
    "message" event while it is attached. *)
Definition collector_handler (n : nat) (data : WindowMessage.t) : M unit :=
  self <- get ;;
  match nth_error (collectors self) n with
  | None => ret tt
  | Some c =>
      if negb (attached c) then ret tt
      else
        (if WindowMessage.has_action data WindowMessage.LOOKUP_FOUND then
           (if negb (found c) then
              match sessions_get self (WindowMessage.originUUID data) with
              | Some session =>
                  update_collector n set_found ;;
                  uuid <- lift (get_property (read (WindowMessage.data data)) "uuid") ;;
                  type <- lift (get_property (read (WindowMessage.data data)) "type") ;;
                  call_onFinish (onFinish c) (Some (session, uuid, type))
              | None => ret tt
              end
            else ret tt) ;;
           emit (Console log
                   ("TabTalk: Received lookup FOUND message from "
                    ++ to_string (WindowMessage.originUUID data) ++ ".")) ;;
           update_collector n count_received
         else if WindowMessage.has_action data WindowMessage.LOOKUP_NOT_FOUND then
           emit (Console log
                   ("TabTalk: Received lookup NOT FOUND message from "
                    ++ to_string (WindowMessage.originUUID data) ++ ".")) ;;
           update_collector n count_received
         else ret tt) ;;
        self <- get ;;
        match nth_error (collectors self) n with
        | None => ret tt
        | Some c =>
            if Nat.eqb (sent c) (received c) then
              update_collector n detach ;;
              if negb (found c) then call_onFinish (onFinish c) None else ret tt
            else ret tt
        end
  end.

(** Lines 378-422, [WindowManager.prototype.openSession]. *)
Definition openSession (url type_ : value) : M ref :=
  self <- get ;;
  r <- for_in (sessions self) (fun i session =>
         s <- load session ;;
         if strict_eq (WindowSession.type s) type_ then
           emit (Console warn
                   ("TabTalk: A session of the type " ++ to_string type_
                    ++ " already exists.")) ;;
           ret (Some session)
         else ret None) ;;
  match r with
  | Some session => ret session
  | None =>
      session <- new_WindowSession ;;
      assign session (fun s => WindowSession.set_type s type_) ;;
      (if strict_neq type_ VUndefined
       then lookup type_ (OpenSessionContinuation session url)
       else ret tt) ;;
      ret session
  end.

(** Lines 430-442, [WindowManager.prototype.getSession]; [None] is
    [null]. *)
Definition getSession (type_ : value) : M (option ref) :=
  self <- get ;;
  for_in (sessions self) (fun i session =>
    s <- load session ;;
    if strict_eq (WindowSession.type s) type_ then ret (Some session) else ret None).

(** An identifier that is neither a parameter nor a variable of the
    function nor a binding of the module: a property of the global object
    [window], a [ReferenceError] when there is none. *)
Definition resolve (window : list (string * value)) (identifier : string) : M value :=
  match assoc identifier window with
  | Some v => ret v
  | None => throw (ReferenceError identifier)
  end.

(** Lines 450-461, [WindowManager.prototype.sessionAvailable]; the
    function has the parameter [type] and the variable [i], the module
    binds EventManager, WindowSession, WindowMessage and WindowManager. *)
Definition sessionAvailable (window : list (string * value)) (type_ : value) : M bool :=
  self <- get ;;
  r <- for_in (sessions self) (fun i session =>
         s <- load session ;;
         if strict_eq (WindowSession.type s) type_ then ret (Some true)
         else
           message <- resolve window "message" ;;
           action <- lift (get_property message "action") ;;
           if strict_neq action (VNum WindowMessage.CLOSED) then ret (Some true)
           else ret None) ;;
  ret (match r with Some b => b | None => false end).

(** Lines 469-480, [WindowManager.prototype.sessionExists]. *)
Definition sessionExists (type_ : value) : M bool :=
  self <- get ;;
  r <- for_in (sessions self) (fun i session =>
         s <- load session ;;
         if strict_eq (WindowSession.type s) type_ then ret (Some true) else ret None) ;;
  ret (match r with Some b => b | None => false end).

End WindowManager.

(** ** The second listing of WindowManager.js *)

Module SecondListing.
Import WindowManager.
Local Open Scope js_scope.

(** Lines 710-728. *)
Definition redirect (message : WindowMessage.t) : M unit :=
  self <- get ;;
  emit (Console warn
          ("TabTalk: Destination UUID diferent from self, destination is "
           ++ to_string (read (WindowMessage.destinationUUID message)))) ;;
  match sessions_get self (read (WindowMessage.destinationUUID message)) with
  | Some (Peer session) =>
      let message := WindowMessage.push_hop message (VStr (uuid self)) in
      send session message ;;
      emit (Console log "TabTalk: Redirect message to destination.")
  | Some (Member _) => not_a_function "session.send"
  | None =>
      emit (Console warn "TabTalk: Unknown destination, cannot redirect message.")
  end.

(** Lines 733-750.  A member of [Object.prototype] has no [onClose], and
    [undefined != null] is false; [delete] finds no property of the table's
    own to remove. *)
Definition on_closed (message : WindowMessage.t) : M unit :=
  self <- get ;;
  match sessions_get self (WindowMessage.originUUID message) with
  | Some (Peer session) =>
      s <- load session ;;
      call_if_set (WindowSession.onClose s) [] ;;
      modify (fun self =>
        set_sessions self
          (remove_key (to_key (WindowMessage.originUUID message)) (sessions self)))
  | Some (Member _) =>
      modify (fun self =>
        set_sessions self
          (remove_key (to_key (WindowMessage.originUUID message)) (sessions self)))
  | None =>
      emit (Console warn "TabTalk: Unknown closed origin session.")
  end.

(** Lines 817-842, under the comment [//TODO <FIX BROADCAST LOOP>]. *)
Definition on_broadcast (message : WindowMessage.t) : M unit :=
  self <- get ;;
  emit (Console log
          ("TabTalk: WindowManager broadcast message received "
           ++ to_string (WindowMessage.originType message) ++ ".")) ;;
  call_if_set (onBroadcastMessage self)
    [Val (read (WindowMessage.data message));
     Val (read (WindowMessage.authentication message))] ;;
  for_in (A := unit) (sessions self) (fun i session =>
    s <- load session ;;
    if strict_neq (WindowSession.uuid s) (WindowMessage.originUUID message)
    then
      send session message ;;
      call_if_set (WindowSession.onBroadcastMessage s)
        [Val (read (WindowMessage.data message));
         Val (read (WindowMessage.authentication message))] ;;
      ret None
    else ret None) ;;
  ret tt.

(** Lines 844-860.  The [onMessage] of a member of [Object.prototype] is
    [undefined], which is not [null], and is called. *)
Definition on_message (message : WindowMessage.t) : M unit :=
  self <- get ;;
  emit (Console log
          ("TabTalk: WindowManager message received "
           ++ to_string (WindowMessage.originType message) ++ ".")) ;;
  match sessions_get self (WindowMessage.originUUID message) with
  | Some (Peer session) =>
      s <- load session ;;
      call_if_set (WindowSession.onMessage s)
        [Val (read (WindowMessage.data message));
         Val (read (WindowMessage.authentication message))]
  | Some (Member _) => not_a_function "session.onMessage"
  | None =>
      emit (Console warn "TabTalk: Unknown origin session.")
  end.

(** Lines 703-866; the LOOKUP and CONNECT branches are those of the first
    listing. *)
Definition dispatch (message : WindowMessage.t) : M unit :=
  self <- get ;;
  if for_somebody_else self message then redirect message
  else if WindowMessage.has_action message WindowMessage.CLOSED then on_closed message
  else if WindowMessage.has_action message WindowMessage.LOOKUP then on_lookup message
  else if WindowMessage.has_action message WindowMessage.CONNECT then on_connect message
  else if WindowMessage.has_action message WindowMessage.BROADCAST then on_broadcast message
  else if WindowMessage.has_action message WindowMessage.MESSAGE then on_message message
  else emit (Console warn "TabTalk: Unknown message type.").

(** Lines 906-914. *)
Definition broadcast (data authentication : value) : M unit :=
  self <- get ;;
  originType <- lift (get_property (manager self) "type") ;;
  originUUID <- lift (get_property (manager self) "uuid") ;;
  let message := WindowMessage.new (VNum 0) (VNum WindowMessage.BROADCAST)
                   originType originUUID VUndefined VUndefined data authentication in
  for_in (A := unit) (sessions self) (fun i session =>
    send session message ;;
    ret None) ;;
  ret tt.

End SecondListing.

(** ** Windows that talk to each other *)

Module Network.
Import WindowManager.

(** An envelope on its way from the window of [src] to the window of
    [dst]. *)
Record packet : Type := mkPacket {
  src : string;
  dst : string;
  body : WindowMessage.t
}.

(** The managers (one a window, named by its uuid), the envelopes posted
    and not yet delivered, and the ones delivered so far, oldest first. *)
Record t : Type := mk {
  nodes : list WindowManager.t;
  inflight : list packet;
  history : list packet
}.

(** Modelled from the spec: [send] of the absent WindowSession.js, "if this
    session owns a direct transport handle, hand the envelope to the host
    transport; if it instead owns a gateway session, delegate to that
    session's send".  The window the envelope is posted to; a chain of
    gateways longer than the store has gone round, and nothing is posted
    through a gateway that is no session. *)
Fixpoint carrier (fuel : nat) (self : WindowManager.t) (session : ref) : option handle :=
  match fuel with
  | O => None
  | S fuel' =>
      match WindowSession.window (deref self session) with
      | Some w => Some w
      | None =>
          match WindowSession.gateway (deref self session) with
          | Some (Peer g) => carrier fuel' self g
          | Some (Member _) | None => None
          end
      end
  end.

(** The envelopes a trace posts; the transport copies the envelope as it
    is when [send] is called. *)
Definition post (self : WindowManager.t) (e : effect) : list packet :=
  match e with
  | Send session message =>
      match carrier (S (List.length (store self))) self session with
      | Some (WindowOf context) => [mkPacket (uuid self) context message]
      | _ => []
      end
  | _ => []
  end.

Definition posts (self : WindowManager.t) (tr : list effect) : list packet :=
  flat_map (post self) tr.

Fixpoint find_node (name : string) (l : list WindowManager.t) : option WindowManager.t :=
  match l with
  | [] => None
  | self :: rest => if String.eqb name (uuid self) then Some self else find_node name rest
  end.

Fixpoint put_node (self' : WindowManager.t) (l : list WindowManager.t) : list WindowManager.t :=
  match l with
  | [] => []
  | self :: rest =>
      if String.eqb (uuid self') (uuid self) then self' :: rest
      else self :: put_node self' rest
  end.

(** The [k]-th element of a list and the others. *)
Fixpoint pick {A : Type} (k : nat) (l : list A) {struct l} : option (A * list A) :=
  match l with
  | [] => None
  | x :: rest =>
      match k with
      | O => Some (x, rest)
      | S k' =>
          match pick k' rest with
          | Some (y, others) => Some (y, x :: others)
          | None => None
          end
      end
  end.

(** A call of a method in the window named [name]. *)
Definition call (name : string) (method : M unit) (net : t) : t :=
  match find_node name (nodes net) with
  | None => net
  | Some self =>
      match method self with
      | (self', tr, _) =>
          mk (put_node self' (nodes net)) (inflight net ++ posts self' tr) (history net)
      end
  end.

(** Modelled from the spec: the transport, "a subscription that delivers
    each inbound envelope to dispatch", one at a time and in no fixed order.
    The host delivers the [k]-th envelope in flight: the "message" listener
    of its destination runs to completion.  [None] when there is no such
    envelope. *)
Definition step (listener : WindowMessage.t -> M unit) (net : t) (k : nat) : option t :=
  match pick k (inflight net) with
  | None => None
  | Some (p, others) =>
      match find_node (dst p) (nodes net) with
      | None => Some (mk (nodes net) others (history net ++ [p]))
      | Some self =>
          match listener (body p) self with
          | (self', tr, _) =>
              Some (mk (put_node self' (nodes net)) (others ++ posts self' tr)
                       (history net ++ [p]))
          end
      end
  end.

(** Deliveries in the order of a schedule. *)
Fixpoint run (listener : WindowMessage.t -> M unit) (schedule : list nat) (net : t)
  : option t :=
  match schedule with
  | [] => Some net
  | k :: rest =>
      match step listener net k with
      | Some net' => run listener rest net'
      | None => None
      end
  end.

(** The session a manager keeps for a neighbour whose window it holds. *)
Definition neighbour (name : string) : WindowSession.t :=
  WindowSession.set_window
    (WindowSession.set_status
       (WindowSession.set_uuid WindowSession.new (VStr name))
       WindowSession.READY)
    (Some (WindowOf name)).

(** A manager with a ready session for each of its neighbours and no
    callback set. *)
Definition node (type_ : value) (name : string) (neighbours : list string)
  : WindowManager.t :=
  WindowManager.mk type_ name
    (combine neighbours (seq 0 (List.length neighbours))) []
    None None new_EventManager
    (map neighbour neighbours) [].

(** A hub and its leaves. *)
Definition star (hub : string) (leaves : list string) : t :=
  mk (node (VStr "hub") hub leaves :: map (fun l => node (VStr "leaf") l [hub]) leaves)
     [] [].

(** Three windows, each a neighbour of the other two. *)
Definition cycle (a b c : string) : t :=
  mk [node (VStr "a") a [b; c]; node (VStr "b") b [a; c]; node (VStr "c") c [a; b]]
     [] [].

Definition delivered_to (name : string) (l : list packet) : nat :=
  List.length (filter (fun p => String.eqb (dst p) name) l).

End Network.

(** ** What a trace shows *)

(** The envelopes handed to [send], with the session each was handed to. *)
Definition sends (tr : list effect) : list (ref * WindowMessage.t) :=
  flat_map (fun e => match e with Send session m => [(session, m)] | _ => [] end) tr.

(** The callbacks invoked, with their arguments. *)
Definition invocations (tr : list effect) : list (callback * list argument) :=
  flat_map (fun e => match e with Invoke f args => [(f, args)] | _ => [] end) tr.

(** The method calls on sessions and the windows opened. *)
Definition session_calls (tr : list effect) : list effect :=
  filter (fun e => match e with Method _ _ | OpenWindow _ => true | _ => false end) tr.

(** The lines written to the console at a level. *)
Definition console (l : level) (tr : list effect) : list string :=
  flat_map (fun e =>
    match e, l with
    | Console log text, log | Console warn text, warn | Console error text, error => [text]
    | _, _ => []
    end) tr.



(** The first session of a table, in enumeration order, whose type is the
    one asked for. *)
Definition first_of_type (self : WindowManager.t) (type_ : value)
           (table : list (string * ref)) : option ref :=
  option_map snd
    (find (fun p => strict_eq (WindowSession.type (WindowManager.deref self (snd p))) type_)
          table).

Definition is_some {A : Type} (o : option A) : bool :=
  match o with
  | Some _ => true
  | None => false
  end.

(** ** Broadcasts on their way *)

(** The test of the BROADCAST branch on a session, for the envelope that
    already has the manager's uuid among its hops. *)
Definition eligible (self : WindowManager.t) (m : WindowMessage.t) (session : ref) : bool :=
  strict_neq (WindowSession.uuid (WindowManager.deref self session))
             (WindowMessage.originUUID m)
  && not_in_array (WindowSession.uuid (WindowManager.deref self session))
                  (WindowMessage.hops m).

(** The same test on the name of a neighbour. *)
Definition eligible_name (m : WindowMessage.t) (name : string) : bool :=
  strict_neq (VStr name) (WindowMessage.originUUID m)
  && not_in_array (VStr name) (WindowMessage.hops m).

(** The envelopes the window [name] posts when it relays [m] to its
    neighbours. *)
Definition relayed (name : string) (neighbours : list string) (m : WindowMessage.t)
  : list Network.packet :=
  map (fun y => Network.mkPacket name y (WindowMessage.push_hop m (VStr name)))
      (filter (eligible_name (WindowMessage.push_hop m (VStr name))) neighbours).

(** The envelope [broadcast] sends from the window [name], as the
    constructor leaves [this.manager]. *)
Definition broadcast_envelope_of (name : string) (data authentication : value)
  : WindowMessage.t :=
  WindowMessage.push_hop
    (WindowMessage.new (VNum 0) (VNum WindowMessage.BROADCAST) VUndefined VUndefined
       VUndefined VUndefined data authentication)
    (VStr name).

(** *** A broadcast from a leaf of a star *)

(** The envelope the leaf posts to the hub, the envelope the hub relays, and
    the envelopes the hub posts for the other leaves. *)
Definition star_first (hub leaf : string) (data authentication : value) : Network.packet :=
  Network.mkPacket leaf hub (broadcast_envelope_of leaf data authentication).

Definition star_relayed_envelope (hub leaf : string) (data authentication : value)
  : WindowMessage.t :=
  WindowMessage.push_hop (broadcast_envelope_of leaf data authentication) (VStr hub).

Definition star_others (hub : string) (leaves : list string) (leaf : string)
           (data authentication : value) : list Network.packet :=
  map (fun y => Network.mkPacket hub y (star_relayed_envelope hub leaf data authentication))
      (filter (fun y => negb (String.eqb y leaf)) leaves).

(** After the hub has relayed: the windows are as they were, the first
    envelope is delivered, and the envelopes of the hub are each either
    delivered or still in flight. *)
Definition star_relaying (hub : string) (leaves : list string) (leaf : string)
           (data authentication : value) (net : Network.t) : Prop :=
  Network.nodes net = Network.nodes (Network.star hub leaves)
  /\ exists done,
      Network.history net = star_first hub leaf data authentication :: done
      /\ Permutation (done ++ Network.inflight net)
                     (star_others hub leaves leaf data authentication).

(** *** A broadcast round a cycle *)


(** ** Lookups in flight *)

(** A "message" event as a collector sees it: the table of sessions at that
    moment and the envelope. *)
Definition arrival : Type := (list (string * ref) * WindowMessage.t)%type.

(** The collector with index [n] over a sequence of events.  The host calls
    the listener once an event; an error thrown by the listener ends that
    call and nothing more. *)
Fixpoint collect (n : nat) (events : list arrival) (self : WindowManager.t)
  : WindowManager.t * list effect :=
  match events with
  | [] => (self, [])
  | (table, data) :: rest =>
      let r := WindowManager.collector_handler n data (WindowManager.set_sessions self table) in
      let (self', tr) := collect n rest (WindowManager.state_of r) in
      (self', WindowManager.trace_of r ++ tr)
  end.

Definition nullish (v : value) : bool :=
  match v with
  | VUndefined | VNull => true
  | _ => false
  end.

(** [data.data.p] of a response whose [data] is there. *)
Definition advertised (data : WindowMessage.t) (p : string) : value :=
  match get_property (read (WindowMessage.data data)) p with
  | inl v => v
  | inr _ => VUndefined
  end.

(** A LOOKUP_FOUND envelope carries the [data] of the match, as the
    LOOKUP branch of the listener builds it. *)
Definition carries_match (data : WindowMessage.t) : bool :=
  negb (WindowMessage.has_action data WindowMessage.LOOKUP_FOUND)
  || negb (nullish (read (WindowMessage.data data))).

(** The envelopes that answer a lookup. *)
Definition is_response (data : WindowMessage.t) : bool :=
  WindowMessage.has_action data WindowMessage.LOOKUP_FOUND
  || WindowMessage.has_action data WindowMessage.LOOKUP_NOT_FOUND.

Definition responses (events : list arrival) : nat :=
  List.length (filter (fun e => is_response (snd e)) events).

(** Among the first [pending] responses of a sequence of events, the first
    LOOKUP_FOUND for whose originUUID the table gives something at that
    moment: what it gives, and the uuid and type the envelope advertises. *)
Fixpoint first_accepted (pending : nat) (events : list arrival)
  : option (peer * value * value) :=
  match events with
  | [] => None
  | (table, data) :: rest =>
      match pending with
      | O => None
      | S pending' =>
          if WindowMessage.has_action data WindowMessage.LOOKUP_FOUND then
            match WindowManager.table_get table (WindowMessage.originUUID data) with
            | Some session =>
                Some (session, advertised data "uuid", advertised data "type")
            | None => first_accepted pending' rest
            end
          else if WindowMessage.has_action data WindowMessage.LOOKUP_NOT_FOUND then
            first_accepted pending' rest
          else first_accepted pending rest
      end
  end.

(** The arguments [onFinish] is called with. *)
Definition onFinish_arguments (result : option (peer * value * value)) : list argument :=
  match result with
  | None => [Val VNull]
  | Some (gateway, uuid, type) => [argument_of gateway; Val uuid; Val type]
  end.

(** The envelope [lookup] sends. *)
Definition lookup_envelope (self : WindowManager.t) (type_ : value) : WindowMessage.t :=
  WindowMessage.new (VNum 0) (VNum WindowMessage.LOOKUP)
    (WindowManager.type self) (VStr (WindowManager.uuid self)) type_
    VUndefined VUndefined VUndefined.

(** ** Sample managers and envelopes *)

(** A manager R whose only neighbour is G. *)
Definition router_R : WindowManager.t := Network.node (VStr "Main") "R" ["G"].


(** R with a function in its global [onMessage] slot and another in the
    [onMessage] slot of its session for G. *)
Definition router_R_both : WindowManager.t :=
  WindowManager.mk (VStr "Main") "R" [("G", 0)] [] None (Some (UserFunction 7))
    WindowManager.new_EventManager
    [WindowSession.mk (Some (WindowOf "G")) (VStr "") (VStr "G") (VStr "3D")
       WindowSession.READY [] None (Some (UserFunction 3)) None None] [].


(** A MESSAGE envelope from X addressed to G. *)
Definition message_for_G : WindowMessage.t :=
  WindowMessage.new (VNum 1) (VNum WindowMessage.MESSAGE) (VStr "3D") (VStr "X")
    (VStr "3D") (VStr "G") (VStr "hello") VUndefined.


(** A MESSAGE envelope addressed to R: from its neighbour G, and from a
    window X it has no session for. *)
Definition message_from_G : WindowMessage.t :=
  WindowMessage.new (VNum 1) (VNum WindowMessage.MESSAGE) (VStr "3D") (VStr "G")
    (VStr "Main") (VStr "R") (VStr "hello") (VStr "token").

(** A CLOSED envelope addressed to R: from G, and from X. *)
Definition closed_from_G : WindowMessage.t :=
  WindowMessage.new (VNum 2) (VNum WindowMessage.CLOSED) (VStr "3D") (VStr "G")
    (VStr "Main") (VStr "R") VUndefined VUndefined.

(** A CLOSED envelope addressed to R from a window whose uuid is the
    string "constructor". *)
Definition closed_from_constructor : WindowMessage.t :=
  WindowMessage.new (VNum 2) (VNum WindowMessage.CLOSED) (VStr "3D") (VStr "constructor")
    (VStr "Main") (VStr "R") VUndefined VUndefined.

(** A manager R with the neighbours G and H, and two answers to a lookup of
    the type "3D": G has found a window T1 of that type, H has not. *)
Definition router_R_two : WindowManager.t := Network.node (VStr "Main") "R" ["G"; "H"].
Definition found_by_G : WindowMessage.t :=
  WindowMessage.new (VNum 0) (VNum WindowMessage.LOOKUP_FOUND) (VStr "Editor") (VStr "G")
    VUndefined VUndefined (VObj [("uuid", VStr "T1"); ("type", VStr "3D")]) VUndefined.
Definition not_found_by_H : WindowMessage.t :=
  WindowMessage.new (VNum 0) (VNum WindowMessage.LOOKUP_NOT_FOUND) (VStr "Editor") (VStr "H")
    VUndefined VUndefined VUndefined VUndefined.
Definition answers_of_G_and_H : list arrival :=
  [(WindowManager.sessions router_R_two, found_by_G);
   (WindowManager.sessions router_R_two, not_found_by_H)].

(** A LOOKUP_FOUND envelope of G that carries no [data], and the two
    answers to the lookup when that is the one G gives. *)
Definition found_without_data : WindowMessage.t :=
  WindowMessage.new (VNum 0) (VNum WindowMessage.LOOKUP_FOUND) (VStr "Editor") (VStr "G")
    VUndefined VUndefined VUndefined VUndefined.

(** A LOOKUP_FOUND envelope from a window whose uuid is the string
    "constructor". *)
Definition found_by_constructor : WindowMessage.t :=
  WindowMessage.new (VNum 0) (VNum WindowMessage.LOOKUP_FOUND) (VStr "Editor")
    (VStr "constructor") VUndefined VUndefined
    (VObj [("uuid", VStr "T1"); ("type", VStr "3D")]) VUndefined.

(** A BROADCAST envelope of G as R gets it from G. *)
Definition broadcast_from_G : WindowMessage.t :=
  WindowMessage.push_hop
    (WindowMessage.new (VNum 0) (VNum WindowMessage.BROADCAST) (VStr "3D") (VStr "G")
       VUndefined VUndefined (VStr "hello") VUndefined)
    (VStr "G").

(** The envelope the [broadcast] of the second listing sends. *)
Definition second_listing_envelope (data authentication : value) : WindowMessage.t :=
  WindowMessage.new (VNum 0) (VNum WindowMessage.BROADCAST) VUndefined VUndefined
    VUndefined VUndefined data authentication.

(** The cycle of A, B and C while a broadcast of the second listing goes
    round: the windows are as they were, and the envelopes in flight, of
    which there is one at least, are copies of the one that was sent. *)
Definition second_listing_circulating (data authentication : value) (net : Network.t)
  : Prop :=
  Network.nodes net = Network.nodes (Network.cycle "A" "B" "C")
  /\ Network.inflight net <> []
  /\ Forall (fun p => Network.body p = second_listing_envelope data authentication
                      /\ (Network.dst p = "A" \/ Network.dst p = "B" \/ Network.dst p = "C"))
            (Network.inflight net).

(** ** More of the listing *)

(** The answer the LOOKUP branch builds, lines 164-186, for the type asked
    for. *)
Definition lookup_reply (self : WindowManager.t) (type_ : value) : WindowMessage.t :=
  match first_of_type self type_ (WindowManager.sessions self) with
  | Some session =>
      WindowMessage.new (VNum 0) (VNum WindowMessage.LOOKUP_FOUND)
        (WindowManager.type self) (VStr (WindowManager.uuid self)) VUndefined VUndefined
        (VObj [("uuid", WindowSession.uuid (WindowManager.deref self session));
               ("type", WindowSession.type (WindowManager.deref self session))])
        VUndefined
  | None =>
      WindowMessage.new (VNum 0) (VNum WindowMessage.LOOKUP_NOT_FOUND)
        (WindowManager.type self) (VStr (WindowManager.uuid self))
        VUndefined VUndefined VUndefined VUndefined
  end.

(** The session object the CONNECT branch leaves in the store, lines
    207-211, for an envelope and the gateway it resolved. *)
Definition connected_session (message : WindowMessage.t) (gateway : peer) : WindowSession.t :=
  WindowSession.set_status
    (WindowSession.set_gateway
       (WindowSession.set_type
          (WindowSession.set_uuid WindowSession.new (WindowMessage.originUUID message))
          (WindowMessage.originType message))
       (Some gateway))
    WindowSession.WAITING_READY.

(** Lines 315-325, [WindowManager.prototype.logSessions]. *)
Definition logSessions : WindowManager.M unit :=
  WindowManager.bind WindowManager.get (fun self =>
  WindowManager.bind
    (WindowManager.emit (Console log "TabTalk: List of known sessions:")) (fun _ =>
  WindowManager.bind
    (WindowManager.for_in (A := unit) (WindowManager.sessions self) (fun i session =>
       WindowManager.bind (WindowManager.load session) (fun s =>
       WindowManager.bind
         (WindowManager.emit
            (Console log
               ("     " ++ to_string (WindowSession.uuid s) ++ " | "
                ++ to_string (WindowSession.type s) ++ " -> "
                ++ match WindowSession.gateway s with
                   | None => "*"
                   | Some (Peer g) =>
                       to_string (WindowSession.uuid (WindowManager.deref self g))
                   | Some (Member _) => "undefined"
                   end)))
         (fun _ => WindowManager.ret None))))
    (fun _ => WindowManager.ret tt))).






(** A LOOKUP envelope of G, addressed to nobody, for the type "3D". *)
Definition lookup_from_G : WindowMessage.t :=
  WindowMessage.new (VNum 0) (VNum WindowMessage.LOOKUP) (VStr "Editor") (VStr "G")
    (VStr "3D") VUndefined VUndefined VUndefined.

(** A manager G whose only neighbour is R, and a manager H with the
    neighbour G of type "3D"; the answers of G and of H to a lookup of
    "3D" by the manager R of two neighbours. *)
Definition router_G : WindowManager.t := Network.node (VStr "Editor") "G" ["R"].
Definition router_H : WindowManager.t :=
  WindowManager.mk (VStr "Viewer") "H" [("G", 0)] [] None None
    WindowManager.new_EventManager
    [WindowSession.mk (Some (WindowOf "G")) (VStr "") (VStr "G") (VStr "3D")
       WindowSession.READY [] None None None None] [].
Definition replies_to_R_two : list arrival :=
  [(WindowManager.sessions router_R_two, lookup_reply router_G (VStr "3D"));
   (WindowManager.sessions router_R_two, lookup_reply router_H (VStr "3D"))].

(** A CONNECT envelope of X for R that G has forwarded, and one that nobody
    has. *)
Definition connect_unrouted : WindowMessage.t :=
  WindowMessage.new (VNum 0) (VNum WindowMessage.CONNECT) (VStr "3D") (VStr "X")
    (VStr "Main") (VStr "R") VUndefined VUndefined.
Definition connect_through_G : WindowMessage.t :=
  WindowMessage.push_hop connect_unrouted (VStr "G").


(** ** A broadcast in any network *)

(** The network of the windows [names], each with a ready session for each
    of the windows [neighbours] gives for it. *)
Definition mesh (names : list string) (neighbours : string -> list string) : Network.t :=
  Network.mk (map (fun x => Network.node (VStr "window") x (neighbours x)) names) [] [].

(** An envelope after the windows of [path] have relayed it, one after the
    other. *)
Definition along (m : WindowMessage.t) (path : list string) : WindowMessage.t :=
  fold_left (fun m x => WindowMessage.push_hop m (VStr x)) path m.

(** The envelope of a broadcast of [a] that has been relayed by the windows
    of [path] and is posted to [y] by the last of them ([a] itself when
    nobody has relayed it yet). *)
Definition carried (a : string) (data authentication : value) (path : list string)
           (y : string) : Network.packet :=
  Network.mkPacket (last path a) y
    (along (broadcast_envelope_of a data authentication) path).

(** A walk of the network: each window after the first is a neighbour of
    the one before. *)
Fixpoint walk (neighbours : string -> list string) (path : list string) : Prop :=
  match path with
  | [] => True
  | x :: rest =>
      match rest with
      | [] => True
      | y :: _ => In y (neighbours x) /\ walk neighbours rest
      end
  end.

(** The routes of a broadcast of [a], built one relay at a time: to a
    neighbour of [a], and from the end of a route to a neighbour that is
    not on it. *)
Inductive route (neighbours : string -> list string) (a : string)
  : list string -> string -> Prop :=
| route_first (y : string) :
    In y (neighbours a) -> y <> a -> route neighbours a [] y
| route_next (path : list string) (x y : string) :
    route neighbours a path x ->
    In y (neighbours x) ->
    ~ In y (a :: path ++ [x]) ->
    route neighbours a (path ++ [x]) y.

(** The most deliveries an envelope and its relays can take when [n]
    windows have not seen it yet and it is posted to one of them. *)
Fixpoint budget (n : nat) : nat :=
  match n with
  | O => 1
  | S k => 1 + k * budget k
  end.

(** The windows that are not among the hops of an envelope. *)
Definition unvisited (names : list string) (hops : list value) : list string :=
  filter (fun z => not_in_array (VStr z) hops) names.

Definition weight (names : list string) (p : Network.packet) : nat :=
  budget (List.length (unvisited names (WindowMessage.hops (Network.body p)))).

Definition load_of (names : list string) (l : list Network.packet) : nat :=
  list_sum (map (weight names) l).

(** A network of five windows: a square a, b, d, c with the diagonal b, c,
    and e behind d. *)
Definition five_windows : list string := ["a"; "b"; "c"; "d"; "e"].
Definition five_neighbours (x : string) : list string :=
  if String.eqb x "a" then ["b"; "c"]
  else if String.eqb x "b" then ["a"; "c"; "d"]
  else if String.eqb x "c" then ["a"; "b"; "d"]
  else if String.eqb x "d" then ["b"; "c"; "e"]
  else if String.eqb x "e" then ["d"]
  else [].

(** What holds of a network while a broadcast of [a] is on its way: the
    managers are as they were; every envelope posted has come along a
    route; none was posted twice; an envelope relayed from a window was
    first delivered to it; and whatever a delivery posts has been posted. *)
Definition mesh_relaying (names : list string) (neighbours : string -> list string)
           (a : string) (data authentication : value) (net : Network.t) : Prop :=
  Network.nodes net = Network.nodes (mesh names neighbours)
  /\ (forall p, In p (Network.history net ++ Network.inflight net) ->
        exists path y, p = carried a data authentication path y
                       /\ route neighbours a path y)
  /\ NoDup (Network.history net ++ Network.inflight net)
  /\ (forall path x y,
        In (carried a data authentication (path ++ [x]) y)
           (Network.history net ++ Network.inflight net) ->
        In (carried a data authentication path x) (Network.history net))
  /\ (forall path x y,
        In (carried a data authentication path x) (Network.history net) ->
        In y (neighbours x) -> ~ In y (a :: path ++ [x]) ->
        In (carried a data authentication (path ++ [x]) y)
           (Network.history net ++ Network.inflight net))
  /\ (forall y, In y (neighbours a) ->
        In (carried a data authentication [] y)
           (Network.history net ++ Network.inflight net)).


(** ** Envelopes one after the other *)

(** The "message" listener of a manager over a sequence of events: the host
    runs it once an event, whatever the call before came to. *)
Fixpoint deliver (messages : list WindowMessage.t) (self : WindowManager.t)
  : WindowManager.t * list effect :=
  match messages with
  | [] => (self, [])
  | message :: rest =>
      let r := WindowManager.dispatch message self in
      let (self', tr) := deliver rest (WindowManager.state_of r) in
      (self', WindowManager.trace_of r ++ tr)
  end.

(** A page whose global object has a property [message]: an element with
    that id, which has no [action]; and an envelope left in a global
    variable. *)
Definition page_with_element : list (string * value) := [("message", VObj [])].
Definition page_with_closed_envelope : list (string * value) :=
  [("message", VObj [("action", VNum WindowMessage.CLOSED)])].


(** ** The second listing in any network *)

(** What holds of a network while a broadcast of the second listing goes
    round: the managers are as they were, every envelope posted is the one
    that was sent, each envelope in flight is for a window of the network,
    and there are no fewer in flight than the broadcaster posted. *)
Definition mesh_circulating (names : list string) (neighbours : string -> list string)
           (a : string) (data authentication : value) (net : Network.t) : Prop :=
  Network.nodes net = Network.nodes (mesh names neighbours)
  /\ (forall p, In p (Network.history net ++ Network.inflight net) ->
        Network.body p = second_listing_envelope data authentication)
  /\ (forall p, In p (Network.inflight net) -> In (Network.dst p) names)
  /\ List.length (neighbours a) <= List.length (Network.inflight net).

(** Two windows that hold a session for each other. *)
Definition two_windows : list string := ["a"; "b"].
Definition two_neighbours (x : string) : list string :=
  if String.eqb x "a" then ["b"] else if String.eqb x "b" then ["a"] else [].


(** ** What a callback does to sessions *)


(** A manager with no session at all. *)
Definition lone_manager : WindowManager.t := Network.node (VStr "Main") "R" [].



(** Whether [openSession] itself opens the window: a type is given, there is
    no session to ask, and the url is not [null]. *)
Definition opens_at_once (self : WindowManager.t) (url type_ : value) : bool :=
  strict_neq type_ VUndefined
  && Nat.eqb (List.length (WindowManager.sessions self)) 0
  && strict_neq url VNull.

(** The session object [openSession] leaves when it has opened the
    window. *)
Definition opened_session (url type_ : value) : WindowSession.t :=
  WindowSession.set_status
    (WindowSession.set_window
       (WindowSession.set_url (WindowSession.set_type WindowSession.new type_) url)
       (Some (WindowOpen url)))
    WindowSession.WAITING_READY.


(** ** WindowManager.generateUUID *)

From Stdlib Require Import Ascii.

(** The digit of a value below sixteen, as [toString(16)] writes it. *)
Definition hex_digit (n : Z) : Ascii.ascii :=
  nth (Z.to_nat n)
      ["0"; "1"; "2"; "3"; "4"; "5"; "6"; "7"; "8"; "9"; "a"; "b"; "c"; "d"; "e"; "f"]%char
      "0"%char.

(** [(n).toString(16)] for an integer [n] that is not negative: the digits
    from the last to the first; an integer has no more digits than bits. *)
Fixpoint toString16_digits (fuel : nat) (n : Z) (digits : string) : string :=
  match fuel with
  | O => digits
  | S fuel' =>
      let digits' := String (hex_digit (n mod 16)) digits in
      if (n / 16 =? 0)%Z then digits' else toString16_digits fuel' (n / 16) digits'
  end.

Definition toString16 (n : Z) : string :=
  toString16_digits (S (Z.to_nat (Z.log2 n))) n "".

(** Lines 583-587: [lut[i] = (i < 16 ? "0" : "") + (i).toString(16)] for
    [i] from 0 to 255. *)
Definition lut : list string :=
  map (fun i => ((if (i <? 16)%Z then "0" else "") ++ toString16 i)%string)
      (map Z.of_nat (seq 0 256)).

(** [lut[i]]; [None] for [undefined], off the table. *)
Definition lut_at (i : Z) : option string :=
  if ((0 <=? i) && (i <? 256))%Z then nth_error lut (Z.to_nat i) else None.

(** [String.prototype.toUpperCase], on the letters a to z. *)
Definition upper (c : Ascii.ascii) : Ascii.ascii :=
  let n := Ascii.nat_of_ascii c in
  if Nat.leb 97 n && Nat.leb n 122 then Ascii.ascii_of_nat (n - 32) else c.

Fixpoint toUpperCase (s : string) : string :=
  match s with
  | EmptyString => EmptyString
  | String c rest => String (upper c) (toUpperCase rest)
  end.

(** The operator [+] along a row of strings; [None] when one of them is
    [undefined]. *)
Fixpoint join (parts : list (option string)) : option string :=
  match parts with
  | [] => Some ""
  | Some s :: rest => option_map (append s) (join rest)
  | None :: _ => None
  end.

(** Lines 589-601, the function [generateUUID] returns, for the four
    values of [Math.random() * 0xffffffff | 0], each a signed integer of
    32 bits; [>>] binds tighter than [&], and [&] tighter than [|]. *)
Definition generateUUID (d0 d1 d2 d3 : Z) : option string :=
  option_map toUpperCase
    (join
       [lut_at (Z.land d0 255); lut_at (Z.land (Z.shiftr d0 8) 255);
        lut_at (Z.land (Z.shiftr d0 16) 255); lut_at (Z.land (Z.shiftr d0 24) 255);
        Some "-";
        lut_at (Z.land d1 255); lut_at (Z.land (Z.shiftr d1 8) 255);
        Some "-";
        lut_at (Z.lor (Z.land (Z.shiftr d1 16) 15) 64);
        lut_at (Z.land (Z.shiftr d1 24) 255);
        Some "-";
        lut_at (Z.lor (Z.land d2 63) 128); lut_at (Z.land (Z.shiftr d2 8) 255);
        Some "-";
        lut_at (Z.land (Z.shiftr d2 16) 255); lut_at (Z.land (Z.shiftr d2 24) 255);
        lut_at (Z.land d3 255); lut_at (Z.land (Z.shiftr d3 8) 255);
        lut_at (Z.land (Z.shiftr d3 16) 255); lut_at (Z.land (Z.shiftr d3 24) 255)]).

(** The digits of an identifier: 0 to 9 and A to F. *)
Definition is_upper_hex (c : Ascii.ascii) : bool :=
  existsb (Ascii.eqb c)
    ["0"; "1"; "2"; "3"; "4"; "5"; "6"; "7"; "8"; "9"; "A"; "B"; "C"; "D"; "E"; "F"]%char.

Fixpoint all_upper_hex (s : string) : bool :=
  match s with
  | EmptyString => true
  | String c rest => is_upper_hex c && all_upper_hex rest
  end.

(** An entry of the table as an identifier shows it: two digits, and what
    is asked of the first. *)
Definition entry_shows (first : Ascii.ascii -> bool) (entry : option string) : bool :=
  match entry with
  | Some (String a (String b EmptyString)) =>
      is_upper_hex (upper a) && is_upper_hex (upper b) && first (upper a)
  | _ => false
  end.

Definition is_four (c : Ascii.ascii) : bool := Ascii.eqb c "4".
Definition is_variant (c : Ascii.ascii) : bool :=
  existsb (Ascii.eqb c) ["8"; "9"; "A"; "B"]%char.


(** ** Lookups side by side *)

(** A run that leaves the table of sessions and every collector but the
    [n]-th as they were. *)
Definition keeps_others {A : Type} (n : nat) (self : WindowManager.t)
           (r : WindowManager.t * list effect * completion A) : Prop :=
  WindowManager.sessions (WindowManager.state_of r) = WindowManager.sessions self
  /\ forall m, m <> n ->
       nth_error (WindowManager.collectors (WindowManager.state_of r)) m
       = nth_error (WindowManager.collectors self) m.


(** ** Who hears a broadcast *)



(** * Properties *)

Import WindowManager.
Local Open Scope js_scope.

(** ** Values *)

Lemma strict_eq_undefined (x : value) : strict_eq x VUndefined = true <-> x = VUndefined.
Proof. destruct x; simpl; split; intros H; congruence. Qed.

Lemma strict_neq_undefined (x : value) : strict_neq x VUndefined = true <-> x <> VUndefined.
Proof.
  unfold strict_neq. rewrite negb_true_iff, <- not_true_iff_false, strict_eq_undefined.
  tauto.
Qed.

Lemma strict_eq_VStr (x : value) (s : string) : strict_eq x (VStr s) = true <-> x = VStr s.
Proof.
  destruct x; simpl; split; intros H; try congruence.
  - apply String.eqb_eq in H. congruence.
  - injection H as ->. apply String.eqb_refl.
Qed.

Lemma optional_Some (x v : value) :
  WindowMessage.optional x = Some v <-> x = v /\ v <> VUndefined.
Proof.
  unfold WindowMessage.optional.
  destruct (strict_neq x VUndefined) eqn:E.
  - apply strict_neq_undefined in E. split.
    + intros [= <-]. auto.
    + intros [<- _]. reflexivity.
  - apply not_true_iff_false in E. rewrite strict_neq_undefined in E.
    split; [discriminate|]. intros [<- Hv]. tauto.
Qed.

(** ** The envelope *)

(** C9.  In an envelope built by the constructor, each of [destinationType],
    [destinationUUID], [data] and [authentication] is a property of the
    result exactly when the argument was supplied (was not [undefined]), and
    then holds the argument; a field whose argument was left out is absent,
    not [null]; [hops] starts empty. *)
Theorem WindowMessage_new_optional_fields :
  forall number action originType originUUID
         destinationType destinationUUID data authentication : value,
    let m := WindowMessage.new number action originType originUUID
               destinationType destinationUUID data authentication in
    (forall v, WindowMessage.destinationType m = Some v
               <-> destinationType = v /\ v <> VUndefined)
    /\ (forall v, WindowMessage.destinationUUID m = Some v
                  <-> destinationUUID = v /\ v <> VUndefined)
    /\ (forall v, WindowMessage.data m = Some v <-> data = v /\ v <> VUndefined)
    /\ (forall v, WindowMessage.authentication m = Some v
                  <-> authentication = v /\ v <> VUndefined)
    /\ (destinationType = VUndefined -> WindowMessage.destinationType m = None)
    /\ (destinationUUID = VUndefined -> WindowMessage.destinationUUID m = None)
    /\ (data = VUndefined -> WindowMessage.data m = None)
    /\ (authentication = VUndefined -> WindowMessage.authentication m = None)
    /\ WindowMessage.hops m = [].
Proof.
  intros. subst m. simpl.
  repeat match goal with
         | |- _ /\ _ => split
         | |- forall v, _ <-> _ => intros v; apply optional_Some
         | |- _ = VUndefined -> _ => intros ->; reflexivity
         end.
  reflexivity.
Qed.

Lemma strict_neq_VStr (x : value) (s : string) : strict_neq x (VStr s) = true <-> x <> VStr s.
Proof.
  unfold strict_neq. rewrite negb_true_iff, <- not_true_iff_false, strict_eq_VStr.
  tauto.
Qed.

(** ** Laws of the monad *)

Section Laws.
Context {A B : Type}.
Variable k : A -> M B.
Variable self : WindowManager.t.

Lemma bind_ret (a : A) : bind (ret a) k self = k a self.
Proof. unfold bind, ret. destruct (k a self) as [[s tr] r]. reflexivity. Qed.

Lemma bind_throw (e : exn) : bind (throw e) k self = (self, [], Abrupt e).
Proof. reflexivity. Qed.

Lemma bind_lift_inl (a : A) : bind (lift (inl a)) k self = k a self.
Proof. apply bind_ret. Qed.

Lemma bind_Normal (c : M A) (s1 : WindowManager.t) (tr1 : list effect) (a : A) :
  c self = (s1, tr1, Normal a) ->
  bind c k self = let '(s, tr, r) := k a s1 in (s, tr1 ++ tr, r).
Proof. intros H. unfold bind. rewrite H. reflexivity. Qed.

Lemma bind_Abrupt (c : M A) (s1 : WindowManager.t) (tr1 : list effect) (e : exn) :
  c self = (s1, tr1, Abrupt e) -> bind c k self = (s1, tr1, Abrupt e).
Proof. intros H. unfold bind. rewrite H. reflexivity. Qed.

Lemma bind_bind {C : Type} (c : M C) (h : C -> M A) :
  bind (bind c h) k self = bind c (fun x => bind (h x) k) self.
Proof.
  unfold bind. destruct (c self) as [[s1 tr1] [x|e]]; [|reflexivity].
  destruct (h x s1) as [[s2 tr2] [a|e]].
  - destruct (k a s2) as [[s3 tr3] r]. rewrite app_assoc. reflexivity.
  - reflexivity.
Qed.
End Laws.

Section UnitLaws.
Context {B : Type}.
Variable self : WindowManager.t.

Lemma bind_get (k : WindowManager.t -> M B) : bind get k self = k self self.
Proof. unfold bind, get. destruct (k self self) as [[s tr] r]. reflexivity. Qed.

Lemma bind_load (session : ref) (k : WindowSession.t -> M B) :
  bind (load session) k self = k (deref self session) self.
Proof. unfold load. rewrite bind_bind, bind_get, bind_ret. reflexivity. Qed.

Lemma bind_modify (f : WindowManager.t -> WindowManager.t) (k : unit -> M B) :
  bind (modify f) k self = k tt (f self).
Proof. unfold bind, modify. destruct (k tt (f self)) as [[s tr] r]. reflexivity. Qed.

Lemma bind_emit (e : effect) (k : unit -> M B) :
  bind (emit e) k self = let '(s, tr, r) := k tt self in (s, e :: tr, r).
Proof. reflexivity. Qed.

Lemma bind_send (session : ref) (m : WindowMessage.t) (k : unit -> M B) :
  bind (send session m) k self
  = let '(s, tr, r) := k tt self in (s, Send session m :: tr, r).
Proof. reflexivity. Qed.
End UnitLaws.

Lemma run_eta {A : Type} (r : WindowManager.t * list effect * completion A) :
  (state_of r, trace_of r, completion_of r) = r.
Proof. destruct r as [[s tr] c]. reflexivity. Qed.

(** ** The table of sessions *)

Lemma assoc_remove_key_same {A : Type} (k : string) (l : list (string * A)) :
  assoc k (remove_key k l) = None.
Proof.
  induction l as [|[k' a] l IH]; simpl; [reflexivity|].
  destruct (String.eqb k k') eqn:E; simpl; [assumption|].
  rewrite E. assumption.
Qed.





(** ** The table of sessions as a plain object *)

Lemma table_get_listed (table : list (string * ref)) (key : value) (session : ref) :
  assoc (to_key key) table = Some session -> table_get table key = Some (Peer session).
Proof. intros H. unfold table_get. rewrite H. reflexivity. Qed.

Lemma table_get_unlisted (table : list (string * ref)) (key : value) :
  assoc (to_key key) table = None ->
  table_get table key
  = if inherited (to_key key) then Some (Member (to_key key)) else None.
Proof. intros H. unfold table_get. rewrite H. reflexivity. Qed.

Lemma sessions_get_listed (self : WindowManager.t) (key : value) (session : ref) :
  session_at self key = Some session -> sessions_get self key = Some (Peer session).
Proof. apply table_get_listed. Qed.

Lemma sessions_get_absent (self : WindowManager.t) (key : value) :
  session_at self key = None -> inherited (to_key key) = false ->
  sessions_get self key = None.
Proof.
  intros H Hown. unfold sessions_get. rewrite (table_get_unlisted _ _ H), Hown. reflexivity.
Qed.

Lemma sessions_get_member (self : WindowManager.t) (key : value) :
  session_at self key = None -> inherited (to_key key) = true ->
  sessions_get self key = Some (Member (to_key key)).
Proof.
  intros H Hown. unfold sessions_get. rewrite (table_get_unlisted _ _ H), Hown. reflexivity.
Qed.


(** What [self.sessions[key]] gives, by cases. *)
Lemma sessions_get_cases (self : WindowManager.t) (key : value) :
  (exists session, session_at self key = Some session
                   /\ sessions_get self key = Some (Peer session))
  \/ (session_at self key = None /\ inherited (to_key key) = true
      /\ sessions_get self key = Some (Member (to_key key)))
  \/ (session_at self key = None /\ inherited (to_key key) = false
      /\ sessions_get self key = None).
Proof.
  destruct (session_at self key) as [session|] eqn:Hs.
  - left. exists session. split; [reflexivity|]. exact (sessions_get_listed _ _ _ Hs).
  - right. destruct (inherited (to_key key)) eqn:Hown.
    + left. repeat split. exact (sessions_get_member _ _ Hs Hown).
    + right. repeat split. exact (sessions_get_absent _ _ Hs Hown).
Qed.

(** ** The "message" listener *)

(** What the listener does with an envelope for somebody else, READY apart. *)
Lemma dispatch_for_somebody_else (self : WindowManager.t) (message : WindowMessage.t) :
  WindowMessage.has_action message WindowMessage.READY = false ->
  for_somebody_else self message = true ->
  dispatch message self = redirect message self.
Proof.
  intros Hready Helse. unfold dispatch, bind, get. rewrite Hready, Helse.
  destruct (redirect message self) as [[self' tr] r]. reflexivity.
Qed.

(** What it does with one for this manager, READY apart: the branch of the
    action. *)
Lemma dispatch_for_self (self : WindowManager.t) (message : WindowMessage.t) :
  WindowMessage.has_action message WindowMessage.READY = false ->
  for_somebody_else self message = false ->
  dispatch message self =
    (if WindowMessage.has_action message WindowMessage.CLOSED then on_closed message
     else if WindowMessage.has_action message WindowMessage.LOOKUP then on_lookup message
     else if WindowMessage.has_action message WindowMessage.CONNECT then on_connect message
     else if WindowMessage.has_action message WindowMessage.BROADCAST then on_broadcast message
     else if WindowMessage.has_action message WindowMessage.MESSAGE then on_message message
     else emit (Console warn "TabTalk: Unknown message type.")) self.
Proof.
  intros Hready Helse. unfold dispatch, bind, get. rewrite Hready, Helse.
  match goal with |- match ?c with _ => _ end = _ => destruct c as [[self' tr] r] end.
  reflexivity.
Qed.

Lemma has_action_exclusive (message : WindowMessage.t) (a b : Z) :
  WindowMessage.has_action message a = true -> a <> b ->
  WindowMessage.has_action message b = false.
Proof.
  unfold WindowMessage.has_action. destruct (WindowMessage.action message); simpl; try discriminate.
  intros Ha Hne. apply Z.eqb_eq in Ha. subst. apply Z.eqb_neq. assumption.
Qed.

Lemma for_somebody_else_spec (self : WindowManager.t) (message : WindowMessage.t) :
  for_somebody_else self message = true <->
  exists dest, WindowMessage.destinationUUID message = Some dest
               /\ dest <> VUndefined /\ dest <> VStr (uuid self).
Proof.
  unfold for_somebody_else. rewrite andb_true_iff, strict_neq_undefined, strict_neq_VStr.
  destruct (WindowMessage.destinationUUID message) as [d|]; simpl; split.
  - intros [H1 H2]. exists d. auto.
  - intros (d' & [= <-] & H1 & H2). auto.
  - intros [H _]. congruence.
  - intros (d' & H & _). discriminate.
Qed.


(** What [redirect] comes to, by what the table gives under the
    destination. *)
Lemma redirect_run (self : WindowManager.t) (message : WindowMessage.t) :
  redirect message self
  = match sessions_get self (read (WindowMessage.destinationUUID message)) with
    | Some (Peer session) =>
        (self,
         [Console warn ("TabTalk: Destination UUID diferent from self, destination is "
                        ++ to_string (read (WindowMessage.destinationUUID message)));
          Send session (WindowMessage.push_hop message (VStr (uuid self)));
          Console log "TabTalk: Redirected message to destination."],
         Normal tt)
    | Some (Member _) =>
        (self,
         [Console warn ("TabTalk: Destination UUID diferent from self, destination is "
                        ++ to_string (read (WindowMessage.destinationUUID message)))],
         Abrupt (TypeError "session.send is not a function"))
    | None =>
        (self,
         [Console warn ("TabTalk: Destination UUID diferent from self, destination is "
                        ++ to_string (read (WindowMessage.destinationUUID message)));
          Console warn "TabTalk: Unknown destination, cannot redirect message."],
         Normal tt)
    end.
Proof.
  unfold redirect. rewrite bind_get, bind_emit.
  destruct (sessions_get self (read (WindowMessage.destinationUUID message))) as [[session|name]|];
    try reflexivity.
Qed.



(** What [on_closed] comes to, by what the table gives under the origin. *)
Lemma on_closed_run (self : WindowManager.t) (message : WindowMessage.t) :
  on_closed message self
  = match sessions_get self (WindowMessage.originUUID message) with
    | Some (Peer session) =>
        (set_sessions
           (set_store self
              (update_nth session
                 (fun s => WindowSession.set_status s WindowSession.CLOSED) (store self)))
           (remove_key (to_key (WindowMessage.originUUID message)) (sessions self)),
         [Method session "setStatus"], Normal tt)
    | Some (Member _) =>
        (self, [], Abrupt (TypeError "session.setStatus is not a function"))
    | None => (self, [Console warn "TabTalk: Unknown closed origin session."], Normal tt)
    end.
Proof.
  unfold on_closed. rewrite bind_get.
  destruct (sessions_get self (WindowMessage.originUUID message)) as [[session|name]|];
    reflexivity.
Qed.

(** C7.  R lists a session under "G" and under no other key.  Given a
    CLOSED envelope addressed to it whose originUUID is "constructor", a
    key of no session of its table, the listener does not complete
    normally: the table gives [Object.prototype.constructor] under that
    key, which is not [undefined], and the call of [session.setStatus]
    throws a TypeError out of the listener.  The table is as it was. *)
Theorem CLOSED_from_an_unlisted_origin_throws :
  sessions router_R = [("G", 0)]
  /\ session_at router_R (WindowMessage.originUUID closed_from_constructor) = None
  /\ WindowMessage.has_action closed_from_constructor WindowMessage.CLOSED = true
  /\ for_somebody_else router_R closed_from_constructor = false
  /\ dispatch closed_from_constructor router_R
     = (router_R, [], Abrupt (TypeError "session.setStatus is not a function")).
Proof. repeat split. Qed.






(** ** The methods *)

(** C10.  Where the global object has no [message] property,
    [sessionAvailable(type)] returns false on an empty table, returns true
    when the first session enumerated has the type asked for, and otherwise
    ends in a ReferenceError for [message] without returning; in each case
    the manager is untouched. *)
Theorem sessionAvailable_first_session_decides :
  forall (window : list (string * value)) (self : WindowManager.t) (type_ : value),
    assoc "message" window = None ->
    (sessions self = [] ->
     sessionAvailable window type_ self = (self, [], Normal false))
    /\ (forall (i : string) (session : ref) (rest : list (string * ref)),
          sessions self = (i, session) :: rest ->
          sessionAvailable window type_ self
          = (self, [],
             if strict_eq (WindowSession.type (deref self session)) type_
             then Normal true
             else Abrupt (ReferenceError "message"))).
Proof.
  intros window self type_ Hunbound. split.
  - intros Hempty. unfold sessionAvailable, bind, get. rewrite Hempty. reflexivity.
  - intros i session rest Htable.
    unfold sessionAvailable, bind, get. rewrite Htable.
    cbn [for_in]. unfold bind, load, get, ret, resolve. cbn.
    destruct (strict_eq (WindowSession.type (deref self session)) type_); cbn.
    + reflexivity.
    + rewrite Hunbound. reflexivity.
Qed.

Lemma sessionAvailable_first_session_decides_witness :
  sessionAvailable [] (VStr "3D") router_R_both = (router_R_both, [], Normal true)
  /\ sessionAvailable [] (VStr "Editor") router_R_both
     = (router_R_both, [], Abrupt (ReferenceError "message")).
Proof.
  split.
  - apply (proj2 (sessionAvailable_first_session_decides [] router_R_both (VStr "3D")
                    eq_refl) "G" 0 [] eq_refl).
  - apply (proj2 (sessionAvailable_first_session_decides [] router_R_both (VStr "Editor")
                    eq_refl) "G" 0 [] eq_refl).
Defined.

(** A loop that hands the same envelope to every session. *)
Lemma for_in_send_all (table : list (string * ref)) (m : WindowMessage.t)
      (self : WindowManager.t) :
  for_in (A := unit) table (fun _ session => send session m ;; ret None) self
  = (self, map (fun p => Send (snd p) m) table, Normal None).
Proof.
  induction table as [|[i session] table IH]; [reflexivity|].
  cbn [for_in]. unfold bind, send, emit, ret in *. rewrite IH. reflexivity.
Qed.

Lemma sends_map_Send (table : list (string * ref)) (m : WindowMessage.t) :
  sends (map (fun p => Send (snd p) m) table) = map (fun p => (snd p, m)) table.
Proof. induction table as [|p table IH]; simpl; congruence. Qed.

(** The envelope [broadcast] builds: its origin fields are read off the
    EventManager in [this.manager]. *)
Lemma broadcast_envelope (self : WindowManager.t) (data authentication : value)
      (fields : list (string * value)) :
  manager self = VObj fields ->
  broadcast data authentication self
  = (self,
     map (fun p =>
            Send (snd p)
              (WindowMessage.push_hop
                 (WindowMessage.new (VNum 0) (VNum WindowMessage.BROADCAST)
                    (read (assoc "type" fields)) (read (assoc "uuid" fields))
                    VUndefined VUndefined data authentication)
                 (VStr (uuid self))))
         (sessions self),
     Normal tt).
Proof.
  intros Hmanager. unfold broadcast. rewrite bind_get, Hmanager.
  cbn [get_property]. rewrite !bind_lift_inl.
  erewrite bind_Normal by apply for_in_send_all.
  cbn. rewrite app_nil_r. reflexivity.
Qed.

(** C4, on the code.  The manager "A" of type "Main", as the constructor
    leaves it, with one neighbour "B", broadcasts "hello" with the token
    "token": the envelope handed to the session has action BROADCAST, the
    data, the token and hops ["A"], and its originType and originUUID are
    [undefined], not "Main" and "A". *)
Theorem broadcast_origin_is_undefined :
  let self := Network.node (VStr "Main") "A" ["B"] in
  exists m : WindowMessage.t,
    sends (trace_of (broadcast (VStr "hello") (VStr "token") self)) = [(0, m)]
    /\ WindowMessage.action m = VNum WindowMessage.BROADCAST
    /\ WindowMessage.data m = Some (VStr "hello")
    /\ WindowMessage.authentication m = Some (VStr "token")
    /\ WindowMessage.hops m = [VStr (uuid self)]
    /\ WindowMessage.originType m = VUndefined
    /\ WindowMessage.originUUID m = VUndefined
    /\ WindowMessage.originType m <> type self
    /\ WindowMessage.originUUID m <> VStr (uuid self).
Proof.
  cbv zeta.
  rewrite (broadcast_envelope (Network.node (VStr "Main") "A" ["B"])
             (VStr "hello") (VStr "token") [] eq_refl).
  eexists. split; [reflexivity|]. repeat split; discriminate.
Qed.

(** The search that opens [openSession]. *)
Lemma openSession_search (table : list (string * ref)) (self : WindowManager.t)
      (type_ : value) :
  for_in table (fun _ session =>
    s <- load session ;;
    if strict_eq (WindowSession.type s) type_ then
      emit (Console warn
              ("TabTalk: A session of the type " ++ to_string type_
               ++ " already exists.")) ;;
      ret (Some session)
    else ret None) self
  = (self,
     match first_of_type self type_ table with
     | Some _ => [Console warn
                    ("TabTalk: A session of the type " ++ to_string type_
                     ++ " already exists.")]
     | None => []
     end,
     Normal (first_of_type self type_ table)).
Proof.
  unfold first_of_type.
  induction table as [|[i session] table IH]; [reflexivity|].
  cbn [for_in find snd]. rewrite bind_bind. unfold load at 1.
  rewrite bind_bind, bind_get, bind_ret.
  destruct (strict_eq (WindowSession.type (deref self session)) type_).
  - rewrite bind_bind, bind_emit, bind_ret. reflexivity.
  - rewrite bind_ret. exact IH.
Qed.

Lemma first_of_type_Some (self : WindowManager.t) (type_ : value)
      (table : list (string * ref)) :
  (exists i session, In (i, session) table
     /\ strict_eq (WindowSession.type (deref self session)) type_ = true) ->
  exists i session, first_of_type self type_ table = Some session
     /\ In (i, session) table
     /\ strict_eq (WindowSession.type (deref self session)) type_ = true.
Proof.
  intros (i & session & Hin & Htype). unfold first_of_type.
  destruct (find (fun p => strict_eq (WindowSession.type (deref self (snd p))) type_) table)
    as [[j found]|] eqn:Hfind.
  - apply find_some in Hfind. destruct Hfind as [Hin' Htype'].
    exists j, found. auto.
  - apply (find_none _ _ Hfind) in Hin. simpl in Hin. congruence.
Qed.

(** C6.  When the table holds a session of the type asked for, [openSession]
    returns a session of the table that has this type (the first one
    enumerated), creates nothing and changes nothing in the manager, sends
    nothing and calls no session method; so a second call with the same
    type returns the same session object. *)
Theorem openSession_returns_existing_session :
  forall (self : WindowManager.t) (url url' type_ : value),
    (exists i session, In (i, session) (sessions self)
       /\ strict_eq (WindowSession.type (deref self session)) type_ = true) ->
    exists session : ref,
      (exists i, In (i, session) (sessions self))
      /\ strict_eq (WindowSession.type (deref self session)) type_ = true
      /\ first_of_type self type_ (sessions self) = Some session
      /\ completion_of (openSession url type_ self) = Normal session
      /\ state_of (openSession url type_ self) = self
      /\ sends (trace_of (openSession url type_ self)) = []
      /\ session_calls (trace_of (openSession url type_ self)) = []
      /\ completion_of (openSession url' type_ (state_of (openSession url type_ self)))
         = Normal session.
Proof.
  intros self url url' type_ Hexists.
  destruct (first_of_type_Some self type_ (sessions self) Hexists)
    as (i & session & Hfirst & Hin & Htype).
  assert (Hrun : forall u, openSession u type_ self
                           = (self,
                              [Console warn
                                 ("TabTalk: A session of the type " ++ to_string type_
                                  ++ " already exists.")],
                              Normal session)).
  { intros u. unfold openSession. rewrite bind_get.
    erewrite bind_Normal by apply openSession_search.
    rewrite Hfirst. reflexivity. }
  exists session. rewrite !Hrun.
  unfold state_of, trace_of, completion_of. cbn. eauto 10.
Qed.

Lemma openSession_returns_existing_session_witness :
  completion_of (openSession (VStr "editor.html") (VStr "3D") router_R_both) = Normal 0
  /\ completion_of
       (openSession (VStr "editor.html") (VStr "3D")
          (state_of (openSession (VStr "editor.html") (VStr "3D") router_R_both)))
     = Normal 0.
Proof.
  destruct (openSession_returns_existing_session router_R_both
              (VStr "editor.html") (VStr "editor.html") (VStr "3D"))
    as (session & _ & _ & Hfirst & H1 & _ & _ & _ & H2).
  - exists "G", 0. split; [left; reflexivity | reflexivity].
  - injection Hfirst as <-. split; assumption.
Defined.

(** ** Lookup *)

Lemma nth_error_update_nth {A : Type} (n : nat) (f : A -> A) (l : list A) :
  nth_error (update_nth n f l) n = option_map f (nth_error l n).
Proof.
  revert n. induction l as [|x l IH]; intros [|n]; simpl; try reflexivity. apply IH.
Qed.

Lemma set_store_same (self : WindowManager.t) : set_store self (store self) = self.
Proof. destruct self. reflexivity. Qed.

(** A call of [onFinish] touches the store of sessions at most, and shows in
    the trace as one invocation. *)
Lemma call_onFinish_run (f : callback) (result : option (peer * value * value))
      (self : WindowManager.t) :
  exists st tr,
    call_onFinish f result self = (set_store self st, tr, Normal tt)
    /\ invocations tr = [(f, onFinish_arguments result)]
    /\ sends tr = [].
Proof.
  destruct f as [id|session url].
  - exists (store self), [Invoke (UserFunction id) (onFinish_arguments result)].
    rewrite set_store_same. destruct result as [[[g u] t]|]; repeat split; reflexivity.
  - destruct result as [[[g u] t]|].
    + eexists _, _. repeat split.
    + unfold call_onFinish. destruct (strict_neq url VNull).
      * eexists _, _. repeat split.
      * exists (store self). eexists. rewrite set_store_same. repeat split.
Qed.

Lemma get_property_advertised (data : WindowMessage.t) (p : string) :
  nullish (read (WindowMessage.data data)) = false ->
  get_property (read (WindowMessage.data data)) p = inl (advertised data p).
Proof.
  unfold advertised. destruct (read (WindowMessage.data data)); simpl; intros H;
    try discriminate; reflexivity.
Qed.

Ltac mstep :=
  repeat first
    [ rewrite bind_load | rewrite bind_bind | rewrite bind_ret | rewrite bind_get | rewrite bind_modify
    | rewrite bind_emit | rewrite bind_send | rewrite bind_lift_inl ].

Lemma invocations_app (a b : list effect) :
  invocations (a ++ b) = invocations a ++ invocations b.
Proof. apply flat_map_app. Qed.

Lemma sends_app (a b : list effect) : sends (a ++ b) = sends a ++ sends b.
Proof. apply flat_map_app. Qed.

Opaque call_onFinish.

Ltac call_onFinish_step H :=
  match goal with
  | |- context [bind (call_onFinish ?f ?res) _ ?st] =>
      let st' := fresh "st" in
      let tr' := fresh "tr" in
      let Hcall := fresh "Hcall" in
      destruct (call_onFinish_run f res st) as (st' & tr' & Hcall & H & _);
      erewrite bind_Normal by exact Hcall
  | |- context [call_onFinish ?f ?res ?st] =>
      let st' := fresh "st" in
      let tr' := fresh "tr" in
      let Hcall := fresh "Hcall" in
      destruct (call_onFinish_run f res st) as (st' & tr' & Hcall & H & _);
      rewrite Hcall
  end.

(** One run of the listener of a collector that is attached and still waits
    for responses: what becomes of its variables, and the calls of
    [onFinish] it makes. *)
Lemma collector_handler_run (n : nat) (data : WindowMessage.t) (self : WindowManager.t)
      (c : Collector) :
  nth_error (collectors self) n = Some c ->
  attached c = true ->
  received c < sent c ->
  carries_match data = true ->
  let accepted :=
    if WindowMessage.has_action data WindowMessage.LOOKUP_FOUND && negb (found c)
    then option_map (fun s => (s, advertised data "uuid", advertised data "type"))
                    (sessions_get self (WindowMessage.originUUID data))
    else None in
  let received' := if is_response data then S (received c) else received c in
  let found' := found c || is_some accepted in
  let finished := Nat.eqb (sent c) received' in
  exists self' tr,
    collector_handler n data self = (self', tr, Normal tt)
    /\ nth_error (collectors self') n
       = Some (mkCollector (sent c) received' found' (onFinish c) (negb finished))
    /\ invocations tr
       = match accepted with
         | Some x => [(onFinish c, onFinish_arguments (Some x))]
         | None => []
         end
         ++ (if finished && negb found' then [(onFinish c, [Val VNull])] else []).
Proof.
  intros Hnth Hatt Hlt Hwf. destruct c as [N r fd f att]. simpl in Hatt, Hlt. subst att.
  cbn [sent received found onFinish]. unfold is_response, carries_match in *.
  unfold collector_handler, update_collector. rewrite bind_get, Hnth.
  cbn [attached negb found onFinish].
  assert (Hwait : Nat.eqb N r = false) by (apply Nat.eqb_neq; lia).
  destruct (WindowMessage.has_action data WindowMessage.LOOKUP_FOUND) eqn:Hfound;
    [ simpl in Hwf; apply negb_true_iff in Hwf;
      destruct fd;
      [ | destruct (sessions_get self (WindowMessage.originUUID data)) as [session|] eqn:Hs ]
    | destruct (WindowMessage.has_action data WindowMessage.LOOKUP_NOT_FOUND) eqn:Hnot ];
    cbn [negb andb orb option_map is_some]; mstep;
    rewrite ?get_property_advertised by assumption; mstep;
    try call_onFinish_step Hfirst; mstep;
    cbn [collectors set_collectors set_store];
    rewrite ?nth_error_update_nth, ?Hnth;
    cbn [option_map count_received set_found sent received found onFinish attached];
    rewrite ?Hwait;
    destruct (Nat.eqb N (S r)) eqn:E; cbn [negb andb]; mstep;
    try (destruct fd; cbn [negb]); try call_onFinish_step Hlast; mstep;
    (eexists _, _; split; [reflexivity|];
     unfold invocations in *;
     cbn; rewrite ?nth_error_update_nth, ?Hnth; cbn; split; [reflexivity|];
     rewrite ?flat_map_app; cbn;
     try rewrite Hfirst; try rewrite Hlast; cbn; rewrite ?app_nil_r; reflexivity).
Qed.

Transparent call_onFinish.

(** Once its EventManager is destroyed the listener no longer runs. *)
Lemma collector_handler_detached (n : nat) (data : WindowMessage.t)
      (self : WindowManager.t) (c : Collector) :
  nth_error (collectors self) n = Some c ->
  attached c = false ->
  collector_handler n data self = (self, [], Normal tt).
Proof.
  intros Hnth Hatt. unfold collector_handler. rewrite bind_get, Hnth, Hatt. reflexivity.
Qed.

Lemma collect_detached (n : nat) (events : list arrival) :
  forall (self : WindowManager.t) (c : Collector),
    nth_error (collectors self) n = Some c ->
    attached c = false ->
    snd (collect n events self) = [].
Proof.
  induction events as [|[table data] events IH]; intros self c Hnth Hatt; [reflexivity|].
  cbn [collect].
  rewrite (collector_handler_detached n data (set_sessions self table) c Hnth Hatt).
  unfold state_of, trace_of. cbn [fst snd].
  specialize (IH (set_sessions self table) c Hnth Hatt).
  destruct (collect n events (set_sessions self table)) as [self' tr].
  simpl in *. assumption.
Qed.

Lemma first_accepted_none_pending (events : list arrival) : first_accepted 0 events = None.
Proof. destruct events as [|[table data] events]; reflexivity. Qed.

(** The calls of [onFinish] a collector makes over a sequence of events,
    from any point at which it is attached and waits for responses. *)
Lemma collect_invocations (n : nat) (events : list arrival) :
  forall (self : WindowManager.t) (c : Collector),
    nth_error (collectors self) n = Some c ->
    attached c = true ->
    received c < sent c ->
    Forall (fun e => carries_match (snd e) = true) events ->
    invocations (snd (collect n events self))
    = if found c then []
      else match first_accepted (sent c - received c) events with
           | Some x => [(onFinish c, onFinish_arguments (Some x))]
           | None =>
               if Nat.leb (sent c - received c) (responses events)
               then [(onFinish c, [Val VNull])]
               else []
           end.
Proof.
  induction events as [|[table data] events IH]; intros self c Hnth Hatt Hlt Hwf.
  - cbn. destruct (found c); [reflexivity|].
    destruct (sent c - received c) eqn:E; [lia|reflexivity].
  - inversion Hwf as [|e l Hdata Hrest]; subst. simpl in Hdata.
    cbn [collect].
    destruct (collector_handler_run n data (set_sessions self table) c Hnth Hatt Hlt Hdata)
      as (self' & tr & Hrun & Hnth' & Hinv).
    rewrite Hrun. unfold state_of, trace_of. cbn [fst snd].
    destruct (collect n events self') as [self'' tr'] eqn:Hcollect.
    cbn [snd]. rewrite invocations_app, Hinv.
    assert (Hrest' : invocations tr' = invocations (snd (collect n events self')))
      by (rewrite Hcollect; reflexivity).
    rewrite Hrest'. clear Hrest' Hcollect Hinv Hrun.
    unfold sessions_get in *. cbn [sessions set_sessions] in *.
    unfold responses. cbn [filter snd]. unfold is_response in *.
    destruct (sent c - received c) as [|pending] eqn:Hpending; [lia|].
    cbn [first_accepted].
    destruct (WindowMessage.has_action data WindowMessage.LOOKUP_FOUND) eqn:Hfound;
      [ | destruct (WindowMessage.has_action data WindowMessage.LOOKUP_NOT_FOUND) eqn:Hnot ];
      cbn [orb andb negb] in *.
    all: destruct (found c) eqn:Hfd; cbn [orb andb negb option_map is_some] in *.
    all: try destruct (table_get table (WindowMessage.originUUID data)) as [session|];
      cbn [orb andb negb option_map is_some app List.length] in *.
    all: destruct (Nat.eqb (sent c) (S (received c))) eqn:E;
      [ apply Nat.eqb_eq in E | apply Nat.eqb_neq in E ].
    all: assert (Hwait : Nat.eqb (sent c) (received c) = false)
           by (apply Nat.eqb_neq; lia).
    all: rewrite ?Hwait in *.
    all: cbn [negb andb] in *.
    all: try (rewrite (collect_detached n events self' _ Hnth' eq_refl)).
    all: try (rewrite (IH self' _ Hnth' eq_refl); cbn [sent received found onFinish];
              [ | lia | assumption ]).
    all: cbn [invocations flat_map app].
    all: try reflexivity.
    all: try (replace pending with 0 by lia; rewrite first_accepted_none_pending;
              reflexivity).
    all: try (replace (sent c - S (received c)) with pending by lia; reflexivity).
    all: try (rewrite Hpending; reflexivity).
Qed.

(** The loop of [lookup]: one envelope to each session, and the count. *)
Lemma scatter_run (table : list (string * ref)) (m : WindowMessage.t)
      (self : WindowManager.t) :
  exists tr,
    scatter table m self = (self, tr, Normal (List.length table))
    /\ sends tr = map (fun p => (snd p, m)) table
    /\ invocations tr = [].
Proof.
  induction table as [|[i session] table (tr & Hrun & Hsends & Hinv)].
  - exists []. repeat split.
  - cbn [scatter]. unfold send. rewrite !bind_emit.
    erewrite bind_Normal by exact Hrun.
    eexists. split; [reflexivity|]. rewrite app_nil_r.
    unfold sends, invocations in *. cbn. split; congruence.
Qed.




(** ** Broadcast *)

Import Network.

Lemma posts_app (self : WindowManager.t) (a b : list effect) :
  posts self (a ++ b) = posts self a ++ posts self b.
Proof. apply flat_map_app. Qed.

(** The loop of the BROADCAST branch, over a table whose sessions are the
    READY neighbours of their keys: what is handed over and what the
    transport then posts. *)
Lemma on_broadcast_loop (self : WindowManager.t) (m : WindowMessage.t)
      (table : list (string * ref)) :
  exists tr,
    for_in (A := unit) table (fun _ session =>
      s <- load session ;;
      if strict_neq (WindowSession.uuid s) (WindowMessage.originUUID m)
         && not_in_array (WindowSession.uuid s) (WindowMessage.hops m)
      then
        send session m ;;
        call_if_set (WindowSession.onBroadcastMessage s)
          [Val (read (WindowMessage.data m));
           Val (read (WindowMessage.authentication m))] ;;
        ret None
      else ret None) self
    = (self, tr, Normal None)
    /\ sends tr
       = map (fun p => (snd p, m))
           (filter (fun p => eligible self m (snd p)) table).
Proof.
  induction table as [|[i session] table (tr & Hrun & Hsends)].
  - exists []. split; reflexivity.
  - cbn [for_in filter snd]. unfold eligible. mstep.
    destruct (strict_neq (WindowSession.uuid (deref self session))
                (WindowMessage.originUUID m)
              && not_in_array (WindowSession.uuid (deref self session))
                   (WindowMessage.hops m)).
    + destruct (WindowSession.onBroadcastMessage (deref self session));
        cbn [call_if_set]; mstep;
        rewrite Hrun; eexists; (split; [reflexivity|]);
        unfold sends in *; cbn [flat_map app map snd]; rewrite Hsends; reflexivity.
    + mstep. rewrite Hrun. eexists. split; [reflexivity|]. assumption.
Qed.

(** The BROADCAST branch leaves the manager as it was and hands the envelope,
    with the manager's uuid appended to hops, to the eligible sessions. *)
Lemma on_broadcast_run (self : WindowManager.t) (message : WindowMessage.t) :
  exists tr,
    on_broadcast message self = (self, tr, Normal tt)
    /\ sends tr
       = map (fun p => (snd p, WindowMessage.push_hop message (VStr (uuid self))))
           (filter (fun p => eligible self
                               (WindowMessage.push_hop message (VStr (uuid self))) (snd p))
                   (sessions self)).
Proof.
  unfold on_broadcast. rewrite bind_get, bind_emit.
  destruct (on_broadcast_loop self (WindowMessage.push_hop message (VStr (uuid self)))
              (sessions self)) as (tr & Hrun & Hsends).
  unfold call_if_set. destruct (onBroadcastMessage self); mstep;
    (erewrite bind_Normal by exact Hrun); cbn [ret];
    eexists; (split; [reflexivity|]); rewrite app_nil_r; exact Hsends.
Qed.

Lemma dispatch_broadcast_run (self : WindowManager.t) (message : WindowMessage.t) :
  WindowMessage.has_action message WindowMessage.BROADCAST = true ->
  for_somebody_else self message = false ->
  dispatch message self = on_broadcast message self.
Proof.
  intros Hb Helse.
  rewrite dispatch_for_self; trivial.
  2:{ apply (has_action_exclusive _ _ _ Hb). discriminate. }
  rewrite (has_action_exclusive _ _ WindowMessage.CLOSED Hb) by discriminate.
  rewrite (has_action_exclusive _ _ WindowMessage.LOOKUP Hb) by discriminate.
  rewrite (has_action_exclusive _ _ WindowMessage.CONNECT Hb) by discriminate.
  rewrite Hb. reflexivity.
Qed.

(** Only what is handed to [send] is posted. *)
Lemma posts_sends (self : WindowManager.t) (tr : list effect) :
  posts self tr = flat_map (fun sm => post self (Send (fst sm) (snd sm))) (sends tr).
Proof.
  induction tr as [|e tr IH]; [reflexivity|].
  unfold posts, sends in *. cbn [flat_map]. rewrite flat_map_app, <- IH.
  destruct e; cbn; rewrite ?app_nil_r; reflexivity.
Qed.

(** The sessions of a manager built by [node]. *)
Lemma node_sessions (type_ : value) (name : string) (neighbours : list string) :
  map fst (sessions (node type_ name neighbours)) = neighbours
  /\ Forall (fun p => deref (node type_ name neighbours) (snd p) = neighbour (fst p))
            (sessions (node type_ name neighbours)).
Proof.
  unfold node, deref. cbn [sessions store].
  assert (H : forall (pre : list string),
             map fst (combine neighbours (seq (List.length pre) (List.length neighbours)))
             = neighbours
             /\ Forall (fun p => nth (snd p) (map neighbour (pre ++ neighbours))
                                     WindowSession.new = neighbour (fst p))
                       (combine neighbours
                          (seq (List.length pre) (List.length neighbours)))).
  { induction neighbours as [|x l IH]; intros pre; [split; constructor|].
    cbn [List.length seq combine map fst]. 
    specialize (IH (pre ++ [x])). rewrite length_app in IH. cbn [List.length] in IH.
    rewrite Nat.add_1_r, <- app_assoc in IH. cbn [app] in IH.
    destruct IH as [IH1 IH2]. split; [congruence|]. constructor; [|exact IH2].
    cbn [fst snd]. rewrite map_app, app_nth2; rewrite length_map; [|lia].
    rewrite Nat.sub_diag. reflexivity. }
  exact (H []).
Qed.

Lemma post_to_neighbour (self : WindowManager.t) (session : ref) (name : string)
      (m : WindowMessage.t) :
  deref self session = neighbour name ->
  post self (Send session m) = [mkPacket (uuid self) name m].
Proof. intros H. unfold post. cbn [carrier]. rewrite H. reflexivity. Qed.

Lemma posts_to_neighbours (self : WindowManager.t) (m : WindowMessage.t)
      (table : list (string * ref)) :
  Forall (fun p => deref self (snd p) = neighbour (fst p)) table ->
  flat_map (fun sm => post self (Send (fst sm) (snd sm)))
           (map (fun p => (snd p, m)) table)
  = map (fun y => mkPacket (uuid self) y m) (map fst table).
Proof.
  induction 1 as [|[x i] table Hx _ IH]; [reflexivity|].
  cbn [map flat_map fst snd] in *. rewrite (post_to_neighbour _ _ _ _ Hx), IH. reflexivity.
Qed.

Lemma eligible_neighbours (self : WindowManager.t) (m : WindowMessage.t)
      (table : list (string * ref)) :
  Forall (fun p => deref self (snd p) = neighbour (fst p)) table ->
  map fst (filter (fun p => eligible self m (snd p)) table)
  = filter (eligible_name m) (map fst table)
  /\ Forall (fun p => deref self (snd p) = neighbour (fst p))
            (filter (fun p => eligible self m (snd p)) table).
Proof.
  induction 1 as [|[x i] table Hx _ [IH1 IH2]]; [split; constructor|].
  cbn [map filter fst snd] in *.
  assert (He : eligible self m i = eligible_name m x).
  { unfold eligible, eligible_name. rewrite Hx. reflexivity. }
  rewrite He. destruct (eligible_name m x).
  - cbn [map fst]. split; [congruence|]. constructor; assumption.
  - split; assumption.
Qed.

Lemma no_destination_is_for_self (self : WindowManager.t) (m : WindowMessage.t) :
  WindowMessage.destinationUUID m = None -> for_somebody_else self m = false.
Proof. intros H. unfold for_somebody_else. rewrite H. reflexivity. Qed.

(** A manager built by [node] relaying a broadcast: it stays as it was and
    the transport posts one envelope for each eligible neighbour. *)
Lemma node_relays (type_ : value) (name : string) (neighbours : list string)
      (m : WindowMessage.t) :
  WindowMessage.has_action m WindowMessage.BROADCAST = true ->
  WindowMessage.destinationUUID m = None ->
  exists tr,
    dispatch m (node type_ name neighbours) = (node type_ name neighbours, tr, Normal tt)
    /\ posts (node type_ name neighbours) tr = relayed name neighbours m.
Proof.
  intros Hb Hdest. set (self := node type_ name neighbours).
  rewrite dispatch_broadcast_run by auto using no_destination_is_for_self.
  destruct (on_broadcast_run self m) as (tr & Hrun & Hsends).
  exists tr. split; [exact Hrun|].
  destruct (node_sessions type_ name neighbours) as [Hfst Hall]. fold self in Hfst, Hall.
  destruct (eligible_neighbours self
              (WindowMessage.push_hop m (VStr (uuid self))) _ Hall) as [He1 He2].
  rewrite posts_sends, Hsends, (posts_to_neighbours _ _ _ He2), He1, Hfst.
  reflexivity.
Qed.

(** A manager built by [node] calling [broadcast]. *)
Lemma node_broadcasts (type_ : value) (name : string) (neighbours : list string)
      (data authentication : value) :
  exists tr,
    broadcast data authentication (node type_ name neighbours)
    = (node type_ name neighbours, tr, Normal tt)
    /\ posts (node type_ name neighbours) tr
       = map (fun y => mkPacket name y (broadcast_envelope_of name data authentication))
             neighbours.
Proof.
  set (self := node type_ name neighbours).
  rewrite (broadcast_envelope self data authentication [] eq_refl).
  eexists. split; [reflexivity|].
  destruct (node_sessions type_ name neighbours) as [Hfst Hall]. fold self in Hfst, Hall.
  rewrite posts_sends, sends_map_Send, (posts_to_neighbours _ _ _ Hall), Hfst.
  reflexivity.
Qed.

(** ** Deliveries *)

Lemma find_node_uuid (name : string) (l : list WindowManager.t) (self : WindowManager.t) :
  find_node name l = Some self -> uuid self = name.
Proof.
  induction l as [|s l IH]; simpl; [discriminate|].
  destruct (String.eqb name (uuid s)) eqn:E.
  - intros [= <-]. apply String.eqb_eq in E. congruence.
  - exact IH.
Qed.

Lemma put_node_same (name : string) (l : list WindowManager.t) (self : WindowManager.t) :
  find_node name l = Some self -> put_node self l = l.
Proof.
  induction l as [|s l IH]; simpl; [reflexivity|].
  destruct (String.eqb name (uuid s)) eqn:E.
  - intros [= <-]. rewrite String.eqb_refl. reflexivity.
  - intros H. rewrite (find_node_uuid _ _ _ H), E, (IH H). reflexivity.
Qed.

Lemma find_node_map (type_ : value) (neighbours : string -> list string)
      (name : string) (l : list string) :
  In name l ->
  find_node name (map (fun x => node type_ x (neighbours x)) l)
  = Some (node type_ name (neighbours name)).
Proof.
  induction l as [|x l IH]; simpl; [tauto|].
  destruct (String.eqb name x) eqn:E.
  - apply String.eqb_eq in E. subst. reflexivity.
  - intros [->|H]; [rewrite String.eqb_refl in E; discriminate|auto].
Qed.

Lemma pick_Permutation {A : Type} (k : nat) (l : list A) (x : A) (others : list A) :
  pick k l = Some (x, others) -> Permutation l (x :: others).
Proof.
  revert k x others. induction l as [|y l IH]; intros [|k] x others; simpl; try discriminate.
  - intros [= <- <-]. reflexivity.
  - destruct (pick k l) as [[z rest]|] eqn:E; [|discriminate].
    intros [= <- <-]. rewrite (IH _ _ _ E). apply perm_swap.
Qed.

Lemma pick_head {A : Type} (x : A) (l : list A) : pick 0 (x :: l) = Some (x, l).
Proof. reflexivity. Qed.

(** The delivery of a broadcast to a manager built by [node]. *)
Lemma step_relay (net : Network.t) (k : nat) (p : packet) (others : list packet)
      (type_ : value) (neighbours : list string) :
  pick k (inflight net) = Some (p, others) ->
  find_node (dst p) (nodes net) = Some (node type_ (dst p) neighbours) ->
  WindowMessage.has_action (body p) WindowMessage.BROADCAST = true ->
  WindowMessage.destinationUUID (body p) = None ->
  step dispatch net k
  = Some (Network.mk (nodes net)
            (others ++ relayed (dst p) neighbours (body p))
            (history net ++ [p])).
Proof.
  intros Hpick Hfind Hb Hdest. unfold step. rewrite Hpick, Hfind.
  destruct (node_relays type_ (dst p) neighbours (body p) Hb Hdest) as (tr & Hrun & Hposts).
  rewrite Hrun, Hposts, (put_node_same _ _ _ Hfind). reflexivity.
Qed.

(** A call of [broadcast] in a window whose manager is built by [node]. *)
Lemma call_broadcast (net : Network.t) (name : string) (type_ : value)
      (neighbours : list string) (data authentication : value) :
  find_node name (nodes net) = Some (node type_ name neighbours) ->
  call name (broadcast data authentication) net
  = Network.mk (nodes net)
      (inflight net
       ++ map (fun y => mkPacket name y (broadcast_envelope_of name data authentication))
              neighbours)
      (history net).
Proof.
  intros Hfind. unfold call. rewrite Hfind.
  destruct (node_broadcasts type_ name neighbours data authentication)
    as (tr & Hrun & Hposts).
  rewrite Hrun, Hposts, (put_node_same _ _ _ Hfind). reflexivity.
Qed.

(** Each delivery adds one envelope to the history. *)
Lemma step_history (listener : WindowMessage.t -> M unit) (net net' : Network.t) (k : nat) :
  step listener net k = Some net' ->
  List.length (history net') = S (List.length (history net)).
Proof.
  unfold step. destruct (pick k (inflight net)) as [[p others]|]; [|discriminate].
  destruct (find_node (dst p) (nodes net)) as [self|].
  - destruct (listener (body p) self) as [[self' tr] r]. intros [= <-].
    cbn. rewrite length_app. cbn. lia.
  - intros [= <-]. cbn. rewrite length_app. cbn. lia.
Qed.

Lemma run_history (listener : WindowMessage.t -> M unit) (schedule : list nat) :
  forall net net' : Network.t,
    run listener schedule net = Some net' ->
    List.length (history net') = List.length (history net) + List.length schedule.
Proof.
  induction schedule as [|k schedule IH]; intros net net'; cbn [run].
  - intros [= <-]. cbn. lia.
  - destruct (step listener net k) as [net1|] eqn:E; [|discriminate].
    intros H. rewrite (IH _ _ H), (step_history _ _ _ _ E). cbn. lia.
Qed.

(** ** A star *)

Section Star.
Variables (hub : string) (leaves : list string) (leaf : string).
Variables (data authentication : value).
Hypothesis distinct : NoDup (hub :: leaves).
Hypothesis is_leaf : In leaf leaves.

Local Abbreviation first_packet := (star_first hub leaf data authentication).
Local Abbreviation others := (star_others hub leaves leaf data authentication).
Local Abbreviation relaying := (star_relaying hub leaves leaf data authentication).

Lemma hub_is_no_leaf : ~ In hub leaves.
Proof. inversion distinct; assumption. Qed.

Lemma leaves_distinct : NoDup leaves.
Proof. inversion distinct; assumption. Qed.

Lemma find_hub :
  find_node hub (nodes (star hub leaves)) = Some (node (VStr "hub") hub leaves).
Proof. cbn. rewrite String.eqb_refl. reflexivity. Qed.

Lemma find_leaf (x : string) :
  In x leaves ->
  find_node x (nodes (star hub leaves)) = Some (node (VStr "leaf") x [hub]).
Proof.
  intros Hx. cbn [star nodes find_node node uuid].
  assert (E : String.eqb x hub = false).
  { apply String.eqb_neq. intros ->. exact (hub_is_no_leaf Hx). }
  rewrite E. exact (find_node_map (VStr "leaf") (fun _ => [hub]) x leaves Hx).
Qed.

(** The hub relays to every leaf but the one the broadcast came from. *)
Lemma hub_relays :
  relayed hub leaves (broadcast_envelope_of leaf data authentication) = others.
Proof.
  unfold relayed, others, star_others, star_relayed_envelope. f_equal.
  apply filter_ext_in. intros y Hy. unfold eligible_name. cbn.
  assert (E : String.eqb y hub = false).
  { apply String.eqb_neq. intros ->. exact (hub_is_no_leaf Hy). }
  unfold not_in_array. cbn. rewrite E, !orb_false_r. reflexivity.
Qed.

(** A leaf relays to nobody: its only neighbour is among the hops. *)
Lemma leaf_relays_nothing (x : string) :
  relayed x [hub] (star_relayed_envelope hub leaf data authentication) = [].
Proof.
  unfold relayed, eligible_name, not_in_array. cbn.
  rewrite String.eqb_refl, !orb_true_r. reflexivity.
Qed.

Lemma others_are_for_leaves (p : packet) :
  In p others ->
  exists y, In y leaves /\ y <> leaf
            /\ p = mkPacket hub y (star_relayed_envelope hub leaf data authentication).
Proof.
  unfold others, star_others. rewrite in_map_iff. intros (y & <- & Hy).
  apply filter_In in Hy. destruct Hy as [Hy Hne]. exists y. repeat split; trivial.
  intros ->. rewrite String.eqb_refl in Hne. discriminate.
Qed.

(** The broadcast leaves the leaf: one envelope, for the hub. *)
Lemma star_broadcast :
  call leaf (broadcast data authentication) (star hub leaves)
  = Network.mk (nodes (star hub leaves)) [first_packet] [].
Proof.
  rewrite (call_broadcast _ _ _ _ _ _ (find_leaf leaf is_leaf)). reflexivity.
Qed.

(** The first delivery is the hub's. *)
Lemma star_first_step (k : nat) (net' : Network.t) :
  step dispatch (Network.mk (nodes (star hub leaves)) [first_packet] []) k = Some net' ->
  relaying net' /\ inflight net' = others.
Proof.
  destruct k as [|k]; [|unfold step; cbn; discriminate].
  erewrite step_relay; [ | reflexivity | exact find_hub | reflexivity | reflexivity ].
  intros [= <-]. cbn [inflight nodes history dst body star_first app].
  rewrite hub_relays. split; [|reflexivity].
  split; [reflexivity|]. exists []. split; reflexivity.
Qed.

(** Every later delivery is to a leaf, which posts nothing. *)
Lemma star_later_step (k : nat) (net net' : Network.t) :
  relaying net ->
  step dispatch net k = Some net' ->
  relaying net' /\ S (List.length (inflight net')) = List.length (inflight net).
Proof.
  intros (Hnodes & done & Hhistory & Hperm) Hstep.
  destruct (pick k (inflight net)) as [[p rest]|] eqn:Hpick;
    [|unfold step in Hstep; rewrite Hpick in Hstep; discriminate].
  pose proof (pick_Permutation _ _ _ _ Hpick) as Hrest.
  assert (Hp : In p others).
  { apply (Permutation_in _ Hperm). apply in_or_app. right.
    apply (Permutation_in _ (Permutation_sym Hrest)). left. reflexivity. }
  destruct (others_are_for_leaves p Hp) as (y & Hy & Hne & ->).
  erewrite step_relay in Hstep;
    [ | exact Hpick | rewrite Hnodes; exact (find_leaf y Hy) | reflexivity | reflexivity ].
  injection Hstep as <-. cbn [inflight nodes history dst body].
  rewrite leaf_relays_nothing, app_nil_r. split.
  - split; [exact Hnodes|].
    exists (done ++ [mkPacket hub y
                       (star_relayed_envelope hub leaf data authentication)]). split.
    + rewrite Hhistory. reflexivity.
    + rewrite <- Hperm, <- app_assoc. apply Permutation_app_head.
      cbn. symmetry. exact Hrest.
  - apply Permutation_length in Hrest. cbn in Hrest. lia.
Qed.

Lemma star_later_run (schedule : list nat) :
  forall net net' : Network.t,
    relaying net -> run dispatch schedule net = Some net' -> relaying net'.
Proof.
  induction schedule as [|k schedule IH]; intros net net' Hinv; cbn [run].
  - intros [= <-]. exact Hinv.
  - destruct (step dispatch net k) as [net1|] eqn:E; [|discriminate].
    apply IH. exact (proj1 (star_later_step _ _ _ Hinv E)).
Qed.

(** While envelopes are in flight the oldest can be delivered; delivering
    the oldest each time empties the network. *)
Lemma star_drains (n : nat) :
  forall net : Network.t,
    relaying net -> List.length (inflight net) = n ->
    exists net', run dispatch (repeat 0 n) net = Some net' /\ inflight net' = [].
Proof.
  induction n as [|n IH]; intros net Hinv Hn.
  - exists net. split; [reflexivity|]. apply length_zero_iff_nil. exact Hn.
  - destruct (inflight net) as [|p rest] eqn:Hq; [discriminate|].
    assert (Hstep : exists net1, step dispatch net 0 = Some net1).
    { unfold step. rewrite Hq. cbn [pick].
      destruct (find_node (dst p) (nodes net)) as [self|];
        [destruct (dispatch (body p) self) as [[self' tr] r]|]; eexists; reflexivity. }
    destruct Hstep as (net1 & Hstep).
    destruct (star_later_step _ _ _ Hinv Hstep) as [Hinv1 Hlen].
    destruct (IH net1 Hinv1) as (net' & Hrun & Hempty).
    { rewrite Hq in Hlen. cbn in Hlen, Hn. lia. }
    exists net'. cbn [repeat run]. rewrite Hstep. split; assumption.
Qed.

Lemma others_length : S (List.length others) = List.length leaves.
Proof.
  unfold others, star_others. rewrite length_map.
  pose proof leaves_distinct as Hnd. revert Hnd is_leaf. clear.
  induction leaves as [|x l IH]; intros Hnd Hin; [destruct Hin|].
  inversion Hnd as [|? ? Hx Hl]; subst. cbn [filter].
  destruct (String.eqb x leaf) eqn:E; cbn [negb List.length].
  - apply String.eqb_eq in E. subst x. f_equal.
    rewrite forallb_filter_id; [reflexivity|].
    apply forallb_forall. intros y Hy. apply negb_true_iff, String.eqb_neq.
    intros ->. contradiction.
  - f_equal. apply IH; trivial. destruct Hin as [->|Hin]; trivial.
    rewrite String.eqb_refl in E. discriminate.
Qed.
End Star.

Lemma delivered_to_Permutation (name : string) (l l' : list packet) :
  Permutation l l' -> delivered_to name l = delivered_to name l'.
Proof.
  unfold delivered_to. induction 1 as [|p l l' _ IH|p q l|l l' l'' _ IH1 _ IH2]; cbn.
  - reflexivity.
  - destruct (String.eqb (dst p) name); cbn; congruence.
  - destruct (String.eqb (dst p) name), (String.eqb (dst q) name); reflexivity.
  - congruence.
Qed.

Lemma delivered_to_others (hub : string) (leaves : list string) (leaf x : string)
      (data authentication : value) :
  NoDup leaves -> In x leaves ->
  delivered_to x (star_others hub leaves leaf data authentication)
  = if String.eqb x leaf then 0 else 1.
Proof.
  intros Hnd Hx. unfold delivered_to, star_others.
  induction leaves as [|y l IH]; [destruct Hx|].
  inversion Hnd as [|? ? Hy Hl]; subst. cbn [filter map].
  assert (Hrest : ~ In x l ->
                  List.length
                    (filter (fun p => String.eqb (dst p) x)
                       (map (fun y => mkPacket hub y
                                        (star_relayed_envelope hub leaf data authentication))
                            (filter (fun y => negb (String.eqb y leaf)) l))) = 0).
  { clear. intros Hx. induction l as [|z l IH]; [reflexivity|]. cbn [filter map].
    assert (E : String.eqb z x = false).
    { apply String.eqb_neq. intros ->. apply Hx. left. reflexivity. }
    destruct (negb (String.eqb z leaf)); cbn [filter map dst]; rewrite ?E; apply IH;
      intros H; apply Hx; right; exact H. }
  destruct Hx as [->|Hx].
  - destruct (String.eqb x leaf) eqn:E; cbn [negb map filter dst].
    + exact (Hrest Hy).
    + rewrite String.eqb_refl. cbn [List.length]. rewrite (Hrest Hy). reflexivity.
  - assert (E : String.eqb y x = false).
    { apply String.eqb_neq. intros ->. contradiction. }
    destruct (negb (String.eqb y leaf)); cbn [map filter dst]; rewrite ?E; exact (IH Hl Hx).
Qed.

(** C8, as stated, fails on the hops: in the star of the hub H and the
    leaves L and M, the envelope the hub relays for the broadcast of L has
    the hops L, H. *)
Lemma hub_relays_with_its_own_uuid_in_hops :
  exists net',
    run dispatch [0; 0]
        (call "L" (broadcast (VStr "hello") VUndefined) (star "H" ["L"; "M"]))
    = Some net'
    /\ inflight net' = []
    /\ exists p, In p (history net') /\ src p = "H" /\ dst p = "M"
                 /\ WindowMessage.hops (body p) = [VStr "L"; VStr "H"]
                 /\ WindowMessage.hops (body p) <> [VStr "L"].
Proof.
  eexists. split; [vm_compute; reflexivity|]. split; [reflexivity|].
  eexists. split; [right; left; reflexivity|]. cbn. repeat split. discriminate.
Qed.

(** C8, amended.  In a star whose hub and leaves have distinct uuids and no
    callbacks set, after a leaf has called [broadcast]: whatever the order
    of the deliveries there are at most as many as there are leaves; every
    envelope the hub posts has the hops (leaf, hub); and once nothing is in
    flight the hub has been delivered one envelope, every other leaf exactly
    one, and the broadcasting leaf none.  Delivering the oldest envelope
    each time gets there. *)
Theorem star_broadcast_reaches_every_other_leaf_once :
  forall (hub : string) (leaves : list string) (leaf : string)
         (data authentication : value),
    NoDup (hub :: leaves) ->
    In leaf leaves ->
    let net0 := call leaf (broadcast data authentication) (star hub leaves) in
    (forall (schedule : list nat) (net' : Network.t),
        run dispatch schedule net0 = Some net' ->
        List.length schedule <= List.length leaves
        /\ (forall p, In p (history net' ++ inflight net') -> src p = hub ->
                      WindowMessage.hops (body p) = [VStr leaf; VStr hub])
        /\ (inflight net' = [] ->
            List.length schedule = List.length leaves
            /\ delivered_to hub (history net') = 1
            /\ forall x, In x leaves ->
                 delivered_to x (history net') = if String.eqb x leaf then 0 else 1))
    /\ exists net',
        run dispatch (repeat 0 (List.length leaves)) net0 = Some net'
        /\ inflight net' = [].
Proof.
  intros hub leaves leaf data authentication Hnd Hleaf net0. subst net0.
  rewrite (star_broadcast hub leaves leaf data authentication Hnd Hleaf).
  pose proof (hub_is_no_leaf hub leaves Hnd) as Hhub.
  pose proof (leaves_distinct hub leaves Hnd) as Hdistinct.
  pose proof (others_length hub leaves leaf data authentication Hnd Hleaf) as Hcount.
  assert (Hne : leaf <> hub) by (intros ->; contradiction).
  split.
  - intros [|k schedule] net'; cbn [run].
    + intros [= <-]. cbn [history inflight app List.length]. split; [lia|]. split.
      * intros p [<-|[]] Hsrc. cbn in Hsrc. contradiction.
      * discriminate.
    + destruct (step dispatch _ k) as [net1|] eqn:Hstep; [|discriminate].
      intros Hrun.
      destruct (star_first_step hub leaves leaf data authentication Hnd k net1 Hstep)
        as [Hinv1 _].
      pose proof (star_later_run hub leaves leaf data authentication Hnd _ _ _ Hinv1 Hrun)
        as (Hnodes & done & Hhistory & Hperm).
      pose proof (run_history _ _ _ _ Hrun) as Hlen.
      rewrite (step_history _ _ _ _ Hstep), Hhistory in Hlen.
      cbn [List.length history] in Hlen.
      pose proof (Permutation_length Hperm) as Hall. rewrite length_app in Hall.
      split; [cbn [List.length]; lia|]. split.
      * intros p Hp Hsrc. rewrite Hhistory in Hp. cbn [app] in Hp.
        destruct Hp as [<-|Hp]; [cbn in Hsrc; congruence|].
        apply (Permutation_in _ Hperm) in Hp.
        destruct (others_are_for_leaves hub leaves leaf data authentication p Hp)
          as (y & _ & _ & ->).
        reflexivity.
      * intros Hempty. rewrite Hempty, app_nil_r in Hperm. rewrite Hempty in Hall.
        cbn [List.length] in *. split; [lia|].
        rewrite Hhistory. unfold delivered_to at 1. cbn [filter star_first dst].
        rewrite String.eqb_refl. cbn [List.length]. split.
        -- f_equal. fold (delivered_to hub done).
           rewrite (delivered_to_Permutation _ _ _ Hperm).
           unfold delivered_to, star_others. clear -Hhub.
           induction leaves as [|y l IH]; [reflexivity|]. cbn [filter].
           assert (E : String.eqb y hub = false).
           { apply String.eqb_neq. intros ->. apply Hhub. left. reflexivity. }
           destruct (negb (String.eqb y leaf)); cbn [map filter dst]; rewrite ?E; apply IH;
             intros H; apply Hhub; right; exact H.
        -- intros x Hx. unfold delivered_to. cbn [filter star_first dst].
           assert (E : String.eqb hub x = false).
           { apply String.eqb_neq. intros ->. contradiction. }
           rewrite E. fold (delivered_to x done).
           rewrite (delivered_to_Permutation _ _ _ Hperm).
           apply delivered_to_others; assumption.
  - rewrite <- Hcount. cbn [repeat run].
    destruct (step dispatch
                (Network.mk (nodes (star hub leaves))
                   [star_first hub leaf data authentication] []) 0) as [net1|] eqn:Hstep.
    + destruct (star_first_step hub leaves leaf data authentication Hnd 0 net1 Hstep)
        as [Hinv1 Hq].
      apply (star_drains hub leaves leaf data authentication Hnd); trivial.
      rewrite Hq. reflexivity.
    + erewrite step_relay in Hstep;
        [ discriminate | reflexivity
        | exact (find_hub hub leaves) | reflexivity | reflexivity ].
Qed.

(** ** A cycle *)

Section Cycle.
Variables a b c : string.
Variables data authentication : value.
Hypothesis ab : a <> b.
Hypothesis ac : a <> c.
Hypothesis bc : b <> c.

Local Abbreviation m0 := (broadcast_envelope_of a data authentication).

Lemma eqb_ab : String.eqb a b = false. Proof. apply String.eqb_neq; assumption. Qed.
Lemma eqb_ba : String.eqb b a = false. Proof. apply String.eqb_neq; congruence. Qed.
Lemma eqb_ac : String.eqb a c = false. Proof. apply String.eqb_neq; assumption. Qed.
Lemma eqb_ca : String.eqb c a = false. Proof. apply String.eqb_neq; congruence. Qed.
Lemma eqb_bc : String.eqb b c = false. Proof. apply String.eqb_neq; assumption. Qed.
Lemma eqb_cb : String.eqb c b = false. Proof. apply String.eqb_neq; congruence. Qed.

Ltac names :=
  repeat first
    [ rewrite String.eqb_refl | rewrite eqb_ab | rewrite eqb_ba | rewrite eqb_ac
    | rewrite eqb_ca | rewrite eqb_bc | rewrite eqb_cb ].

Lemma find_a :
  find_node a (nodes (cycle a b c)) = Some (node (VStr "a") a [b; c]).
Proof. cbn. names. reflexivity. Qed.

Lemma find_b :
  find_node b (nodes (cycle a b c)) = Some (node (VStr "b") b [a; c]).
Proof. cbn. names. reflexivity. Qed.

Lemma find_c :
  find_node c (nodes (cycle a b c)) = Some (node (VStr "c") c [a; b]).
Proof. cbn. names. reflexivity. Qed.

(** b and c relay the envelope of a to each other, and what they get from
    each other to nobody. *)
Lemma b_relays_first :
  relayed b [a; c] m0 = [mkPacket b c (WindowMessage.push_hop m0 (VStr b))].
Proof. unfold relayed, eligible_name, not_in_array. cbn. names. reflexivity. Qed.

Lemma c_relays_first :
  relayed c [a; b] m0 = [mkPacket c b (WindowMessage.push_hop m0 (VStr c))].
Proof. unfold relayed, eligible_name, not_in_array. cbn. names. reflexivity. Qed.

Lemma c_relays_second : relayed c [a; b] (WindowMessage.push_hop m0 (VStr b)) = [].
Proof. unfold relayed, eligible_name, not_in_array. cbn. names. reflexivity. Qed.

Lemma b_relays_second : relayed b [a; c] (WindowMessage.push_hop m0 (VStr c)) = [].
Proof. unfold relayed, eligible_name, not_in_array. cbn. names. reflexivity. Qed.


Ltac deliver :=
  erewrite step_relay;
  [ | reflexivity
    | cbn [dst nodes]; first [exact find_a | exact find_b | exact find_c]
    | reflexivity | reflexivity ];
  cbn [inflight history nodes dst body app];
  rewrite ?b_relays_first, ?c_relays_first, ?c_relays_second, ?b_relays_second;
  cbn [app].




End Cycle.




Lemma star_broadcast_reaches_every_other_leaf_once_witness :
  exists net',
    run dispatch [0; 0; 0]
        (call "L" (broadcast (VStr "hello") VUndefined) (star "H" ["L"; "M"; "N"]))
    = Some net'
    /\ inflight net' = []
    /\ delivered_to "M" (history net') = 1
    /\ delivered_to "N" (history net') = 1
    /\ delivered_to "L" (history net') = 0.
Proof.
  assert (Hdistinct : NoDup ["H"; "L"; "M"; "N"]).
  { repeat constructor; simpl; intuition discriminate. }
  assert (Hleaf : In "L" ["L"; "M"; "N"]) by (simpl; auto).
  destruct (star_broadcast_reaches_every_other_leaf_once
              "H" ["L"; "M"; "N"] "L" (VStr "hello") VUndefined Hdistinct Hleaf)
    as [Hall (net' & Hrun & Hempty)].
  exists net'. split; [exact Hrun|]. split; [exact Hempty|].
  destruct (Hall _ _ Hrun) as (_ & _ & Hdone).
  destruct (Hdone Hempty) as (_ & _ & Heach).
  repeat split.
  - apply (Heach "M"). simpl. auto.
  - apply (Heach "N"). simpl. auto.
  - apply (Heach "L"). simpl. auto.
Defined.

(** ** The second listing *)

(** In the second listing the BROADCAST branch neither extends the hops nor
    looks at them, and a window that gets a broadcast posts it to both its
    neighbours, the sender included: in the cycle of A, B and C the
    envelopes never run out. *)
Lemma second_listing_step (data authentication : value) (net : Network.t) :
  second_listing_circulating data authentication net ->
  exists net1,
    step SecondListing.dispatch net 0 = Some net1
    /\ second_listing_circulating data authentication net1.
Proof.
  destruct net as [nds queue past]. unfold second_listing_circulating.
  cbn [nodes inflight]. intros (-> & Hne & Hall).
  destruct queue as [|[sender target m] rest]; [congruence|].
  inversion Hall as [|? ? [Hm Hto] Hrest]; subst. cbn [body dst] in *. subst m.
  destruct Hto as [ -> | [ -> | -> ] ]; (eexists; split; [reflexivity|]); cbn [nodes inflight];
    (split; [reflexivity|]); (split; [destruct rest; discriminate|]);
    apply Forall_app; (split; [exact Hrest|]);
    repeat (apply Forall_cons; [split; [reflexivity | cbn; auto] | ]);
    apply Forall_nil.
Qed.

Lemma second_listing_cycle_never_settles (data authentication : value) (n : nat) :
  exists net',
    run SecondListing.dispatch (repeat 0 n)
        (call "A" (SecondListing.broadcast data authentication) (cycle "A" "B" "C"))
    = Some net'
    /\ inflight net' <> [].
Proof.
  assert (Hstart : second_listing_circulating data authentication
                     (call "A" (SecondListing.broadcast data authentication)
                           (cycle "A" "B" "C"))).
  { repeat split; try discriminate.
    repeat (apply Forall_cons; [split; [reflexivity | cbn; auto] | ]).
    apply Forall_nil. }
  revert Hstart.
  generalize (call "A" (SecondListing.broadcast data authentication) (cycle "A" "B" "C")).
  induction n as [|n IH]; intros net Hnet.
  - exists net. split; [reflexivity|]. apply Hnet.
  - destruct (second_listing_step _ _ _ Hnet) as (net1 & Hstep & Hnet1).
    destruct (IH net1 Hnet1) as (net' & Hrun & Hne).
    exists net'. cbn [repeat run]. rewrite Hstep. split; assumption.
Qed.

(** * More properties of the listing *)

(** ** The LOOKUP branch *)

(** The search of the LOOKUP branch. *)
Lemma on_lookup_search (table : list (string * ref)) (self : WindowManager.t)
      (type_ : value) (found : WindowSession.t -> WindowMessage.t) :
  for_in table (fun _ session =>
    s <- load session ;;
    if strict_eq (WindowSession.type s) type_ then ret (Some (found s)) else ret None) self
  = (self, [],
     Normal (option_map (fun session => found (deref self session))
                        (first_of_type self type_ table))).
Proof.
  unfold first_of_type.
  induction table as [|[i session] table IH]; [reflexivity|].
  cbn [for_in find snd]. mstep.
  destruct (strict_eq (WindowSession.type (deref self session)) type_).
  - mstep. reflexivity.
  - mstep. exact IH.
Qed.

Lemma on_lookup_run (self : WindowManager.t) (message : WindowMessage.t) :
  on_lookup message self
  = match sessions_get self (WindowMessage.originUUID message) with
    | Some (Peer session) =>
        (self,
         [Console log ("TabTalk: WindowManager lookup request received from "
                       ++ to_string (WindowMessage.originType message) ++ ".");
          Send session
            (lookup_reply self (read (WindowMessage.destinationType message)));
          Console log "TabTalk: Response to lookup request sent."],
         Normal tt)
    | Some (Member _) =>
        (self,
         [Console log ("TabTalk: WindowManager lookup request received from "
                       ++ to_string (WindowMessage.originType message) ++ ".")],
         Abrupt (TypeError "session.send is not a function"))
    | None =>
        (self,
         [Console log ("TabTalk: WindowManager lookup request received from "
                       ++ to_string (WindowMessage.originType message) ++ ".");
          Console warn "TabTalk: Unknown lookup origin session."],
         Normal tt)
    end.
Proof.
  unfold on_lookup, lookup_reply. mstep.
  erewrite bind_Normal by apply on_lookup_search.
  destruct (first_of_type self (read (WindowMessage.destinationType message))
              (sessions self)) as [found|];
    cbn [option_map];
    destruct (sessions_get self (WindowMessage.originUUID message)) as [[session|name]|];
    mstep; reflexivity.
Qed.

(** Which branch the listener takes for an envelope it handles itself. *)
Lemma dispatch_branch (self : WindowManager.t) (message : WindowMessage.t) (code : Z) :
  WindowMessage.has_action message code = true ->
  for_somebody_else self message = false ->
  dispatch message self
  = (if Z.eqb code WindowMessage.READY then ret tt
     else if Z.eqb code WindowMessage.CLOSED then on_closed message
     else if Z.eqb code WindowMessage.LOOKUP then on_lookup message
     else if Z.eqb code WindowMessage.CONNECT then on_connect message
     else if Z.eqb code WindowMessage.BROADCAST then on_broadcast message
     else if Z.eqb code WindowMessage.MESSAGE then on_message message
     else emit (Console warn "TabTalk: Unknown message type.")) self.
Proof.
  intros Hcode Helse.
  assert (Hother : forall other, WindowMessage.has_action message other = Z.eqb code other).
  { intros other. destruct (Z.eqb code other) eqn:E.
    - apply Z.eqb_eq in E. subst. assumption.
    - apply (has_action_exclusive _ _ _ Hcode). apply Z.eqb_neq. assumption. }
  destruct (Z.eqb code WindowMessage.READY) eqn:Hready.
  - unfold dispatch. rewrite bind_get, Hother, Hready. reflexivity.
  - rewrite dispatch_for_self; trivial; rewrite ?Hother; trivial.
Qed.



(** What every answer of the LOOKUP branch has. *)
Lemma lookup_reply_shape (neighbour : WindowManager.t) (wanted : value) :
  is_response (lookup_reply neighbour wanted) = true
  /\ carries_match (lookup_reply neighbour wanted) = true
  /\ WindowMessage.destinationUUID (lookup_reply neighbour wanted) = None
  /\ (WindowMessage.has_action (lookup_reply neighbour wanted) WindowMessage.LOOKUP_FOUND
      = true
      \/ WindowMessage.has_action (lookup_reply neighbour wanted)
           WindowMessage.LOOKUP_NOT_FOUND = true).
Proof.
  unfold lookup_reply.
  destruct (first_of_type neighbour wanted (sessions neighbour)); repeat split; auto.
Qed.

(** X2.  The answer a manager builds for a LOOKUP is, for the "message"
    listener of whoever receives it, an unknown message: it has no
    destination, so it is never forwarded, and the listener only warns and
    leaves its manager as it was. *)
Theorem lookup_reply_is_unknown_to_the_listener :
  forall (neighbour receiver : WindowManager.t) (wanted : value),
    dispatch (lookup_reply neighbour wanted) receiver
    = (receiver, [Console warn "TabTalk: Unknown message type."], Normal tt)
    /\ for_somebody_else receiver (lookup_reply neighbour wanted) = false.
Proof.
  intros neighbour receiver wanted.
  destruct (lookup_reply_shape neighbour wanted) as (_ & _ & Hdest & Haction).
  pose proof (no_destination_is_for_self receiver _ Hdest) as Helse.
  split; [|exact Helse].
  destruct Haction as [H|H]; rewrite (dispatch_branch _ _ _ H Helse); reflexivity.
Qed.

(** The state [lookup] leaves when there are sessions. *)
Lemma lookup_installs_collector (self : WindowManager.t) (type_ : value)
      (onFinish : callback) :
  sessions self <> [] ->
  state_of (lookup type_ onFinish self)
  = set_collectors self
      (collectors self
       ++ [mkCollector (List.length (sessions self)) 0 false onFinish true]).
Proof.
  intros Hne. unfold lookup. rewrite bind_get.
  destruct (scatter_run (sessions self)
              (WindowMessage.new (VNum 0) (VNum WindowMessage.LOOKUP) (type self)
                 (VStr (uuid self)) type_ VUndefined VUndefined VUndefined) self)
    as (tr & Hrun & _).
  erewrite bind_Normal by exact Hrun.
  destruct (sessions self) as [|p table]; [congruence|]. reflexivity.
Qed.

(** X3.  When a manager with sessions looks a type up and the events that
    follow are one answer for each envelope it sent, each built by the
    LOOKUP branch of some manager, the collector calls [onFinish] exactly
    once: with the uuid and type of the first LOOKUP_FOUND answer under
    whose originUUID the table gives something, and with what it gives (the
    session it lists there); with [null] when there is none. *)
Theorem lookup_gathers_the_replies :
  forall (self : WindowManager.t) (type_ : value) (onFinish : callback)
         (events : list arrival),
    sessions self <> [] ->
    Forall (fun e => exists neighbour wanted, snd e = lookup_reply neighbour wanted)
           events ->
    List.length events = List.length (sessions self) ->
    invocations
      (snd (collect (List.length (collectors self)) events
              (state_of (lookup type_ onFinish self))))
    = [(onFinish,
        onFinish_arguments (first_accepted (List.length (sessions self)) events))].
Proof.
  intros self type_ onFinish events Hne Hreplies Hcount.
  rewrite (lookup_installs_collector _ _ _ Hne).
  assert (Hwf : Forall (fun e => carries_match (snd e) = true) events).
  { eapply Forall_impl; [|exact Hreplies]. intros e (neighbour & wanted & ->).
    apply lookup_reply_shape. }
  assert (Hall : responses events = List.length events).
  { unfold responses. clear Hcount Hwf. induction Hreplies as [|e l He _ IH]; [reflexivity|].
    destruct He as (neighbour & wanted & He). cbn [filter]. rewrite He.
    rewrite (proj1 (lookup_reply_shape neighbour wanted)). cbn [List.length]. congruence. }
  erewrite collect_invocations; try exact Hwf.
  2:{ cbn [collectors set_collectors]. rewrite nth_error_app2 by lia.
      rewrite Nat.sub_diag. reflexivity. }
  2: reflexivity.
  2:{ cbn. destruct (sessions self); [congruence|]. cbn. lia. }
  cbn [found sent received WindowManager.onFinish]. rewrite Nat.sub_0_r.
  destruct (first_accepted (List.length (sessions self)) events) as [x|]; [reflexivity|].
  rewrite Hall, Hcount, Nat.leb_refl. reflexivity.
Qed.

Lemma lookup_gathers_the_replies_witness :
  invocations
    (snd (collect 0 replies_to_R_two
            (state_of (lookup (VStr "3D") (UserFunction 1) router_R_two))))
  = [(UserFunction 1, [Session 1; Val (VStr "G"); Val (VStr "3D")])].
Proof.
  refine (lookup_gathers_the_replies router_R_two (VStr "3D") (UserFunction 1)
            replies_to_R_two _ _ _).
  - discriminate.
  - repeat constructor.
    + exists router_G, (VStr "3D"). reflexivity.
    + exists router_H, (VStr "3D"). reflexivity.
  - reflexivity.
Defined.

(** ** The CONNECT branch *)

Lemma update_nth_last {A : Type} (l : list A) (x : A) (f : A -> A) :
  update_nth (List.length l) f (l ++ [x]) = l ++ [f x].
Proof. induction l as [|y l IH]; cbn; [reflexivity|]. rewrite IH. reflexivity. Qed.

Lemma on_connect_run (self : WindowManager.t) (message : WindowMessage.t) :
  on_connect message self
  = match sessions_get self (last (WindowMessage.hops message) VUndefined) with
    | Some gateway =>
        (set_store self (store self ++ [connected_session message gateway]),
         [Method (List.length (store self)) "waitReady";
          Method (List.length (store self)) "acknowledge";
          Console warn "TabTalk: Connect message received, creating a new session."],
         Normal tt)
    | None =>
        (self,
         [Console error "TabTalk: Connect message received, but the gateway is unknown."],
         Normal tt)
    end.
Proof.
  unfold on_connect. rewrite bind_get. cbn [WindowMessage.pop_hop].
  destruct (sessions_get self (last (WindowMessage.hops message) VUndefined)) as [gateway|];
    [|reflexivity].
  unfold waitReady, acknowledge, new_WindowSession, assign. mstep.
  cbn [store set_store]. rewrite !update_nth_last. reflexivity.
Qed.



(** ** What the listener keeps and what it sends *)

Lemma assoc_In {A : Type} (k : string) (l : list (string * A)) (a : A) :
  assoc k l = Some a -> In (k, a) l.
Proof.
  induction l as [|[k' b] l IH]; simpl; [discriminate|].
  destruct (String.eqb k k') eqn:E.
  - intros [= ->]. apply String.eqb_eq in E. subst. left. reflexivity.
  - intros H. right. exact (IH H).
Qed.



Lemma on_message_run (self : WindowManager.t) (message : WindowMessage.t) :
  exists tr,
    on_message message self
    = match sessions_get self (WindowMessage.originUUID message) with
      | Some (Peer session) =>
          (set_store self
             (update_nth session
                (fun s => WindowSession.set_received s
                            (WindowSession.received s ++ [message]))
                (store self)),
           tr, Normal tt)
      | Some (Member _) =>
          (self, tr,
           Abrupt (TypeError "Cannot read properties of undefined"))
      | None => (self, tr, Normal tt)
      end
    /\ sends tr = [].
Proof.
  unfold on_message, call_if_set, assign. rewrite bind_get, bind_emit.
  destruct (onMessage self);
    (destruct (sessions_get self (WindowMessage.originUUID message)) as [[session|name]|];
     [ mstep;
       match goal with
       | |- context [WindowSession.onMessage ?s] => destruct (WindowSession.onMessage s)
       end
     | mstep
     | mstep ]);
    eexists; split; reflexivity.
Qed.





(** X6.  Whatever the envelope, everything the listener hands to [send] goes
    to a session of its table, and is either the envelope it got with its
    own uuid added at the end of the hops and nothing else changed, or, for
    a LOOKUP envelope, the answer, which goes to the session keyed by the
    origin.  For READY, CLOSED, CONNECT and MESSAGE envelopes it handles
    itself, and for unknown actions, it sends nothing. *)
Theorem dispatch_sends_copies_or_answers :
  forall (self : WindowManager.t) (message : WindowMessage.t),
    let r := dispatch message self in
    (forall session m,
        In (session, m) (sends (trace_of r)) ->
        (exists key, In (key, session) (sessions self))
        /\ (m = WindowMessage.push_hop message (VStr (uuid self))
            \/ (WindowMessage.has_action message WindowMessage.LOOKUP = true
                /\ m = lookup_reply self (read (WindowMessage.destinationType message))
                /\ session_at self (WindowMessage.originUUID message) = Some session)))
    /\ (for_somebody_else self message = false ->
        WindowMessage.has_action message WindowMessage.LOOKUP = false ->
        WindowMessage.has_action message WindowMessage.BROADCAST = false ->
        sends (trace_of r) = [])
    /\ (WindowMessage.has_action message WindowMessage.READY = true ->
        sends (trace_of r) = []).
Proof.
  intros self message r. subst r.
  destruct (WindowMessage.has_action message WindowMessage.READY) eqn:Hready.
  { unfold dispatch. rewrite bind_get, Hready. cbn. repeat split; tauto. }
  destruct (for_somebody_else self message) eqn:Helse.
  { rewrite dispatch_for_somebody_else, redirect_run by assumption.
    destruct (sessions_get_cases self (read (WindowMessage.destinationUUID message)))
      as [(session & Hs & ->)|[(Hs & Hown & ->)|(Hs & Hown & ->)]];
      cbn; repeat split; try tauto; try discriminate.
    - destruct H as [[= <- <-]|[]]. exists (to_key (read (WindowMessage.destinationUUID message))).
      apply assoc_In. exact Hs.
    - destruct H as [[= <- <-]|[]]. left. reflexivity. }
  rewrite dispatch_for_self by assumption.
  destruct (WindowMessage.has_action message WindowMessage.CLOSED) eqn:Hclosed.
  { rewrite on_closed_run.
    destruct (sessions_get self (WindowMessage.originUUID message)) as [[session|name]|];
      cbn; repeat split; tauto. }
  destruct (WindowMessage.has_action message WindowMessage.LOOKUP) eqn:Hlookup.
  { rewrite on_lookup_run.
    destruct (sessions_get_cases self (WindowMessage.originUUID message))
      as [(origin & Ho & ->)|[(Ho & Hown & ->)|(Ho & Hown & ->)]];
      cbn; repeat split; try tauto; try discriminate.
    - destruct H as [[= <- <-]|[]]. exists (to_key (WindowMessage.originUUID message)).
      apply assoc_In. exact Ho.
    - destruct H as [[= <- <-]|[]]. right. auto. }
  destruct (WindowMessage.has_action message WindowMessage.CONNECT).
  { rewrite on_connect_run.
    destruct (sessions_get self (last (WindowMessage.hops message) VUndefined));
      cbn; repeat split; tauto. }
  destruct (WindowMessage.has_action message WindowMessage.BROADCAST) eqn:Hb.
  { destruct (on_broadcast_run self message) as (tr & -> & Hsends).
    unfold trace_of. cbn [fst snd]. rewrite Hsends. repeat split; try discriminate.
    - apply in_map_iff in H. destruct H as ([key s] & [= <- _] & Hin).
      apply filter_In in Hin. exists key. apply Hin.
    - apply in_map_iff in H. destruct H as (p & [= _ <-] & _). left. reflexivity. }
  destruct (WindowMessage.has_action message WindowMessage.MESSAGE).
  { destruct (on_message_run self message) as (tr & -> & Hsends).
    destruct (sessions_get self (WindowMessage.originUUID message)) as [[session|name]|];
      unfold trace_of; cbn [fst snd]; rewrite Hsends; cbn; repeat split; tauto. }
  cbn. repeat split; tauto.
Qed.


(** ** A broadcast in any network *)

Lemma along_snoc (m : WindowMessage.t) (path : list string) (x : string) :
  along m (path ++ [x]) = WindowMessage.push_hop (along m path) (VStr x).
Proof. unfold along. rewrite fold_left_app. reflexivity. Qed.

Lemma along_fields (m : WindowMessage.t) (path : list string) :
  WindowMessage.hops (along m path) = WindowMessage.hops m ++ map VStr path
  /\ WindowMessage.action (along m path) = WindowMessage.action m
  /\ WindowMessage.originUUID (along m path) = WindowMessage.originUUID m
  /\ WindowMessage.destinationUUID (along m path) = WindowMessage.destinationUUID m.
Proof.
  induction path as [|x path (H1 & H2 & H3 & H4)] using rev_ind.
  - cbn. rewrite app_nil_r. auto.
  - rewrite along_snoc, map_app. cbn. rewrite H1, app_assoc. auto.
Qed.

Lemma not_in_array_names (y : string) (l : list string) :
  not_in_array (VStr y) (map VStr l) = true <-> ~ In y l.
Proof.
  unfold not_in_array. rewrite negb_true_iff.
  induction l as [|x l IH]; cbn; [tauto|].
  rewrite orb_false_iff, IH, String.eqb_neq. intuition congruence.
Qed.

Lemma map_VStr_inj (l l' : list string) : map VStr l = map VStr l' -> l = l'.
Proof.
  revert l'. induction l as [|x l IH]; intros [|x' l']; cbn; try discriminate; auto.
  intros [= -> H]. f_equal. auto.
Qed.

Lemma carried_inj (a : string) (data authentication : value) (path path' : list string)
      (y y' : string) :
  carried a data authentication path y = carried a data authentication path' y' ->
  path = path' /\ y = y'.
Proof.
  unfold carried. intros [= _ Hy Hbody]. split; [|exact Hy].
  apply (f_equal WindowMessage.hops) in Hbody.
  destruct (along_fields (broadcast_envelope_of a data authentication) path) as [H _].
  destruct (along_fields (broadcast_envelope_of a data authentication) path') as [H' _].
  rewrite H, H' in Hbody. apply app_inv_head in Hbody. apply map_VStr_inj. exact Hbody.
Qed.

Lemma NoDup_map_carried (a : string) (data authentication : value) (path : list string)
      (l : list string) :
  NoDup l -> NoDup (map (carried a data authentication path) l).
Proof.
  induction 1 as [|y l Hy Hl IH]; cbn; constructor; [|exact IH].
  rewrite in_map_iff. intros (z & Hz & Hin). apply carried_inj in Hz.
  destruct Hz as [_ ->]. contradiction.
Qed.

(** The test of the BROADCAST branch, for an envelope of a broadcast of
    [a] that the windows of [l] have relayed. *)
Lemma eligible_along (a : string) (data authentication : value) (l : list string)
      (y : string) :
  eligible_name (along (broadcast_envelope_of a data authentication) l) y = true
  <-> ~ In y (a :: l).
Proof.
  unfold eligible_name.
  destruct (along_fields (broadcast_envelope_of a data authentication) l)
    as (Hh & _ & Ho & _).
  rewrite Hh, Ho. cbn [broadcast_envelope_of WindowMessage.push_hop WindowMessage.new
    WindowMessage.hops WindowMessage.originUUID app].
  change (VStr a :: map VStr l) with (map VStr (a :: l)).
  rewrite andb_true_iff, not_in_array_names. cbn. tauto.
Qed.

(** What a window posts when it relays such an envelope. *)
Lemma relayed_carried (a : string) (data authentication : value) (path : list string)
      (x : string) (neighbours : list string) :
  relayed x neighbours (along (broadcast_envelope_of a data authentication) path)
  = map (carried a data authentication (path ++ [x]))
        (filter (eligible_name
                   (along (broadcast_envelope_of a data authentication) (path ++ [x])))
                neighbours).
Proof.
  unfold relayed, carried. rewrite <- along_snoc, last_last. reflexivity.
Qed.

Lemma NoDup_snoc {A : Type} (l : list A) (y : A) :
  NoDup (l ++ [y]) <-> NoDup l /\ ~ In y l.
Proof.
  assert (H : Permutation (l ++ [y]) (y :: l))
    by (symmetry; apply Permutation_cons_append).
  split.
  - intros Hn. apply (Permutation_NoDup H) in Hn. apply NoDup_cons_iff in Hn. tauto.
  - intros [Hn Hy]. apply (Permutation_NoDup (Permutation_sym H)). constructor; assumption.
Qed.

Lemma walk_snoc (neighbours : string -> list string) (l : list string) (x y : string) :
  walk neighbours ((l ++ [x]) ++ [y])
  <-> walk neighbours (l ++ [x]) /\ In y (neighbours x).
Proof.
  induction l as [|z l IH]; [cbn; tauto|].
  destruct l as [|w l]; [cbn in *; tauto|].
  change (walk neighbours (((z :: w :: l) ++ [x]) ++ [y]))
    with (In w (neighbours z) /\ walk neighbours (((w :: l) ++ [x]) ++ [y])).
  change (walk neighbours ((z :: w :: l) ++ [x]))
    with (In w (neighbours z) /\ walk neighbours ((w :: l) ++ [x])).
  tauto.
Qed.

Lemma route_simple (neighbours : string -> list string) (a : string)
      (path : list string) (y : string) :
  route neighbours a path y <->
  NoDup (a :: path ++ [y]) /\ walk neighbours (a :: path ++ [y]).
Proof.
  split.
  - induction 1 as [y Hy Hne|path x y _ [IHn IHw] Hy Hfresh].
    + split; [|cbn; auto]. repeat constructor; cbn; intuition congruence.
    + change (a :: (path ++ [x]) ++ [y]) with ((a :: path ++ [x]) ++ [y]).
      split; [apply NoDup_snoc; auto|].
      change ((a :: path ++ [x]) ++ [y]) with (((a :: path) ++ [x]) ++ [y]).
      apply walk_snoc. auto.
  - revert y. induction path as [|x path IH] using rev_ind; intros y [Hn Hw].
    + apply route_first; [cbn in Hw; tauto|].
      inversion Hn as [|? ? Hin _]; subst. cbn in Hin. intuition congruence.
    + change (a :: (path ++ [x]) ++ [y]) with ((a :: path ++ [x]) ++ [y]) in Hn, Hw.
      apply NoDup_snoc in Hn. destruct Hn as [Hn Hfresh].
      change ((a :: path ++ [x]) ++ [y]) with (((a :: path) ++ [x]) ++ [y]) in Hw.
      apply walk_snoc in Hw. destruct Hw as [Hw Hy].
      apply route_next; auto.
Qed.

Lemma route_fresh (neighbours : string -> list string) (a : string)
      (path : list string) (y : string) :
  route neighbours a path y -> ~ In y (a :: path).
Proof.
  destruct 1 as [y Hy Hne|path x y _ _ Hfresh].
  - cbn. intuition congruence.
  - exact Hfresh.
Qed.

Lemma budget_step (n : nat) : budget n <= budget (S n).
Proof. destruct n as [|n]; [cbn; lia|]. change (budget (S (S n))) with (1 + S n * budget (S n)). lia. Qed.

Lemma budget_mono (n m : nat) : n <= m -> budget n <= budget m.
Proof.
  induction 1 as [|m _ IH]; [lia|]. pose proof (budget_step m). lia.
Qed.

Lemma budget_positive (n : nat) : 1 <= budget n.
Proof. destruct n; cbn; lia. Qed.

Lemma load_of_Permutation (names : list string) (l l' : list packet) :
  Permutation l l' -> load_of names l = load_of names l'.
Proof.
  unfold load_of, list_sum. induction 1; cbn [map fold_right] in *; lia.
Qed.

Lemma load_of_app (names : list string) (l l' : list packet) :
  load_of names (l ++ l') = load_of names l + load_of names l'.
Proof. unfold load_of. rewrite map_app, list_sum_app. reflexivity. Qed.

Lemma load_of_same (names : list string) (l : list packet) (n : nat) :
  (forall p, In p l -> weight names p = n) ->
  load_of names l = List.length l * n.
Proof.
  unfold load_of, list_sum. induction l as [|p l IH]; intros H; [reflexivity|].
  cbn [map fold_right List.length]. rewrite (H p (or_introl eq_refl)).
  rewrite IH by (intros q Hq; apply H; right; exact Hq). reflexivity.
Qed.

Lemma filter_shorter {A : Type} (f g : A -> bool) (l : list A) (x : A) :
  (forall z, f z = true -> g z = true) ->
  In x l -> g x = true -> f x = false ->
  List.length (filter f l) < List.length (filter g l).
Proof.
  intros Hfg. 
  assert (Hle : forall l', List.length (filter f l') <= List.length (filter g l')).
  { induction l' as [|z l' IH]; [cbn; lia|]. cbn.
    destruct (f z) eqn:Ef; [rewrite (Hfg z Ef); cbn; lia|].
    destruct (g z); cbn; lia. }
  induction l as [|z l IH]; [contradiction|].
  intros [->|Hin] Hg Hf; cbn.
  - rewrite Hg, Hf. cbn. specialize (Hle l). lia.
  - specialize (IH Hin Hg Hf).
    destruct (f z) eqn:Ef; [rewrite (Hfg z Ef); cbn; lia|].
    destruct (g z); cbn; lia.
Qed.

Lemma not_in_array_app (x : value) (l l' : list value) :
  not_in_array x (l ++ l') = not_in_array x l && not_in_array x l'.
Proof. unfold not_in_array. rewrite existsb_app, negb_orb. reflexivity. Qed.

Lemma step_total (listener : WindowMessage.t -> M unit) (net : Network.t)
      (p : packet) (others : list packet) :
  inflight net = p :: others -> exists net', step listener net 0 = Some net'.
Proof.
  intros H. unfold step. rewrite H. cbn [pick].
  destruct (find_node (dst p) (nodes net)) as [self|]; [|eexists; reflexivity].
  destruct (listener (body p) self) as [[self' tr] r]. eexists; reflexivity.
Qed.

Section Mesh.
Variables (names : list string) (neighbours : string -> list string) (a : string).
Variables (data authentication : value).
Hypothesis a_window : In a names.
Hypothesis distinct : forall x, In x names -> NoDup (neighbours x).
Hypothesis closed : forall x y, In x names -> In y (neighbours x) -> In y names.
Hypothesis not_own : ~ In a (neighbours a).

Local Abbreviation m0 := (broadcast_envelope_of a data authentication).
Local Abbreviation parcel := (carried a data authentication).
Local Abbreviation start :=
  (call a (broadcast data authentication) (mesh names neighbours)).
Local Abbreviation relaying := (mesh_relaying names neighbours a data authentication).

Lemma route_window (path : list string) (y : string) :
  route neighbours a path y -> In y names.
Proof.
  induction 1 as [y Hy _|path x y _ IH Hy _]; eauto.
Qed.

Lemma parcel_weight (path : list string) (y : string) :
  weight names (parcel path y)
  = budget (List.length (unvisited names (map VStr (a :: path)))).
Proof.
  unfold weight, carried. cbn [body].
  destruct (along_fields m0 path) as [-> _]. reflexivity.
Qed.

(** The envelopes a relay posts: to distinct windows that have not seen the
    envelope, so fewer than the windows that had not seen it before. *)
Lemma relay_load (path : list string) (x : string) :
  route neighbours a path x ->
  load_of names (relayed x (neighbours x) (along m0 path))
  < weight names (parcel path x).
Proof.
  intros Hroute. pose proof (route_window _ _ Hroute) as Hx.
  pose proof (route_fresh _ _ _ _ Hroute) as Hfresh.
  rewrite relayed_carried.
  rewrite (load_of_same names _
             (budget (List.length (unvisited names (map VStr (a :: path ++ [x])))))).
  2:{ intros p Hp. apply in_map_iff in Hp. destruct Hp as (y & <- & _).
      apply parcel_weight. }
  rewrite length_map, parcel_weight.
  set (j := List.length (unvisited names (map VStr (a :: path ++ [x])))).
  set (k := List.length (unvisited names (map VStr (a :: path)))).
  assert (Hcount : List.length (filter (eligible_name (along m0 (path ++ [x])))
                                       (neighbours x)) <= j).
  { apply NoDup_incl_length; [apply NoDup_filter, distinct, Hx|].
    intros y Hy. apply filter_In in Hy. destruct Hy as [Hy He].
    apply filter_In. split; [exact (closed _ _ Hx Hy)|].
    apply not_in_array_names. apply eligible_along in He. exact He. }
  assert (Hjk : j < k).
  { apply (filter_shorter _ _ names x); [| exact Hx | |].
    - intros z Hz. apply not_in_array_names. apply not_in_array_names in Hz.
      intros Hin. apply Hz. cbn in *. rewrite in_app_iff. tauto.
    - apply not_in_array_names. exact Hfresh.
    - apply not_true_iff_false. rewrite not_in_array_names.
      intros H. apply H. cbn. rewrite in_app_iff. cbn. auto. }
  pose proof (budget_mono (S j) k Hjk) as Hb.
  change (budget (S j)) with (1 + j * budget j) in Hb. nia.
Qed.

Lemma mesh_find (x : string) :
  In x names ->
  find_node x (nodes (mesh names neighbours)) = Some (node (VStr "window") x (neighbours x)).
Proof. intros H. exact (find_node_map (VStr "window") neighbours x names H). Qed.

Lemma parcel_is_broadcast (path : list string) (y : string) :
  WindowMessage.has_action (body (parcel path y)) WindowMessage.BROADCAST = true
  /\ WindowMessage.destinationUUID (body (parcel path y)) = None.
Proof.
  unfold carried, WindowMessage.has_action. cbn [body].
  destruct (along_fields m0 path) as (_ & -> & _ & ->). split; reflexivity.
Qed.

(** One delivery. *)
Lemma mesh_step (net net' : Network.t) (k : nat) :
  relaying net ->
  step dispatch net k = Some net' ->
  exists path x others,
    pick k (inflight net) = Some (parcel path x, others)
    /\ route neighbours a path x
    /\ net' = Network.mk (nodes net)
                (others ++ relayed x (neighbours x) (along m0 path))
                (history net ++ [parcel path x]).
Proof.
  intros (Hnodes & Hgood & _) Hstep.
  destruct (pick k (inflight net)) as [[p others]|] eqn:Hpick;
    [|unfold step in Hstep; rewrite Hpick in Hstep; discriminate].
  assert (Hin : In p (history net ++ inflight net)).
  { apply in_app_iff. right.
    apply (Permutation_in _ (Permutation_sym (pick_Permutation _ _ _ _ Hpick))).
    left. reflexivity. }
  destruct (Hgood p Hin) as (path & x & -> & Hroute).
  exists path, x, others. split; [reflexivity|]. split; [exact Hroute|].
  destruct (parcel_is_broadcast path x) as [Hb Hd].
  assert (Hfind : find_node (dst (parcel path x)) (nodes net)
                  = Some (node (VStr "window") (dst (parcel path x)) (neighbours x))).
  { rewrite Hnodes. apply mesh_find. exact (route_window _ _ Hroute). }
  rewrite (step_relay net k _ others _ _ Hpick Hfind Hb Hd) in Hstep.
  injection Hstep as <-. reflexivity.
Qed.

Lemma mesh_step_relaying (net net' : Network.t) (k : nat) :
  relaying net ->
  step dispatch net k = Some net' ->
  relaying net' /\ load_of names (inflight net') < load_of names (inflight net).
Proof.
  intros Hinv Hstep.
  destruct (mesh_step net net' k Hinv Hstep) as (path & x & others & Hpick & Hroute & ->).
  destruct Hinv as (Hnodes & Hgood & Hnodup & Hparent & Hposted & Hfirst).
  pose proof (pick_Permutation _ _ _ _ Hpick) as Hperm.
  set (children := relayed x (neighbours x) (along m0 path)).
  assert (Hchildren : forall q, In q children <->
            exists y, q = parcel (path ++ [x]) y
                      /\ In y (neighbours x) /\ ~ In y (a :: path ++ [x])).
  { intros q. unfold children. rewrite relayed_carried, in_map_iff. split.
    - intros (y & <- & Hy). apply filter_In in Hy. destruct Hy as [Hy He].
      exists y. apply eligible_along in He. auto.
    - intros (y & -> & Hy & Hfresh). exists y. split; [reflexivity|].
      apply filter_In. split; [exact Hy|]. apply eligible_along. exact Hfresh. }
  assert (Hall : Permutation ((history net ++ [parcel path x]) ++ others ++ children)
                             ((history net ++ inflight net) ++ children)).
  { rewrite <- !app_assoc. apply Permutation_app_head. cbn [app].
    rewrite app_comm_cons. apply Permutation_app_tail. symmetry. exact Hperm. }
  assert (Hmem : forall q,
             In q ((history net ++ [parcel path x]) ++ others ++ children)
             <-> In q (history net ++ inflight net) \/ In q children).
  { intros q. rewrite <- in_app_iff. split; apply Permutation_in;
      [exact Hall | symmetry; exact Hall]. }
  assert (Hpending : In (parcel path x) (inflight net)).
  { apply (Permutation_in _ (Permutation_sym Hperm)). left. reflexivity. }
  assert (Hnew : ~ In (parcel path x) (history net)).
  { intros Hold. apply NoDup_remove_2 with (a := parcel path x) (l := history net)
                   (l' := others).
    - apply (Permutation_NoDup (l := history net ++ inflight net)); [|exact Hnodup].
      apply Permutation_app_head. exact Hperm.
    - apply in_app_iff. left. exact Hold. }
  split.
  - unfold mesh_relaying. cbn [nodes history inflight].
    split; [exact Hnodes|]. split; [|split; [|split; [|split]]].
    + intros q Hq. apply Hmem in Hq. destruct Hq as [Hq|Hq]; [exact (Hgood q Hq)|].
      apply Hchildren in Hq. destruct Hq as (y & -> & Hy & Hfresh).
      exists (path ++ [x]), y. split; [reflexivity|].
      apply route_next; assumption.
    + apply (Permutation_NoDup (Permutation_sym Hall)).
      apply NoDup_app; [exact Hnodup| |].
      * unfold children. rewrite relayed_carried. apply NoDup_map_carried.
        apply NoDup_filter, distinct. exact (route_window _ _ Hroute).
      * intros q Hq Hchild. apply Hchildren in Hchild.
        destruct Hchild as (y & -> & _). apply Hnew. exact (Hparent _ _ _ Hq).
    + intros path1 x1 y1 Hq. apply Hmem in Hq. apply in_app_iff.
      destruct Hq as [Hq|Hq]; [left; exact (Hparent _ _ _ Hq)|].
      apply Hchildren in Hq. destruct Hq as (y & Heq & _).
      apply carried_inj in Heq. destruct Heq as [Heq _].
      apply app_inj_tail in Heq. destruct Heq as [-> ->]. right. left. reflexivity.
    + intros path1 x1 y1 Hq Hy Hfresh. apply Hmem. apply in_app_iff in Hq.
      destruct Hq as [Hq|[Hq|[]]]; [left; exact (Hposted _ _ _ Hq Hy Hfresh)|].
      apply carried_inj in Hq. destruct Hq as [-> ->].
      right. apply Hchildren. exists y1. auto.
    + intros y Hy. apply Hmem. left. exact (Hfirst y Hy).
  - cbn [inflight]. rewrite (load_of_Permutation names _ _ Hperm), load_of_app.
    change (load_of names (parcel path x :: others))
      with (weight names (parcel path x) + load_of names others).
    pose proof (relay_load path x Hroute). fold children in H. lia.
Qed.

Lemma mesh_run (schedule : list nat) :
  forall net net' : Network.t,
    relaying net ->
    run dispatch schedule net = Some net' ->
    relaying net'
    /\ List.length schedule + load_of names (inflight net') <= load_of names (inflight net).
Proof.
  induction schedule as [|k schedule IH]; intros net net' Hinv; cbn [run].
  - intros [= <-]. split; [exact Hinv|cbn; lia].
  - destruct (step dispatch net k) as [net1|] eqn:Hstep; [|discriminate].
    intros Hrun. destruct (mesh_step_relaying _ _ _ Hinv Hstep) as [Hinv1 Hless].
    destruct (IH _ _ Hinv1 Hrun) as [Hinv' Hle]. split; [exact Hinv'|cbn; lia].
Qed.

Lemma mesh_drains (n : nat) :
  forall net : Network.t,
    relaying net ->
    load_of names (inflight net) <= n ->
    exists k net', run dispatch (repeat 0 k) net = Some net' /\ inflight net' = [].
Proof.
  induction n as [|n IH]; intros net Hinv Hload.
  - destruct (inflight net) as [|p others] eqn:E.
    + exists 0, net. split; [reflexivity|exact E].
    + exfalso. unfold load_of in Hload. cbn in Hload.
      pose proof (budget_positive
                    (List.length (unvisited names (WindowMessage.hops (body p))))).
      unfold weight in Hload. lia.
  - destruct (inflight net) as [|p others] eqn:E.
    + exists 0, net. split; [reflexivity|exact E].
    + destruct (step_total dispatch net p others E) as (net1 & Hstep).
      destruct (mesh_step_relaying _ _ _ Hinv Hstep) as [Hinv1 Hless].
      rewrite E in Hless.
      destruct (IH net1 Hinv1 ltac:(lia)) as (k & net' & Hrun & Hempty).
      exists (S k), net'. cbn [repeat run]. rewrite Hstep. split; assumption.
Qed.

Lemma mesh_start :
  start = Network.mk (nodes (mesh names neighbours)) (map (parcel []) (neighbours a)) []
  /\ relaying start
  /\ load_of names (inflight start) < budget (List.length names).
Proof.
  assert (Hstart : start = Network.mk (nodes (mesh names neighbours))
                             (map (parcel []) (neighbours a)) []).
  { rewrite (call_broadcast _ a (VStr "window") (neighbours a) data authentication
               (mesh_find a a_window)).
    reflexivity. }
  split; [exact Hstart|]. rewrite Hstart. split.
  - unfold mesh_relaying. cbn [nodes history inflight app].
    split; [reflexivity|]. split; [|split; [|split; [|split]]].
    + intros p Hp. apply in_map_iff in Hp. destruct Hp as (y & <- & Hy).
      exists [], y. split; [reflexivity|]. apply route_first; [exact Hy|].
      intros ->. exact (not_own Hy).
    + apply NoDup_map_carried, distinct, a_window.
    + intros path x y Hq. apply in_map_iff in Hq. destruct Hq as (z & Hz & _).
      apply carried_inj in Hz. destruct Hz as [Hz _].
      destruct path; discriminate.
    + intros path x y [].
    + intros y Hy. apply in_map. exact Hy.
  - cbn [inflight].
    rewrite (load_of_same names _ (budget (List.length (unvisited names (map VStr [a]))))).
    2:{ intros p Hp. apply in_map_iff in Hp. destruct Hp as (y & <- & _).
        apply parcel_weight. }
    rewrite length_map.
    set (j := List.length (unvisited names (map VStr [a]))).
    assert (Hcount : List.length (neighbours a) <= j).
    { apply NoDup_incl_length; [apply distinct, a_window|].
      intros y Hy. apply filter_In. split; [exact (closed _ _ a_window Hy)|].
      apply not_in_array_names. cbn. intros [->|[]]. exact (not_own Hy). }
    assert (Hj : j < List.length names).
    { unfold j, unvisited.
      rewrite <- (filter_true names) at 2.
      apply (filter_shorter _ _ names a); auto.
      apply not_true_iff_false. rewrite not_in_array_names. cbn. tauto. }
    pose proof (budget_mono (S j) (List.length names) Hj) as Hb.
    change (budget (S j)) with (1 + j * budget j) in Hb. nia.
Qed.

(** X7.  In any network of windows, whatever sessions they hold with each
    other, a broadcast settles.  Whatever the order of the deliveries,
    there are fewer of them than [budget] of the number of windows; the
    managers stay as they were; every envelope posted carries in its hops
    the windows it has been through, from the broadcaster on, each a
    neighbour of the one before and none twice, the window it is posted to
    not among them, so none comes back to the broadcaster; and delivering
    the oldest envelope first, again and again, leaves nothing in flight. *)
Theorem broadcast_settles_in_every_network :
  forall (schedule : list nat) (net : Network.t),
    run dispatch schedule start = Some net ->
    List.length schedule < budget (List.length names)
    /\ nodes net = nodes (mesh names neighbours)
    /\ (forall p, In p (history net ++ inflight net) ->
          exists path,
            p = carried a data authentication path (dst p)
            /\ WindowMessage.hops (body p) = map VStr (a :: path)
            /\ NoDup (a :: path ++ [dst p])
            /\ walk neighbours (a :: path ++ [dst p]))
    /\ delivered_to a (history net ++ inflight net) = 0
    /\ exists k net',
         run dispatch (repeat 0 k) net = Some net' /\ inflight net' = [].
Proof.
  intros schedule net Hrun.
  destruct mesh_start as (_ & Hinv0 & Hload0).
  destruct (mesh_run schedule _ _ Hinv0 Hrun) as [Hinv Hle].
  split; [lia|]. split; [apply Hinv|].
  assert (Hgood : forall p, In p (history net ++ inflight net) ->
            exists path,
              p = carried a data authentication path (dst p)
              /\ WindowMessage.hops (body p) = map VStr (a :: path)
              /\ NoDup (a :: path ++ [dst p])
              /\ walk neighbours (a :: path ++ [dst p])).
  { intros p Hp. destruct Hinv as (_ & Hgood & _).
    destruct (Hgood p Hp) as (path & y & -> & Hroute).
    exists path. change (dst (carried a data authentication path y)) with y.
    split; [reflexivity|]. split.
    - change (body (carried a data authentication path y)) with (along m0 path).
      destruct (along_fields m0 path) as [-> _]. reflexivity.
    - apply route_simple. exact Hroute. }
  split; [exact Hgood|]. split.
  - unfold delivered_to.
    replace (filter (fun p => String.eqb (dst p) a) (history net ++ inflight net))
      with (@nil packet); [reflexivity|].
    symmetry. induction (history net ++ inflight net) as [|p l IH]; [reflexivity|].
    cbn [filter]. destruct (Hgood p (or_introl eq_refl)) as (path & _ & _ & Hn & _).
    destruct (String.eqb (dst p) a) eqn:E.
    + apply String.eqb_eq in E. inversion Hn as [|? ? Hin _]. exfalso. apply Hin.
      apply in_app_iff. right. left. exact E.
    + apply IH. intros q Hq. apply Hgood. right. exact Hq.
  - exact (mesh_drains _ net Hinv (Nat.le_refl _)).
Qed.

(** X8.  Once nothing is in flight, the envelopes delivered are exactly the
    routes of the network from the broadcaster: for each way of going from
    the broadcaster to a window along neighbours without visiting a window
    twice, that window has been delivered the envelope with these hops,
    once, and it has been delivered nothing else.  A window that can be
    reached in several such ways gets the broadcast once for each. *)
Theorem broadcast_takes_every_route_once :
  forall (schedule : list nat) (net : Network.t),
    run dispatch schedule start = Some net ->
    inflight net = [] ->
    NoDup (history net)
    /\ (forall path y,
          In (carried a data authentication path y) (history net)
          <-> NoDup (a :: path ++ [y]) /\ walk neighbours (a :: path ++ [y]))
    /\ (forall p, In p (history net) ->
          exists path, p = carried a data authentication path (dst p)).
Proof.
  intros schedule net Hrun Hempty.
  destruct mesh_start as (_ & Hinv0 & _).
  destruct (mesh_run schedule _ _ Hinv0 Hrun) as [Hinv _].
  destruct Hinv as (_ & Hgood & Hnodup & _ & Hposted & Hfirst).
  rewrite Hempty, app_nil_r in *.
  split; [exact Hnodup|]. split.
  - intros path y. rewrite <- route_simple. split.
    + intros Hin. destruct (Hgood _ Hin) as (path' & y' & Heq & Hroute).
      apply carried_inj in Heq. destruct Heq as [-> ->]. exact Hroute.
    + induction 1 as [y Hy _|path x y _ IH Hy Hfresh].
      * exact (Hfirst y Hy).
      * exact (Hposted _ _ _ IH Hy Hfresh).
  - intros p Hp. destruct (Hgood p Hp) as (path & y & -> & _).
    exists path. reflexivity.
Qed.

End Mesh.

Lemma five_windows_network :
  In "a" five_windows
  /\ (forall x, In x five_windows -> NoDup (five_neighbours x))
  /\ (forall x y, In x five_windows -> In y (five_neighbours x) -> In y five_windows)
  /\ ~ In "a" (five_neighbours "a").
Proof.
  split; [cbn; auto|]. split; [|split].
  - intros x [<-|[<-|[<-|[<-|[<-|[]]]]]]; cbn;
      repeat constructor; cbn; intuition discriminate.
  - intros x y [<-|[<-|[<-|[<-|[<-|[]]]]]]; cbn; intuition.
  - cbn. intuition discriminate.
Qed.

Lemma broadcast_settles_in_every_network_witness :
  exists net,
    run dispatch [1; 0; 2]
        (call "a" (broadcast (VStr "hello") VUndefined) (mesh five_windows five_neighbours))
    = Some net
    /\ List.length [1; 0; 2] < budget (List.length five_windows)
    /\ delivered_to "a" (history net ++ inflight net) = 0.
Proof.
  destruct five_windows_network as (Ha & Hdistinct & Hclosed & Hown).
  destruct (run dispatch [1; 0; 2]
              (call "a" (broadcast (VStr "hello") VUndefined)
                    (mesh five_windows five_neighbours)))
    as [net|] eqn:Hrun; [|vm_compute in Hrun; discriminate].
  exists net. split; [reflexivity|].
  destruct (broadcast_settles_in_every_network
              five_windows five_neighbours "a" (VStr "hello") VUndefined
              Ha Hdistinct Hclosed Hown [1; 0; 2] net Hrun)
    as (Hlength & _ & _ & Hback & _).
  split; assumption.
Defined.

Lemma broadcast_takes_every_route_once_witness :
  exists net,
    run dispatch (repeat 0 14)
        (call "a" (broadcast (VStr "hello") VUndefined) (mesh five_windows five_neighbours))
    = Some net
    /\ inflight net = []
    /\ NoDup (history net)
    /\ In (carried "a" (VStr "hello") VUndefined ["b"; "d"] "e") (history net)
    /\ In (carried "a" (VStr "hello") VUndefined ["c"; "b"; "d"] "e") (history net)
    /\ ~ In (carried "a" (VStr "hello") VUndefined ["b"; "a"] "c") (history net).
Proof.
  destruct five_windows_network as (Ha & Hdistinct & Hclosed & Hown).
  destruct (run dispatch (repeat 0 14)
              (call "a" (broadcast (VStr "hello") VUndefined)
                    (mesh five_windows five_neighbours)))
    as [net|] eqn:Hrun; [|vm_compute in Hrun; discriminate].
  assert (Hempty : inflight net = []).
  { vm_compute in Hrun. injection Hrun as <-. reflexivity. }
  exists net. split; [reflexivity|]. split; [exact Hempty|].
  destruct (broadcast_takes_every_route_once
              five_windows five_neighbours "a" (VStr "hello") VUndefined
              Ha Hdistinct Hclosed Hown (repeat 0 14) net Hrun Hempty)
    as (Honce & Hroutes & _).
  split; [exact Honce|]. split; [|split].
  - apply Hroutes. split; [repeat constructor; cbn; intuition discriminate|cbn; tauto].
  - apply Hroutes. split; [repeat constructor; cbn; intuition discriminate|cbn; tauto].
  - intros Hin. apply Hroutes in Hin. destruct Hin as [Hnodup _].
    inversion Hnodup as [|? ? Hfirst _]. apply Hfirst. cbn. auto.
Defined.


(** ** The methods that only read *)

Lemma sessionExists_search (table : list (string * ref)) (self : WindowManager.t)
      (type_ : value) :
  for_in table (fun _ session =>
    s <- load session ;;
    if strict_eq (WindowSession.type s) type_ then ret (Some true) else ret None) self
  = (self, [], Normal (if is_some (first_of_type self type_ table) then Some true else None)).
Proof.
  unfold first_of_type.
  induction table as [|[i session] table IH]; [reflexivity|].
  cbn [for_in find snd]. mstep.
  destruct (strict_eq (WindowSession.type (deref self session)) type_); mstep.
  - reflexivity.
  - exact IH.
Qed.

Lemma getSession_search (table : list (string * ref)) (self : WindowManager.t)
      (type_ : value) :
  for_in table (fun _ session =>
    s <- load session ;;
    if strict_eq (WindowSession.type s) type_ then ret (Some session) else ret None) self
  = (self, [], Normal (first_of_type self type_ table)).
Proof.
  unfold first_of_type.
  induction table as [|[i session] table IH]; [reflexivity|].
  cbn [for_in find snd]. mstep.
  destruct (strict_eq (WindowSession.type (deref self session)) type_); mstep.
  - reflexivity.
  - exact IH.
Qed.

Lemma logSessions_loop (table : list (string * ref)) (self : WindowManager.t) :
  exists tr,
    for_in (A := unit) table (fun i session =>
      s <- load session ;;
      emit (Console log
              ("     " ++ to_string (WindowSession.uuid s) ++ " | "
               ++ to_string (WindowSession.type s) ++ " -> "
               ++ match WindowSession.gateway s with
                  | None => "*"
                  | Some (Peer g) => to_string (WindowSession.uuid (deref self g))
                  | Some (Member _) => "undefined"
                  end)) ;;
      ret None) self
    = (self, tr, Normal None)
    /\ List.length (console log tr) = List.length table
    /\ List.length tr = List.length table.
Proof.
  induction table as [|[i session] table (tr & Hrun & Hlog & Hall)].
  - exists []. repeat split.
  - cbn [for_in]. mstep. rewrite Hrun. eexists. split; [reflexivity|].
    unfold console in *. cbn [flat_map app List.length]. rewrite Hlog, Hall.
    split; reflexivity.
Qed.

(** X9.  [getSession] returns the first session of the table, in
    enumeration order, whose type is strictly equal to the one asked for,
    and [null] exactly when no session has it; [sessionExists] returns true
    exactly when [getSession] returns a session; [logSessions] writes the
    heading and one line for each session and nothing else.  None of the
    three changes the manager, sends an envelope or calls a callback or a
    session. *)
Theorem getSession_and_sessionExists_agree :
  forall (self : WindowManager.t) (type_ : value),
    let found := first_of_type self type_ (sessions self) in
    getSession type_ self = (self, [], Normal found)
    /\ sessionExists type_ self = (self, [], Normal (is_some found))
    /\ (forall session, found = Some session ->
          exists i, In (i, session) (sessions self)
                    /\ strict_eq (WindowSession.type (deref self session)) type_ = true)
    /\ (found = None ->
        forall i session, In (i, session) (sessions self) ->
          strict_eq (WindowSession.type (deref self session)) type_ = false)
    /\ state_of (logSessions self) = self
    /\ completion_of (logSessions self) = Normal tt
    /\ List.length (console log (trace_of (logSessions self)))
       = S (List.length (sessions self))
    /\ List.length (trace_of (logSessions self)) = S (List.length (sessions self)).
Proof.
  intros self type_ found. subst found. split; [|split; [|split; [|split]]].
  - unfold getSession. rewrite bind_get. apply getSession_search.
  - unfold sessionExists. rewrite bind_get.
    erewrite bind_Normal by apply sessionExists_search.
    destruct (first_of_type self type_ (sessions self)); reflexivity.
  - unfold first_of_type. intros session Hfound.
    destruct (find _ (sessions self)) as [[i s]|] eqn:Hfind; [|discriminate].
    injection Hfound as <-. apply find_some in Hfind. exists i. exact Hfind.
  - unfold first_of_type. intros Hnone i session Hin.
    destruct (find _ (sessions self)) as [[j s]|] eqn:Hfind; [discriminate|].
    exact (find_none _ _ Hfind _ Hin).
  - destruct (logSessions_loop (sessions self) self) as (tr & Hrun & Hlog & Hall).
    unfold logSessions. rewrite bind_get, bind_emit.
    erewrite bind_Normal by exact Hrun.
    unfold state_of, completion_of, trace_of. cbn [fst snd ret].
    rewrite ?app_nil_r. unfold console in *. cbn [flat_map app List.length].
    rewrite Hlog, Hall. repeat split.
Qed.

Lemma sessionAvailable_loop (window : list (string * value)) (m action : value)
      (table : list (string * ref)) (self : WindowManager.t) (type_ : value) :
  assoc "message" window = Some m ->
  get_property m "action" = inl action ->
  for_in table (fun _ session =>
    s <- load session ;;
    if strict_eq (WindowSession.type s) type_ then ret (Some true)
    else
      message <- resolve window "message" ;;
      action <- lift (get_property message "action") ;;
      if strict_neq action (VNum WindowMessage.CLOSED) then ret (Some true)
      else ret None) self
  = (self, [],
     Normal (if strict_neq action (VNum WindowMessage.CLOSED)
             then match table with [] => None | _ :: _ => Some true end
             else if is_some (first_of_type self type_ table) then Some true else None)).
Proof.
  intros Hbound Haction. unfold first_of_type.
  destruct (strict_neq action (VNum WindowMessage.CLOSED)) eqn:E.
  - destruct table as [|[i session] table]; [reflexivity|].
    cbn [for_in]. mstep.
    destruct (strict_eq (WindowSession.type (deref self session)) type_); mstep;
      [reflexivity|].
    unfold resolve. rewrite Hbound. mstep. rewrite Haction. mstep. rewrite E. mstep.
    reflexivity.
  - induction table as [|[i session] table IH]; [reflexivity|].
    cbn [for_in find snd]. mstep.
    destruct (strict_eq (WindowSession.type (deref self session)) type_); mstep;
      [reflexivity|].
    unfold resolve at 1. rewrite Hbound. mstep. rewrite Haction. mstep. rewrite E. mstep.
    exact IH.
Qed.

(** X10.  Where the global object does have a property [message] (C10 has
    the other case), [sessionAvailable(type)] never looks at more than
    that object's [action]: when it is not CLOSED the answer is true for
    every type as soon as the table has a session, and false on an empty
    table; when it is CLOSED the answer is that of [sessionExists].  The
    manager is untouched. *)
Theorem sessionAvailable_with_a_global_message :
  forall (window : list (string * value)) (self : WindowManager.t) (type_ m action : value),
    assoc "message" window = Some m ->
    get_property m "action" = inl action ->
    sessionAvailable window type_ self
    = (self, [],
       Normal (if strict_neq action (VNum WindowMessage.CLOSED)
               then negb (Nat.eqb (List.length (sessions self)) 0)
               else is_some (first_of_type self type_ (sessions self))))
    /\ (strict_neq action (VNum WindowMessage.CLOSED) = false ->
        sessionAvailable window type_ self = sessionExists type_ self).
Proof.
  intros window self type_ m action Hbound Haction.
  assert (Hrun : sessionAvailable window type_ self
                 = (self, [],
                    Normal (if strict_neq action (VNum WindowMessage.CLOSED)
                            then negb (Nat.eqb (List.length (sessions self)) 0)
                            else is_some (first_of_type self type_ (sessions self))))).
  { unfold sessionAvailable. rewrite bind_get.
    erewrite bind_Normal by exact (sessionAvailable_loop _ _ _ _ _ _ Hbound Haction).
    destruct (strict_neq action (VNum WindowMessage.CLOSED)).
    - destruct (sessions self); reflexivity.
    - destruct (first_of_type self type_ (sessions self)); reflexivity. }
  split; [exact Hrun|]. intros Hclosed. rewrite Hrun, Hclosed.
  unfold sessionExists. rewrite bind_get.
  erewrite bind_Normal by apply sessionExists_search.
  destruct (first_of_type self type_ (sessions self)); reflexivity.
Qed.

Lemma sessionAvailable_with_a_global_message_witness :
  sessionAvailable page_with_element (VStr "Editor") router_R_both
  = (router_R_both, [], Normal true)
  /\ sessionAvailable page_with_closed_envelope (VStr "Editor") router_R_both
     = (router_R_both, [], Normal false).
Proof.
  split.
  - exact (proj1 (sessionAvailable_with_a_global_message
                    page_with_element router_R_both (VStr "Editor") (VObj []) VUndefined
                    eq_refl eq_refl)).
  - exact (proj1 (sessionAvailable_with_a_global_message
                    page_with_closed_envelope router_R_both (VStr "Editor")
                    (VObj [("action", VNum WindowMessage.CLOSED)])
                    (VNum WindowMessage.CLOSED) eq_refl eq_refl)).
Defined.

(** ** Envelopes one after the other *)

Lemma In_remove_key {A : Type} (k k' : string) (a : A) (l : list (string * A)) :
  In (k', a) (remove_key k l) -> In (k', a) l /\ k' <> k.
Proof.
  induction l as [|[k0 b] l IH]; cbn; [tauto|].
  destruct (String.eqb k k0) eqn:E.
  - intros H. destruct (IH H). auto.
  - intros [[= <- <-]|H].
    + split; [auto|]. apply String.eqb_neq in E. congruence.
    + destruct (IH H). auto.
Qed.

(** One run of the listener, however it completes: the table it leaves and
    the sessions it sends to. *)
Lemma dispatch_summary (self : WindowManager.t) (message : WindowMessage.t) :
  exists self' tr c,
    dispatch message self = (self', tr, c)
    /\ (sessions self' = sessions self
        \/ sessions self'
           = remove_key (to_key (WindowMessage.originUUID message)) (sessions self))
    /\ (forall session m, In (session, m) (sends tr) ->
          exists key, In (key, session) (sessions self)).
Proof.
  assert (Hquiet : forall (tr : list effect) (c : completion unit), sends tr = [] ->
            exists self' tr' c',
              (self, tr, c) = (self', tr', c')
              /\ (sessions self' = sessions self
                  \/ sessions self'
                     = remove_key (to_key (WindowMessage.originUUID message))
                                  (sessions self))
              /\ (forall session m, In (session, m) (sends tr') ->
                    exists key, In (key, session) (sessions self))).
  { intros tr c Hnone. exists self, tr, c. rewrite Hnone.
    split; [reflexivity|]. split; [left; reflexivity|]. intros s m []. }
  destruct (WindowMessage.has_action message WindowMessage.READY) eqn:Hready.
  { unfold dispatch. rewrite bind_get, Hready. apply Hquiet. reflexivity. }
  destruct (for_somebody_else self message) eqn:Helse.
  { rewrite dispatch_for_somebody_else, redirect_run by assumption.
    destruct (sessions_get_cases self (read (WindowMessage.destinationUUID message)))
      as [(session & Hs & ->)|[(Hs & Hown & ->)|(Hs & Hown & ->)]];
      [|apply Hquiet; reflexivity|apply Hquiet; reflexivity].
    eexists _, _, _. split; [reflexivity|]. split; [auto|].
    cbn. intros s m [[= <- <-]|[]].
    exists (to_key (read (WindowMessage.destinationUUID message))).
    apply assoc_In. exact Hs. }
  rewrite dispatch_for_self by assumption.
  destruct (WindowMessage.has_action message WindowMessage.CLOSED).
  { rewrite on_closed_run.
    destruct (sessions_get self (WindowMessage.originUUID message)) as [[session|name]|];
      [|apply Hquiet; reflexivity|apply Hquiet; reflexivity].
    eexists _, _, _. split; [reflexivity|]. cbn. split; [auto|tauto]. }
  destruct (WindowMessage.has_action message WindowMessage.LOOKUP).
  { rewrite on_lookup_run.
    destruct (sessions_get_cases self (WindowMessage.originUUID message))
      as [(origin & Ho & ->)|[(Ho & Hown & ->)|(Ho & Hown & ->)]];
      [|apply Hquiet; reflexivity|apply Hquiet; reflexivity].
    eexists _, _, _. split; [reflexivity|]. split; [auto|].
    cbn. intros s m [[= <- <-]|[]].
    exists (to_key (WindowMessage.originUUID message)). apply assoc_In. exact Ho. }
  destruct (WindowMessage.has_action message WindowMessage.CONNECT).
  { rewrite on_connect_run.
    destruct (sessions_get self (last (WindowMessage.hops message) VUndefined));
      [|apply Hquiet; reflexivity].
    eexists _, _, _. split; [reflexivity|]. cbn. split; [auto|tauto]. }
  destruct (WindowMessage.has_action message WindowMessage.BROADCAST).
  { destruct (on_broadcast_run self message) as (tr & -> & Hsends).
    eexists _, _, _. split; [reflexivity|]. split; [auto|].
    rewrite Hsends. intros s m Hin. apply in_map_iff in Hin.
    destruct Hin as ([key s'] & [= <- _] & Hin). apply filter_In in Hin.
    exists key. apply Hin. }
  destruct (WindowMessage.has_action message WindowMessage.MESSAGE).
  { destruct (on_message_run self message) as (tr & -> & Hsends).
    destruct (sessions_get self (WindowMessage.originUUID message)) as [[session|name]|];
      (eexists _, _, _; split; [reflexivity|]; rewrite Hsends; cbn; split; [auto|tauto]). }
  apply Hquiet. reflexivity.
Qed.

Lemma deliver_table (messages : list WindowMessage.t) :
  forall (self : WindowManager.t),
    (forall key session, In (key, session) (sessions (fst (deliver messages self))) ->
       In (key, session) (sessions self))
    /\ (forall session m, In (session, m) (sends (snd (deliver messages self))) ->
          exists key, In (key, session) (sessions self)).
Proof.
  induction messages as [|message rest IH]; intros self.
  - cbn. split; [auto|tauto].
  - cbn [deliver].
    destruct (dispatch_summary self message) as (self' & tr & c & Hrun & Htable & Hsends).
    rewrite Hrun. unfold state_of, trace_of. cbn [fst snd].
    destruct (IH self') as [IHtable IHsends].
    destruct (deliver rest self') as [self'' tr']. cbn [fst snd] in *.
    assert (Hkept : forall key session,
               In (key, session) (sessions self') -> In (key, session) (sessions self)).
    { intros key session Hin. destruct Htable as [Heq|Heq]; rewrite Heq in Hin.
      - exact Hin.
      - apply In_remove_key in Hin. apply Hin. }
    split.
    + intros key session Hin. auto.
    + intros session m Hin. rewrite sends_app in Hin. apply in_app_iff in Hin.
      destruct Hin as [Hin|Hin]; [exact (Hsends _ _ Hin)|].
      destruct (IHsends _ _ Hin) as (key & Hkey). exists key. auto.
Qed.

(** X11.  Once the listener has handled a CLOSED envelope from an origin it
    had a session for, that session is out of the table for good: whatever
    envelopes the listener is given afterwards, it finds no session for
    that origin, it never puts one back (the table only ever loses keys),
    and, the session being listed under that key only, it hands nothing
    more to it. *)
Theorem closed_session_is_not_sent_to_again :
  forall (self : WindowManager.t) (closed : WindowMessage.t) (session : ref)
         (later : list WindowMessage.t),
    WindowMessage.has_action closed WindowMessage.CLOSED = true ->
    for_somebody_else self closed = false ->
    session_at self (WindowMessage.originUUID closed) = Some session ->
    (forall key, In (key, session) (sessions self) ->
       key = to_key (WindowMessage.originUUID closed)) ->
    let self' := state_of (dispatch closed self) in
    let after := deliver later self' in
    session_at self' (WindowMessage.originUUID closed) = None
    /\ session_at (fst after) (WindowMessage.originUUID closed) = None
    /\ (forall key, ~ In (key, session) (sessions (fst after)))
    /\ (forall key s, In (key, s) (sessions (fst after)) -> In (key, s) (sessions self))
    /\ (forall s m, In (s, m) (sends (snd after)) -> s <> session).
Proof.
  intros self closed session later Hclosed Helse Hsession Honly self' after.
  assert (Hself' : sessions self'
                   = remove_key (to_key (WindowMessage.originUUID closed)) (sessions self)).
  { subst self'. rewrite (dispatch_branch self closed WindowMessage.CLOSED Hclosed Helse).
    cbn [Z.eqb WindowMessage.READY WindowMessage.CLOSED Pos.eqb].
    rewrite on_closed_run, (sessions_get_listed _ _ _ Hsession). reflexivity. }
  destruct (deliver_table later self') as [Htable Hsends]. fold after in Htable, Hsends.
  assert (Hgone : forall key, ~ In (key, session) (sessions self')).
  { intros key Hin. rewrite Hself' in Hin. apply In_remove_key in Hin.
    destruct Hin as [Hin Hne]. apply Hne. exact (Honly key Hin). }
  split; [|split; [|split; [|split]]].
  - unfold session_at. rewrite Hself'. apply assoc_remove_key_same.
  - unfold session_at.
    destruct (assoc (to_key (WindowMessage.originUUID closed)) (sessions (fst after)))
      as [s|] eqn:Hs; [|reflexivity].
    apply assoc_In in Hs. apply Htable in Hs. rewrite Hself' in Hs.
    apply In_remove_key in Hs. destruct Hs as [_ Hne]. congruence.
  - intros key Hin. exact (Hgone key (Htable _ _ Hin)).
  - intros key s Hin. apply Htable in Hin. rewrite Hself' in Hin.
    apply In_remove_key in Hin. apply Hin.
  - intros s m Hin -> . destruct (Hsends _ _ Hin) as (key & Hkey). exact (Hgone key Hkey).
Qed.

Lemma closed_session_is_not_sent_to_again_witness :
  session_at (state_of (dispatch closed_from_G router_R_two)) (VStr "G") = None
  /\ forall s m,
       In (s, m) (sends (snd (deliver [message_from_G; lookup_from_G; broadcast_from_G;
                                       message_for_G]
                                      (state_of (dispatch closed_from_G router_R_two))))) ->
       s <> 0.
Proof.
  assert (Honly : forall key, In (key, 0) (sessions router_R_two) -> key = "G").
  { cbn. intros key [[= <-]|[[=]|[]]]. reflexivity. }
  pose proof (closed_session_is_not_sent_to_again
                router_R_two closed_from_G 0
                [message_from_G; lookup_from_G; broadcast_from_G; message_for_G]
                eq_refl eq_refl eq_refl Honly) as H.
  cbv zeta in H. destruct H as (Hgone & _ & _ & _ & Hsends).
  split; [exact Hgone|exact Hsends].
Defined.

(** X12.  A CONNECT envelope that a window relays to its destination is
    bound there to the session of the relaying window: the relay hands the
    envelope, its own uuid added to the hops, to the session keyed by the
    destination and stays as it was; the destination, given that envelope,
    adds one session object with the uuid and type of the origin and, as
    gateway, the session it keeps for the relay, whatever hops the envelope
    had before. *)
Theorem relayed_CONNECT_binds_the_relay :
  forall (relay target : WindowManager.t) (message : WindowMessage.t)
         (to_target to_relay : ref),
    WindowMessage.has_action message WindowMessage.CONNECT = true ->
    WindowMessage.destinationUUID message = Some (VStr (uuid target)) ->
    uuid relay <> uuid target ->
    session_at relay (VStr (uuid target)) = Some to_target ->
    session_at target (VStr (uuid relay)) = Some to_relay ->
    let forwarded := WindowMessage.push_hop message (VStr (uuid relay)) in
    let r := dispatch message relay in
    let r' := dispatch forwarded target in
    state_of r = relay
    /\ sends (trace_of r) = [(to_target, forwarded)]
    /\ store (state_of r') = store target ++ [connected_session message (Peer to_relay)]
    /\ WindowSession.gateway (deref (state_of r') (List.length (store target)))
       = Some (Peer to_relay)
    /\ WindowSession.uuid (deref (state_of r') (List.length (store target)))
       = WindowMessage.originUUID message
    /\ sessions (state_of r') = sessions target
    /\ sends (trace_of r') = [].
Proof.
  intros relay target message to_target to_relay Hconnect Hdest Hne Hto Hback
         forwarded r r'.
  assert (Hready : WindowMessage.has_action message WindowMessage.READY = false).
  { apply (has_action_exclusive _ _ _ Hconnect). discriminate. }
  assert (Helse : for_somebody_else relay message = true).
  { apply for_somebody_else_spec. exists (VStr (uuid target)).
    split; [exact Hdest|]. split; [discriminate|]. congruence. }
  assert (Hself : for_somebody_else target forwarded = false).
  { unfold for_somebody_else, forwarded. cbn [WindowMessage.push_hop
      WindowMessage.destinationUUID]. rewrite Hdest. cbn [read].
    unfold strict_neq at 2. cbn [strict_eq]. rewrite String.eqb_refl.
    apply andb_false_r. }
  assert (Hr : r = (relay,
                    [Console warn
                       ("TabTalk: Destination UUID diferent from self, destination is "
                        ++ to_string (VStr (uuid target)));
                     Send to_target forwarded;
                     Console log "TabTalk: Redirected message to destination."],
                    Normal tt)).
  { subst r. rewrite dispatch_for_somebody_else, redirect_run by assumption.
    rewrite Hdest. cbn [read]. rewrite (sessions_get_listed _ _ _ Hto). reflexivity. }
  assert (Hr' : r' = (set_store target
                        (store target ++ [connected_session forwarded (Peer to_relay)]),
                      [Method (List.length (store target)) "waitReady";
                       Method (List.length (store target)) "acknowledge";
                       Console warn
                         "TabTalk: Connect message received, creating a new session."],
                      Normal tt)).
  { subst r'.
    rewrite (dispatch_branch target forwarded WindowMessage.CONNECT Hconnect Hself).
    cbn [Z.eqb WindowMessage.READY WindowMessage.CLOSED WindowMessage.LOOKUP
         WindowMessage.CONNECT Pos.eqb].
    rewrite on_connect_run. unfold forwarded at 1.
    cbn [WindowMessage.push_hop WindowMessage.hops].
    rewrite last_last, (sessions_get_listed _ _ _ Hback).
    reflexivity. }
  rewrite Hr, Hr'. unfold state_of, trace_of, deref. cbn [fst snd store set_store sessions].
  rewrite app_nth2, Nat.sub_diag by lia. cbn [nth].
  repeat split.
Qed.

Lemma relayed_CONNECT_binds_the_relay_witness :
  sends (trace_of (dispatch connect_unrouted router_G))
  = [(0, connect_through_G)]
  /\ WindowSession.gateway
       (deref (state_of (dispatch connect_through_G router_R_two)) 2) = Some (Peer 0)
  /\ WindowSession.uuid
       (deref (state_of (dispatch connect_through_G router_R_two)) 2) = VStr "X".
Proof.
  assert (Hne : uuid router_G <> uuid router_R_two) by discriminate.
  pose proof (relayed_CONNECT_binds_the_relay
                router_G router_R_two connect_unrouted 0 0
                eq_refl eq_refl Hne eq_refl eq_refl) as H.
  cbv zeta in H. destruct H as (_ & Hsent & _ & Hgateway & Huuid & _).
  split; [exact Hsent|]. split; [exact Hgateway|exact Huuid].
Defined.


(** ** The second listing *)




(** The loop of the BROADCAST branch of the second listing. *)
Lemma second_listing_on_broadcast_loop (self : WindowManager.t) (m : WindowMessage.t)
      (table : list (string * ref)) :
  exists tr,
    for_in (A := unit) table (fun _ session =>
      s <- load session ;;
      if strict_neq (WindowSession.uuid s) (WindowMessage.originUUID m)
      then
        send session m ;;
        call_if_set (WindowSession.onBroadcastMessage s)
          [Val (read (WindowMessage.data m));
           Val (read (WindowMessage.authentication m))] ;;
        ret None
      else ret None) self
    = (self, tr, Normal None)
    /\ sends tr
       = map (fun p => (snd p, m))
           (filter (fun p => strict_neq (WindowSession.uuid (deref self (snd p)))
                                        (WindowMessage.originUUID m))
                   table).
Proof.
  induction table as [|[i session] table (tr & Hrun & Hsends)].
  - exists []. split; reflexivity.
  - cbn [for_in filter snd]. mstep.
    destruct (strict_neq (WindowSession.uuid (deref self session))
                (WindowMessage.originUUID m)).
    + destruct (WindowSession.onBroadcastMessage (deref self session));
        cbn [call_if_set]; mstep;
        rewrite Hrun; eexists; (split; [reflexivity|]);
        unfold sends in *; cbn [flat_map app map snd]; rewrite Hsends; reflexivity.
    + mstep. rewrite Hrun. eexists. split; [reflexivity|]. assumption.
Qed.

Lemma second_listing_on_broadcast_run (self : WindowManager.t)
      (message : WindowMessage.t) :
  exists tr,
    SecondListing.on_broadcast message self = (self, tr, Normal tt)
    /\ sends tr
       = map (fun p => (snd p, message))
           (filter (fun p => strict_neq (WindowSession.uuid (deref self (snd p)))
                                        (WindowMessage.originUUID message))
                   (sessions self)).
Proof.
  unfold SecondListing.on_broadcast. rewrite bind_get, bind_emit.
  destruct (second_listing_on_broadcast_loop self message (sessions self))
    as (tr & Hrun & Hsends).
  unfold call_if_set. destruct (onBroadcastMessage self); mstep;
    (erewrite bind_Normal by exact Hrun); cbn [ret];
    eexists; (split; [reflexivity|]); rewrite app_nil_r; exact Hsends.
Qed.

Lemma second_listing_dispatch_for_self (self : WindowManager.t)
      (message : WindowMessage.t) :
  for_somebody_else self message = false ->
  SecondListing.dispatch message self =
    (if WindowMessage.has_action message WindowMessage.CLOSED
     then SecondListing.on_closed message
     else if WindowMessage.has_action message WindowMessage.LOOKUP then on_lookup message
     else if WindowMessage.has_action message WindowMessage.CONNECT then on_connect message
     else if WindowMessage.has_action message WindowMessage.BROADCAST
     then SecondListing.on_broadcast message
     else if WindowMessage.has_action message WindowMessage.MESSAGE
     then SecondListing.on_message message
     else emit (Console warn "TabTalk: Unknown message type.")) self.
Proof.
  intros Helse. unfold SecondListing.dispatch. rewrite bind_get, Helse. reflexivity.
Qed.





(** A manager built by [node] relaying a broadcast in the second listing:
    the envelope as it came, to every neighbour. *)
Lemma second_listing_node_relays (type_ : value) (name : string)
      (neighbours : list string) (m : WindowMessage.t) :
  WindowMessage.has_action m WindowMessage.BROADCAST = true ->
  WindowMessage.destinationUUID m = None ->
  WindowMessage.originUUID m = VUndefined ->
  exists tr,
    SecondListing.dispatch m (node type_ name neighbours)
    = (node type_ name neighbours, tr, Normal tt)
    /\ posts (node type_ name neighbours) tr
       = map (fun y => mkPacket name y m) neighbours.
Proof.
  intros Hb Hdest Horigin. set (self := node type_ name neighbours).
  rewrite second_listing_dispatch_for_self by auto using no_destination_is_for_self.
  rewrite (has_action_exclusive _ _ WindowMessage.CLOSED Hb) by discriminate.
  rewrite (has_action_exclusive _ _ WindowMessage.LOOKUP Hb) by discriminate.
  rewrite (has_action_exclusive _ _ WindowMessage.CONNECT Hb) by discriminate.
  rewrite Hb.
  destruct (second_listing_on_broadcast_run self m) as (tr & Hrun & Hsends).
  exists tr. split; [exact Hrun|].
  destruct (node_sessions type_ name neighbours) as [Hfst Hall]. fold self in Hfst, Hall.
  assert (Hevery : filter (fun p => strict_neq (WindowSession.uuid (deref self (snd p)))
                                               (WindowMessage.originUUID m))
                          (sessions self) = sessions self).
  { clear Hfst Hsends. rewrite Horigin.
    induction Hall as [|[y i] table Hy _ IH]; [reflexivity|].
    cbn [filter snd fst] in *. rewrite Hy.
    change (strict_neq (WindowSession.uuid (neighbour y)) VUndefined) with true.
    cbv iota. rewrite IH. reflexivity. }
  rewrite posts_sends, Hsends, Hevery, (posts_to_neighbours _ _ _ Hall), Hfst.
  reflexivity.
Qed.

Lemma second_listing_node_broadcasts (type_ : value) (name : string)
      (neighbours : list string) (data authentication : value) :
  exists tr,
    SecondListing.broadcast data authentication (node type_ name neighbours)
    = (node type_ name neighbours, tr, Normal tt)
    /\ posts (node type_ name neighbours) tr
       = map (fun y => mkPacket name y (second_listing_envelope data authentication))
             neighbours.
Proof.
  set (self := node type_ name neighbours).
  unfold SecondListing.broadcast. rewrite bind_get.
  change (manager self) with (VObj []).
  cbn [get_property]. rewrite !bind_lift_inl.
  erewrite bind_Normal by apply for_in_send_all.
  cbn [ret]. rewrite app_nil_r.
  eexists. split; [reflexivity|].
  destruct (node_sessions type_ name neighbours) as [Hfst Hall]. fold self in Hfst, Hall.
  rewrite posts_sends, sends_map_Send, (posts_to_neighbours _ _ _ Hall), Hfst.
  reflexivity.
Qed.

Section SecondMesh.
Variables (names : list string) (neighbours : string -> list string) (a : string).
Variables (data authentication : value).
Hypothesis a_window : In a names.
Hypothesis closed : forall x y, In x names -> In y (neighbours x) -> In y names.
Hypothesis connected : forall x, In x names -> neighbours x <> [].

Local Abbreviation envelope := (second_listing_envelope data authentication).
Local Abbreviation start :=
  (call a (SecondListing.broadcast data authentication) (mesh names neighbours)).
Local Abbreviation circulating :=
  (mesh_circulating names neighbours a data authentication).

Lemma second_mesh_start : circulating start.
Proof.
  unfold call, mesh. cbn [nodes inflight history].
  rewrite (find_node_map (VStr "window") neighbours a names a_window).
  destruct (second_listing_node_broadcasts (VStr "window") a (neighbours a)
              data authentication) as (tr & Hrun & Hposts).
  rewrite Hrun, Hposts.
  rewrite (put_node_same a _ _ (find_node_map (VStr "window") neighbours a names a_window)).
  unfold mesh_circulating, mesh. cbn [nodes history inflight app].
  split; [reflexivity|]. split; [|split].
  - intros p Hp. apply in_map_iff in Hp. destruct Hp as (y & <- & _). reflexivity.
  - intros p Hp. apply in_map_iff in Hp. destruct Hp as (y & <- & Hy).
    exact (closed _ _ a_window Hy).
  - rewrite length_map. lia.
Qed.

Lemma second_mesh_step (net : Network.t) (k : nat) (net' : Network.t) :
  circulating net ->
  step SecondListing.dispatch net k = Some net' ->
  circulating net'.
Proof.
  intros (Hnodes & Hbody & Hdst & Hcount) Hstep. unfold step in Hstep.
  destruct (pick k (inflight net)) as [[p others]|] eqn:Hpick; [|discriminate].
  pose proof (pick_Permutation _ _ _ _ Hpick) as Hperm.
  assert (Hp : In p (inflight net)).
  { apply (Permutation_in _ (Permutation_sym Hperm)). left. reflexivity. }
  assert (Hothers : forall q, In q others -> In q (inflight net)).
  { intros q Hq. apply (Permutation_in _ (Permutation_sym Hperm)). right. exact Hq. }
  pose proof (Hdst p Hp) as Hwindow.
  assert (Henv : body p = envelope) by (apply Hbody, in_app_iff; auto).
  rewrite Hnodes in Hstep. unfold mesh in Hstep.
  cbn [nodes] in Hstep.
  rewrite (find_node_map (VStr "window") neighbours (dst p) names Hwindow) in Hstep.
  destruct (second_listing_node_relays (VStr "window") (dst p) (neighbours (dst p))
              (body p)) as (tr & Hrun & Hposts);
    [rewrite Henv; reflexivity ..|].
  rewrite Hrun, Hposts in Hstep.
  rewrite (put_node_same (dst p) _ _
             (find_node_map (VStr "window") neighbours (dst p) names Hwindow)) in Hstep.
  injection Hstep as <-.
  unfold mesh_circulating, mesh. cbn [nodes history inflight].
  split; [reflexivity|]. split; [|split].
  - intros q Hq. rewrite !in_app_iff in Hq.
    destruct Hq as [[Hq|[<-|[]]]|[Hq|Hq]]; try exact Henv.
    + apply Hbody, in_app_iff. auto.
    + apply Hbody, in_app_iff. auto.
    + apply in_map_iff in Hq. destruct Hq as (y & <- & _). exact Henv.
  - intros q Hq. apply in_app_iff in Hq. destruct Hq as [Hq|Hq]; [auto|].
    apply in_map_iff in Hq. destruct Hq as (y & <- & Hy).
    exact (closed _ _ Hwindow Hy).
  - rewrite length_app, length_map.
    pose proof (Permutation_length Hperm) as Hlen. cbn [List.length] in Hlen.
    pose proof (connected _ Hwindow) as Hsome.
    destruct (neighbours (dst p)); [congruence|]. cbn [List.length]. lia.
Qed.

Lemma second_mesh_run (schedule : list nat) :
  forall net net' : Network.t,
    circulating net ->
    run SecondListing.dispatch schedule net = Some net' ->
    circulating net'.
Proof.
  induction schedule as [|k schedule IH]; intros net net' Hinv; cbn [run].
  - intros [= <-]. exact Hinv.
  - destruct (step SecondListing.dispatch net k) as [net1|] eqn:Hstep; [|discriminate].
    intros Hrun. exact (IH _ _ (second_mesh_step _ _ _ Hinv Hstep) Hrun).
Qed.

Lemma second_mesh_busy (net : Network.t) : circulating net -> inflight net <> [].
Proof.
  intros (_ & _ & _ & Hcount) Hempty. rewrite Hempty in Hcount. cbn in Hcount.
  pose proof (connected _ a_window). destruct (neighbours a); [congruence|].
  cbn in Hcount. lia.
Qed.

Lemma second_mesh_goes_on (n : nat) :
  forall net : Network.t,
    circulating net ->
    exists net', run SecondListing.dispatch (repeat 0 n) net = Some net'.
Proof.
  induction n as [|n IH]; intros net Hinv; [exists net; reflexivity|].
  pose proof (second_mesh_busy net Hinv) as Hbusy.
  destruct (inflight net) as [|p others] eqn:E; [congruence|].
  destruct (step_total SecondListing.dispatch net p others E) as (net1 & Hstep).
  destruct (IH net1 (second_mesh_step _ _ _ Hinv Hstep)) as (net' & Hrun).
  exists net'. cbn [repeat run]. rewrite Hstep. exact Hrun.
Qed.

(** X14.  In the second listing a broadcast never settles.  In any network
    in which every window holds a session for at least one window of the
    network, two windows that hold a session for each other included,
    whatever the order of the deliveries there is always an envelope in
    flight, never fewer than the broadcaster posted; every one of them is
    the envelope as [broadcast] made it, its hops still empty; and the
    deliveries can go on for any number of steps. *)
Theorem second_listing_broadcast_never_settles :
  forall (schedule : list nat) (net : Network.t),
    run SecondListing.dispatch schedule start = Some net ->
    inflight net <> []
    /\ List.length (neighbours a) <= List.length (inflight net)
    /\ (forall p, In p (history net ++ inflight net) ->
          body p = second_listing_envelope data authentication
          /\ WindowMessage.hops (body p) = [])
    /\ nodes net = nodes (mesh names neighbours)
    /\ forall n, exists net',
         run SecondListing.dispatch (repeat 0 n) net = Some net' /\ inflight net' <> [].
Proof.
  intros schedule net Hrun.
  pose proof (second_mesh_run schedule _ _ second_mesh_start Hrun) as Hinv.
  split; [exact (second_mesh_busy net Hinv)|].
  split; [apply Hinv|]. split; [|split; [apply Hinv|]].
  - intros p Hp. destruct Hinv as (_ & Hbody & _). rewrite (Hbody p Hp).
    split; reflexivity.
  - intros n. destruct (second_mesh_goes_on n net Hinv) as (net' & Hrun').
    exists net'. split; [exact Hrun'|].
    exact (second_mesh_busy net' (second_mesh_run _ _ _ Hinv Hrun')).
Qed.

End SecondMesh.

Lemma second_listing_broadcast_never_settles_witness :
  exists net,
    run SecondListing.dispatch (repeat 0 40)
        (call "a" (SecondListing.broadcast (VStr "hello") VUndefined)
              (mesh two_windows two_neighbours))
    = Some net
    /\ inflight net <> [].
Proof.
  assert (Ha : In "a" two_windows) by (cbn; auto).
  assert (Hclosed : forall x y, In x two_windows -> In y (two_neighbours x) ->
                                In y two_windows).
  { intros x y [<-|[<-|[]]]; cbn; intuition. }
  assert (Hconnected : forall x, In x two_windows -> two_neighbours x <> []).
  { intros x [<-|[<-|[]]]; discriminate. }
  destruct (run SecondListing.dispatch (repeat 0 40)
              (call "a" (SecondListing.broadcast (VStr "hello") VUndefined)
                    (mesh two_windows two_neighbours)))
    as [net|] eqn:Hrun; [|vm_compute in Hrun; discriminate].
  exists net. split; [reflexivity|].
  exact (proj1 (second_listing_broadcast_never_settles
                  two_windows two_neighbours "a" (VStr "hello") VUndefined
                  Ha Hclosed Hconnected (repeat 0 40) net Hrun)).
Defined.


(** ** [openSession] when no session has the type *)


(** The session created and what [lookup] is then asked. *)
Lemma openSession_new (self : WindowManager.t) (url type_ : value) :
  first_of_type self type_ (sessions self) = None ->
  openSession url type_ self
  = bind (if strict_neq type_ VUndefined
          then lookup type_ (OpenSessionContinuation (List.length (store self)) url)
          else ret tt)
         (fun _ => ret (List.length (store self)))
         (set_store self
            (store self ++ [WindowSession.set_type WindowSession.new type_])).
Proof.
  intros Hnone. unfold openSession. rewrite bind_get.
  erewrite bind_Normal by apply openSession_search.
  rewrite Hnone. unfold new_WindowSession, assign. mstep.
  cbn [store set_store]. rewrite update_nth_last.
  change (set_store (set_store self (store self ++ [WindowSession.new]))
            (store self ++ [WindowSession.set_type WindowSession.new type_]))
    with (set_store self (store self ++ [WindowSession.set_type WindowSession.new type_])).
  assert (Heta : forall p : WindowManager.t * list effect * completion nat,
             (let '(s, tr, r) := p in (s, [] ++ tr, r)) = p)
    by (intros [[s tr] r]; reflexivity).
  apply Heta.
Qed.











Lemma scatter_trace (table : list (string * ref)) (m : WindowMessage.t)
      (self : WindowManager.t) :
  scatter table m self
  = (self,
     flat_map (fun p => [Console log ("TabTalk: Send lookup message to " ++ fst p ++ ".");
                         Send (snd p) m]) table,
     Normal (List.length table)).
Proof.
  induction table as [|[i session] table IH]; [reflexivity|].
  cbn [scatter]. unfold send. rewrite !bind_emit.
  erewrite bind_Normal by exact IH. cbn [ret]. rewrite app_nil_r. reflexivity.
Qed.

Lemma scatter_trace_shows (table : list (string * ref)) (m : WindowMessage.t) :
  let tr := flat_map (fun p => [Console log ("TabTalk: Send lookup message to "
                                             ++ fst p ++ ".");
                                Send (snd p) m]) table in
  sends tr = map (fun p => (snd p, m)) table
  /\ invocations tr = []
  /\ session_calls tr = [].
Proof.
  induction table as [|[i session] table (H1 & H2 & H3)]; [repeat split|].
  unfold sends, invocations, session_calls in *. cbn [flat_map app filter map fst snd].
  rewrite H1, H2, H3. repeat split.
Qed.

(** [openSession] with sessions to ask and none of the type: the state it
    leaves and what it has done. *)
Lemma openSession_defers (self : WindowManager.t) (url type_ : value) :
  first_of_type self type_ (sessions self) = None ->
  strict_neq type_ VUndefined = true ->
  sessions self <> [] ->
  openSession url type_ self
  = (set_collectors
       (set_store self (store self ++ [WindowSession.set_type WindowSession.new type_]))
       (collectors self
        ++ [mkCollector (List.length (sessions self)) 0 false
              (OpenSessionContinuation (List.length (store self)) url) true]),
     flat_map (fun p => [Console log ("TabTalk: Send lookup message to " ++ fst p ++ ".");
                         Send (snd p) (lookup_envelope self type_)]) (sessions self),
     Normal (List.length (store self))).
Proof.
  intros Hnone Htype Hne. rewrite (openSession_new _ _ _ Hnone), Htype.
  unfold lookup. rewrite bind_bind, bind_get, bind_bind.
  erewrite bind_Normal by apply scatter_trace.
  cbn [sessions set_store].
  destruct (sessions self) as [|p table]; [congruence|].
  cbn [List.length Nat.ltb Nat.leb]. rewrite bind_modify.
  cbn [ret]. rewrite app_nil_r. reflexivity.
Qed.

(** X15.  When no session of the table has the type asked for,
    [openSession] returns a new session object of that type and leaves the
    table and the older session objects as they were.  It opens the window
    itself in one case only: a type is given, the table is empty and the
    url is not [null]; then it opens the url once, keeps the window and the
    url in the session and calls [waitReady].  With sessions to ask it
    sends each the LOOKUP envelope and opens nothing yet; without a type it
    sends nothing, asks nobody and never opens the url. *)
Theorem openSession_opens_at_once_only_when_alone :
  forall (self : WindowManager.t) (url type_ : value),
    first_of_type self type_ (sessions self) = None ->
    let session := List.length (store self) in
    let r := openSession url type_ self in
    completion_of r = Normal session
    /\ sessions (state_of r) = sessions self
    /\ (forall i, i < session -> deref (state_of r) i = deref self i)
    /\ deref (state_of r) session
       = (if opens_at_once self url type_ then opened_session url type_
          else WindowSession.set_type WindowSession.new type_)
    /\ session_calls (trace_of r)
       = (if opens_at_once self url type_
          then [OpenWindow url; Method session "waitReady"] else [])
    /\ sends (trace_of r)
       = (if strict_neq type_ VUndefined
          then map (fun p => (snd p, lookup_envelope self type_)) (sessions self)
          else [])
    /\ invocations (trace_of r)
       = (if strict_neq type_ VUndefined && Nat.eqb (List.length (sessions self)) 0
          then [(OpenSessionContinuation session url, [Val VNull])] else []).
Proof.
  intros self url type_ Hnone session r. subst r session. unfold opens_at_once.
  assert (Hold : forall st i, i < List.length (store self) ->
             nth i (store self ++ st) WindowSession.new = deref self i).
  { intros st i Hi. unfold deref. apply app_nth1. exact Hi. }
  assert (Hlast : forall x, nth (List.length (store self)) (store self ++ [x])
                                WindowSession.new = x).
  { intros x. rewrite app_nth2, Nat.sub_diag by lia. reflexivity. }
  assert (Hcases : sessions self = [] \/ sessions self <> []).
  { destruct (sessions self); [left; reflexivity|right; discriminate]. }
  destruct (strict_neq type_ VUndefined) eqn:Htype.
  - destruct Hcases as [Htable|Hne].
    + rewrite (openSession_new _ _ _ Hnone), Htype.
      unfold lookup. rewrite bind_bind, bind_get, bind_bind.
      cbn [sessions set_store]. rewrite Htable. cbn [scatter]. rewrite bind_ret.
      cbn [Nat.ltb Nat.leb List.length Nat.eqb andb map]. rewrite !bind_bind, bind_emit.
      unfold call_onFinish. rewrite !bind_bind, bind_emit.
      destruct (strict_neq url VNull) eqn:Hurl.
      * unfold window_open, waitReady, assign. mstep.
        cbn [store set_store]. rewrite !update_nth_last.
        unfold state_of, trace_of, completion_of, deref.
        cbn [fst snd store set_store sessions ret].
        split; [reflexivity|]. split; [exact Htable|].
        split; [intros i Hi; apply Hold; exact Hi|].
        split; [apply Hlast|]. repeat split.
      * rewrite bind_ret.
        unfold state_of, trace_of, completion_of, deref.
        cbn [fst snd store set_store sessions ret].
        split; [reflexivity|]. split; [exact Htable|].
        split; [intros i Hi; apply Hold; exact Hi|].
        split; [apply Hlast|]. repeat split.
    + rewrite (openSession_defers _ _ _ Hnone Htype Hne).
      destruct (scatter_trace_shows (sessions self) (lookup_envelope self type_))
        as (Hsends & Hinv & Hcalls).
      unfold state_of, trace_of, completion_of, deref.
      cbn [fst snd store set_store set_collectors sessions].
      assert (Hsome : Nat.eqb (List.length (sessions self)) 0 = false)
        by (destruct (sessions self); [congruence|reflexivity]).
      rewrite Hsome. cbn [andb].
      split; [reflexivity|]. split; [reflexivity|].
      split; [intros i Hi; apply Hold; exact Hi|].
      split; [apply Hlast|]. split; [exact Hcalls|]. split; [exact Hsends|exact Hinv].
  - rewrite (openSession_new _ _ _ Hnone), Htype. rewrite bind_ret.
    unfold state_of, trace_of, completion_of, deref.
    cbn [fst snd store set_store sessions ret andb].
    split; [reflexivity|]. split; [reflexivity|].
    split; [intros i Hi; apply Hold; exact Hi|].
    split; [apply Hlast|]. repeat split.
Qed.

Lemma openSession_opens_at_once_only_when_alone_witness :
  session_calls (trace_of (openSession (VStr "viewer.html") (VStr "3D") lone_manager))
  = [OpenWindow (VStr "viewer.html"); Method 0 "waitReady"]
  /\ session_calls (trace_of (openSession (VStr "viewer.html") VUndefined lone_manager))
     = []
  /\ session_calls (trace_of (openSession (VStr "viewer.html") (VStr "3D") router_R_two))
     = [].
Proof.
  split; [|split].
  - exact (proj1 (proj2 (proj2 (proj2 (proj2
             (openSession_opens_at_once_only_when_alone
                lone_manager (VStr "viewer.html") (VStr "3D") eq_refl)))))).
  - exact (proj1 (proj2 (proj2 (proj2 (proj2
             (openSession_opens_at_once_only_when_alone
                lone_manager (VStr "viewer.html") VUndefined eq_refl)))))).
  - exact (proj1 (proj2 (proj2 (proj2 (proj2
             (openSession_opens_at_once_only_when_alone
                router_R_two (VStr "viewer.html") (VStr "3D") eq_refl)))))).
Defined.




(** ** The identifiers of windows *)

(** What holds of every entry of a table of [2 ^ bits] entries holds of the
    entry picked by the low [bits] bits of any integer. *)
Lemma land_table (P : Z -> bool) (bits : nat) :
  forallb (fun n => P (Z.of_nat n)) (seq 0 (2 ^ bits)) = true ->
  forall x : Z, P (Z.land x (Z.ones (Z.of_nat bits))) = true.
Proof.
  intros Hall x. rewrite Z.land_ones by lia.
  assert (Hpos : (0 < 2 ^ Z.of_nat bits)%Z) by (apply Z.pow_pos_nonneg; lia).
  pose proof (Z.mod_pos_bound x _ Hpos) as Hbound.
  rewrite forallb_forall in Hall.
  specialize (Hall (Z.to_nat (x mod 2 ^ Z.of_nat bits))).
  rewrite Z2Nat.id in Hall by lia. apply Hall.
  apply in_seq. split; [lia|].
  apply Nat2Z.inj_lt. rewrite Z2Nat.id by lia.
  cbn [Nat.add]. rewrite Nat2Z.inj_pow. exact (proj2 Hbound).
Qed.

Lemma byte_entry (x : Z) : entry_shows (fun _ => true) (lut_at (Z.land x 255)) = true.
Proof.
  apply (land_table (fun i => entry_shows (fun _ => true) (lut_at i)) 8).
  vm_compute. reflexivity.
Qed.

Lemma version_entry (x : Z) :
  entry_shows is_four (lut_at (Z.lor (Z.land x 15) 64)) = true.
Proof.
  apply (land_table (fun i => entry_shows is_four (lut_at (Z.lor i 64))) 4).
  vm_compute. reflexivity.
Qed.

Lemma variant_entry (x : Z) :
  entry_shows is_variant (lut_at (Z.lor (Z.land x 63) 128)) = true.
Proof.
  apply (land_table (fun i => entry_shows is_variant (lut_at (Z.lor i 128))) 6).
  vm_compute. reflexivity.
Qed.

Ltac take_entry H a b :=
  match type of H with
  | entry_shows _ ?e = true =>
      destruct e as [[|a [|b [|? ?]]]|]; try discriminate H;
      cbn [entry_shows] in H;
      apply andb_true_iff in H; destruct H as [H ?];
      apply andb_true_iff in H; destruct H as [? ?]
  end.

(** X17.  Whatever the four random values, [generateUUID] returns a string
    of 36 characters in five groups of 8, 4, 4, 4 and 12 digits, 0 to 9 and
    A to F, with "-" between them; the third group begins with 4 and the
    fourth with 8, 9, A or B.  No entry is ever read off the end of the
    table. *)
Theorem generateUUID_is_a_version_4_identifier :
  forall d0 d1 d2 d3 : Z,
    exists (g1 g2 g3 g4 g5 : string) (v : ascii),
      generateUUID d0 d1 d2 d3
      = Some (g1 ++ "-" ++ g2 ++ "-" ++ String "4" g3 ++ "-" ++ String v g4
              ++ "-" ++ g5)%string
      /\ String.length g1 = 8
      /\ String.length g2 = 4
      /\ String.length g3 = 3
      /\ String.length g4 = 3
      /\ String.length g5 = 12
      /\ all_upper_hex (g1 ++ g2 ++ g3 ++ g4 ++ g5)%string = true
      /\ is_variant v = true.
Proof.
  intros d0 d1 d2 d3. unfold generateUUID.
  pose proof (byte_entry d0) as H0.
  pose proof (byte_entry (Z.shiftr d0 8)) as H1.
  pose proof (byte_entry (Z.shiftr d0 16)) as H2.
  pose proof (byte_entry (Z.shiftr d0 24)) as H3.
  pose proof (byte_entry d1) as H4.
  pose proof (byte_entry (Z.shiftr d1 8)) as H5.
  pose proof (version_entry (Z.shiftr d1 16)) as H6.
  pose proof (byte_entry (Z.shiftr d1 24)) as H7.
  pose proof (variant_entry d2) as H8.
  pose proof (byte_entry (Z.shiftr d2 8)) as H9.
  pose proof (byte_entry (Z.shiftr d2 16)) as H10.
  pose proof (byte_entry (Z.shiftr d2 24)) as H11.
  pose proof (byte_entry d3) as H12.
  pose proof (byte_entry (Z.shiftr d3 8)) as H13.
  pose proof (byte_entry (Z.shiftr d3 16)) as H14.
  pose proof (byte_entry (Z.shiftr d3 24)) as H15.
  take_entry H0 a0 b0. take_entry H1 a1 b1. take_entry H2 a2 b2. take_entry H3 a3 b3.
  take_entry H4 a4 b4. take_entry H5 a5 b5. take_entry H6 a6 b6. take_entry H7 a7 b7.
  take_entry H8 a8 b8. take_entry H9 a9 b9. take_entry H10 a10 b10.
  take_entry H11 a11 b11. take_entry H12 a12 b12. take_entry H13 a13 b13.
  take_entry H14 a14 b14. take_entry H15 a15 b15.
  assert (Hfour : upper a6 = "4"%char).
  { match goal with H : is_four (upper a6) = true |- _ => apply Ascii.eqb_eq in H; exact H end. }
  exists (string_of_list_ascii
            [upper a0; upper b0; upper a1; upper b1; upper a2; upper b2; upper a3; upper b3]),
         (string_of_list_ascii [upper a4; upper b4; upper a5; upper b5]),
         (string_of_list_ascii [upper b6; upper a7; upper b7]),
         (string_of_list_ascii [upper b8; upper a9; upper b9]),
         (string_of_list_ascii
            [upper a10; upper b10; upper a11; upper b11; upper a12; upper b12;
             upper a13; upper b13; upper a14; upper b14; upper a15; upper b15]),
         (upper a8).
  cbn [join option_map append toUpperCase string_of_list_ascii String.length
       all_upper_hex].
  rewrite Hfour.
  repeat match goal with
         | H : is_upper_hex _ = true |- _ => rewrite H; clear H
         end.
  repeat split; assumption.
Qed.

(** The identifier for the values 0x12345678, -1, 0 and 0x7fffffff. *)
Lemma generateUUID_sample :
  generateUUID 305419896 (-1) 0 2147483647
  = Some "78563412-FFFF-4FFF-8000-0000FFFFFF7F".
Proof. vm_compute. reflexivity. Qed.


(** ** Answers a collector cannot use *)

(** Once [found] is set the listener of a collector calls nothing, whatever
    it is given, and [found] stays set. *)
Lemma collector_handler_found (n : nat) (data : WindowMessage.t) (self : WindowManager.t)
      (c : Collector) :
  nth_error (collectors self) n = Some c ->
  found c = true ->
  exists self' tr c',
    collector_handler n data self = (self', tr, Normal tt)
    /\ invocations tr = []
    /\ nth_error (collectors self') n = Some c'
    /\ found c' = true.
Proof.
  intros Hnth Hfound. destruct c as [N r fd f att]. cbn [found] in Hfound. subst fd.
  unfold collector_handler, update_collector. rewrite bind_get, Hnth.
  cbn [attached found negb]. destruct att; cbn [negb].
  2:{ exists self, [], (mkCollector N r true f false). repeat split. exact Hnth. }
  destruct (WindowMessage.has_action data WindowMessage.LOOKUP_FOUND);
    [|destruct (WindowMessage.has_action data WindowMessage.LOOKUP_NOT_FOUND)];
    mstep; cbn [collectors set_collectors];
    rewrite ?nth_error_update_nth, ?Hnth; cbn [option_map count_received sent received found
      onFinish attached];
    match goal with
    | |- context [Nat.eqb ?a ?b] => destruct (Nat.eqb a b)
    end; mstep; cbn [negb ret];
    (eexists _, _, _; split; [reflexivity|]; split; [reflexivity|];
     cbn [collectors set_collectors];
     rewrite ?nth_error_update_nth, ?Hnth; cbn [option_map]; split; reflexivity).
Qed.

Lemma collect_found (n : nat) (events : list arrival) :
  forall (self : WindowManager.t) (c : Collector),
    nth_error (collectors self) n = Some c ->
    found c = true ->
    invocations (snd (collect n events self)) = [].
Proof.
  induction events as [|[table data] events IH]; intros self c Hnth Hfound; [reflexivity|].
  cbn [collect].
  destruct (collector_handler_found n data (set_sessions self table) c Hnth Hfound)
    as (self' & tr & c' & Hrun & Hinv & Hnth' & Hfound').
  rewrite Hrun. unfold state_of, trace_of. cbn [fst snd].
  specialize (IH self' c' Hnth' Hfound').
  destruct (collect n events self') as [self'' tr']. cbn [snd] in *.
  rewrite invocations_app, Hinv, IH. reflexivity.
Qed.

(** X18.  A LOOKUP_FOUND envelope without [data], from a window of the
    table, silences a lookup for good.  The collector has set [found]
    before it reads [data.data.uuid]; the read throws, the answer is not
    counted, and from then on no path leads to [onFinish]: whatever events
    follow, [onFinish] is never called, neither with a session nor with
    [null]. *)
Theorem FOUND_without_data_silences_the_lookup :
  forall (self : WindowManager.t) (type_ : value) (onFinish : callback)
         (table : list (string * ref)) (data : WindowMessage.t) (session : ref)
         (events : list arrival),
    sessions self <> [] ->
    WindowMessage.has_action data WindowMessage.LOOKUP_FOUND = true ->
    nullish (read (WindowMessage.data data)) = true ->
    assoc (to_key (WindowMessage.originUUID data)) table = Some session ->
    let asked := lookup type_ onFinish self in
    let n := List.length (collectors self) in
    (exists e,
        completion_of (collector_handler n data (set_sessions (state_of asked) table))
        = Abrupt e)
    /\ invocations (trace_of asked) = []
    /\ invocations (snd (collect n ((table, data) :: events) (state_of asked))) = [].
Proof.
  intros self type_ onFinish table data session events Hne Hfound Hnull Hsession asked n.
  subst asked n.
  assert (Hquiet : invocations (trace_of (lookup type_ onFinish self)) = []).
  { unfold lookup. rewrite bind_get.
    erewrite bind_Normal by apply scatter_trace.
    destruct (scatter_trace_shows (sessions self)
                (WindowMessage.new (VNum 0) (VNum WindowMessage.LOOKUP) (type self)
                   (VStr (uuid self)) type_ VUndefined VUndefined VUndefined))
      as (_ & Hinv & _).
    destruct (sessions self) as [|p l]; [congruence|].
    cbn [List.length Nat.ltb Nat.leb modify]. unfold trace_of. cbn [fst snd].
    rewrite app_nil_r. exact Hinv. }
  rewrite (lookup_installs_collector _ _ _ Hne).
  set (c := mkCollector (List.length (sessions self)) 0 false onFinish true).
  set (waiting := set_sessions (set_collectors self (collectors self ++ [c])) table).
  assert (Hnth : nth_error (collectors waiting) (List.length (collectors self)) = Some c).
  { unfold waiting. cbn [collectors set_collectors set_sessions].
    rewrite nth_error_app2, Nat.sub_diag by lia. reflexivity. }
  assert (Hrun : exists e,
             collector_handler (List.length (collectors self)) data waiting
             = (set_collectors waiting
                  (update_nth (List.length (collectors self)) set_found
                              (collectors waiting)),
                [], Abrupt e)).
  { unfold collector_handler, update_collector. rewrite bind_get, Hnth.
    cbn [attached c negb found]. rewrite Hfound. cbn [negb].
    unfold sessions_get. change (sessions waiting) with table.
    rewrite (table_get_listed _ _ _ Hsession).
    rewrite !bind_bind, bind_modify.
    destruct (read (WindowMessage.data data)); try discriminate Hnull;
      eexists; reflexivity. }
  destruct Hrun as (e & Hrun).
  split; [exists e; rewrite Hrun; reflexivity|]. split; [exact Hquiet|].
  cbn [collect]. fold waiting. rewrite Hrun. unfold state_of, trace_of. cbn [fst snd].
  assert (Hset : nth_error
                   (collectors
                      (set_collectors waiting
                         (update_nth (List.length (collectors self)) set_found
                                     (collectors waiting))))
                   (List.length (collectors self))
                 = Some (set_found c)).
  { cbn [collectors set_collectors]. rewrite nth_error_update_nth.
    change (collectors waiting) with (collectors self ++ [c]).
    rewrite nth_error_app2, Nat.sub_diag by lia. reflexivity. }
  pose proof (collect_found _ events _ _ Hset eq_refl) as Hsilent.
  destruct (collect (List.length (collectors self)) events _) as [self' tr].
  cbn [snd] in *. exact Hsilent.
Qed.

Lemma FOUND_without_data_silences_the_lookup_witness :
  invocations
    (snd (collect 0 ((sessions router_R_two, found_without_data) :: answers_of_G_and_H)
            (state_of (lookup (VStr "3D") (UserFunction 1) router_R_two))))
  = [].
Proof.
  assert (Hne : sessions router_R_two <> []) by discriminate.
  exact (proj2 (proj2
           (FOUND_without_data_silences_the_lookup
              router_R_two (VStr "3D") (UserFunction 1) (sessions router_R_two)
              found_without_data 0 answers_of_G_and_H Hne eq_refl eq_refl eq_refl))).
Defined.

(** ** Lookups side by side *)

Lemma nth_error_update_nth_other {A : Type} (n m : nat) (f : A -> A) (l : list A) :
  m <> n -> nth_error (update_nth n f l) m = nth_error l m.
Proof.
  revert n m. induction l as [|x l IH]; intros [|n] [|m] H; cbn; try reflexivity.
  - congruence.
  - apply IH. congruence.
Qed.

Lemma keeps_others_bind {A B : Type} (n : nat) (c : M A) (k : A -> M B) :
  (forall self, keeps_others n self (c self)) ->
  (forall a self, keeps_others n self (k a self)) ->
  forall self, keeps_others n self (bind c k self).
Proof.
  intros Hc Hk self. unfold keeps_others, bind in *. specialize (Hc self).
  destruct (c self) as [[s1 tr1] [a|e]]; [|exact Hc].
  specialize (Hk a s1). destruct (k a s1) as [[s2 tr2] r].
  unfold state_of in *. cbn [fst snd] in *. destruct Hc as [Hc1 Hc2], Hk as [Hk1 Hk2].
  split; [congruence|]. intros m Hm. rewrite (Hk2 m Hm). exact (Hc2 m Hm).
Qed.

Lemma keeps_others_ret {A : Type} (n : nat) (a : A) (self : WindowManager.t) :
  keeps_others n self (ret a self).
Proof. split; reflexivity. Qed.

Lemma keeps_others_get (n : nat) (self : WindowManager.t) : keeps_others n self (get self).
Proof. split; reflexivity. Qed.

Lemma keeps_others_emit (n : nat) (e : effect) (self : WindowManager.t) :
  keeps_others n self (emit e self).
Proof. split; reflexivity. Qed.

Lemma keeps_others_lift {A : Type} (n : nat) (r : A + exn) (self : WindowManager.t) :
  keeps_others n self (lift r self).
Proof. destruct r; split; reflexivity. Qed.

Lemma keeps_others_update (n : nat) (f : Collector -> Collector) (self : WindowManager.t) :
  keeps_others n self (update_collector n f self).
Proof.
  split; [reflexivity|]. intros m Hm. unfold update_collector, modify, state_of.
  cbn [fst collectors set_collectors]. apply nth_error_update_nth_other. exact Hm.
Qed.

Lemma keeps_others_call_onFinish (n : nat) (f : callback)
      (result : option (peer * value * value)) (self : WindowManager.t) :
  keeps_others n self (call_onFinish f result self).
Proof.
  destruct (call_onFinish_run f result self) as (st & tr & -> & _).
  split; reflexivity.
Qed.

Ltac keeps_others_step :=
  match goal with
  | |- keeps_others _ _ (bind _ _ _) => apply keeps_others_bind; intros
  | |- keeps_others _ _ (call_onFinish _ _ _) => apply keeps_others_call_onFinish
  | |- keeps_others _ _ (update_collector _ _ _) => apply keeps_others_update
  | |- keeps_others _ _ (ret _ _) => apply keeps_others_ret
  | |- keeps_others _ _ (get _) => apply keeps_others_get
  | |- keeps_others _ _ (emit _ _) => apply keeps_others_emit
  | |- keeps_others _ _ (lift _ _) => apply keeps_others_lift
  | |- keeps_others _ _ ((if ?b then _ else _) _) => destruct b
  | |- keeps_others _ _ (match ?x with _ => _ end _) => destruct x
  end.

(** The listener of a collector leaves the table and the other collectors
    alone. *)
Lemma collector_handler_keeps_others (n : nat) (data : WindowMessage.t)
      (self : WindowManager.t) :
  keeps_others n self (collector_handler n data self).
Proof.
  unfold collector_handler. repeat keeps_others_step.
Qed.

(** X19.  Answers are not matched to lookups.  With two lookups in flight,
    for whatever types, a LOOKUP_FOUND answer from a window of the table is
    taken by both collectors: each calls its own [onFinish] with the same
    session and the uuid and type the answer carries, also the lookup that
    asked for another type. *)
Theorem answers_are_shared_between_lookups :
  forall (self : WindowManager.t) (type1 type2 : value) (f1 f2 : callback)
         (data : WindowMessage.t) (session : ref),
    sessions self <> [] ->
    WindowMessage.has_action data WindowMessage.LOOKUP_FOUND = true ->
    nullish (read (WindowMessage.data data)) = false ->
    session_at self (WindowMessage.originUUID data) = Some session ->
    let n := List.length (collectors self) in
    let asked := state_of (lookup type2 f2 (state_of (lookup type1 f1 self))) in
    let r1 := collector_handler n data asked in
    let r2 := collector_handler (S n) data (state_of r1) in
    let answer := [Session session; Val (advertised data "uuid");
                   Val (advertised data "type")] in
    invocations (trace_of r1) = [(f1, answer)]
    /\ invocations (trace_of r2) = [(f2, answer)].
Proof.
  intros self type1 type2 f1 f2 data session Hne Hfound Hdata Hsession n asked r1 r2 answer.
  subst r2 r1 answer.
  set (k := List.length (sessions self)).
  set (c1 := mkCollector k 0 false f1 true).
  set (c2 := mkCollector k 0 false f2 true).
  assert (Hasked : asked = set_collectors self ((collectors self ++ [c1]) ++ [c2])).
  { subst asked. rewrite (lookup_installs_collector self type1 f1 Hne).
    rewrite lookup_installs_collector by exact Hne. reflexivity. }
  assert (Hk : 0 < k) by (subst k; destruct (sessions self); [congruence|cbn; lia]).
  assert (Hwf : carries_match data = true).
  { unfold carries_match. rewrite Hdata. apply orb_true_r. }
  assert (H1 : nth_error (collectors asked) n = Some c1).
  { rewrite Hasked. cbn [collectors set_collectors]. subst n.
    rewrite nth_error_app1 by (rewrite length_app; cbn; lia).
    rewrite nth_error_app2, Nat.sub_diag by lia. reflexivity. }
  assert (H2 : nth_error (collectors asked) (S n) = Some c2).
  { rewrite Hasked. cbn [collectors set_collectors]. subst n.
    rewrite nth_error_app2 by (rewrite length_app; cbn; lia).
    rewrite length_app. cbn [List.length].
    replace (S (List.length (collectors self)) - (List.length (collectors self) + 1))
      with 0 by lia.
    reflexivity. }
  assert (Hs : session_at asked (WindowMessage.originUUID data) = Some session).
  { rewrite Hasked. exact Hsession. }
  destruct (collector_handler_run n data asked c1 H1 eq_refl Hk Hwf)
    as (self1 & tr1 & Hrun1 & _ & Hinv1).
  cbn [found c1 negb andb] in Hinv1.
  rewrite Hfound, (sessions_get_listed _ _ _ Hs) in Hinv1.
  cbn [andb option_map is_some orb negb app onFinish_arguments WindowManager.onFinish
       argument_of] in Hinv1.
  rewrite andb_false_r in Hinv1.
  destruct (collector_handler_keeps_others n data asked) as [Hkeep1 Hkeep2].
  rewrite Hrun1 in Hkeep1, Hkeep2 |- *. unfold state_of, trace_of in *.
  cbn [fst snd] in *.
  split; [rewrite Hinv1; reflexivity|].
  assert (H2' : nth_error (collectors self1) (S n) = Some c2).
  { rewrite Hkeep2 by lia. exact H2. }
  assert (Hs' : session_at self1 (WindowMessage.originUUID data) = Some session).
  { unfold session_at in *. rewrite Hkeep1. exact Hs. }
  destruct (collector_handler_run (S n) data self1 c2 H2' eq_refl Hk Hwf)
    as (self2 & tr2 & Hrun2 & _ & Hinv2).
  cbn [found c2 negb andb] in Hinv2.
  rewrite Hfound, (sessions_get_listed _ _ _ Hs') in Hinv2.
  cbn [andb option_map is_some orb negb app onFinish_arguments WindowManager.onFinish
       argument_of] in Hinv2.
  rewrite andb_false_r in Hinv2.
  rewrite Hrun2. cbn [fst snd]. rewrite Hinv2. reflexivity.
Qed.

Lemma answers_are_shared_between_lookups_witness :
  invocations
    (trace_of
       (collector_handler 1 found_by_G
          (state_of
             (collector_handler 0 found_by_G
                (state_of
                   (lookup (VStr "Editor") (UserFunction 2)
                      (state_of (lookup (VStr "3D") (UserFunction 1) router_R_two))))))))
  = [(UserFunction 2, [Session 0; Val (VStr "T1"); Val (VStr "3D")])].
Proof.
  assert (Hne : sessions router_R_two <> []) by discriminate.
  exact (proj2 (answers_are_shared_between_lookups
                  router_R_two (VStr "3D") (VStr "Editor") (UserFunction 1) (UserFunction 2)
                  found_by_G 0 Hne eq_refl eq_refl eq_refl)).
Defined.


(** ** Answers from a name the table inherits *)

(** X22.  A collector takes a LOOKUP_FOUND answer from a window the table
    lists no session for, when the originUUID of the answer is the name of
    a member the table inherits: [self.sessions[data.originUUID]] is that
    member, which is not [undefined], and [onFinish] is called with it in
    the place of the session, and with the uuid and type the answer
    carries. *)
Theorem FOUND_from_an_inherited_name_is_accepted :
  forall (self : WindowManager.t) (type_ : value) (onFinish : callback)
         (data : WindowMessage.t),
    sessions self <> [] ->
    WindowMessage.has_action data WindowMessage.LOOKUP_FOUND = true ->
    nullish (read (WindowMessage.data data)) = false ->
    session_at self (WindowMessage.originUUID data) = None ->
    inherited (to_key (WindowMessage.originUUID data)) = true ->
    let n := List.length (collectors self) in
    let asked := state_of (lookup type_ onFinish self) in
    invocations (trace_of (collector_handler n data asked))
    = [(onFinish, [Prototype (to_key (WindowMessage.originUUID data));
                   Val (advertised data "uuid"); Val (advertised data "type")])].
Proof.
  intros self type_ onFinish data Hne Hfound Hdata Hnone Hown n asked.
  set (k := List.length (sessions self)).
  set (c := mkCollector k 0 false onFinish true).
  assert (Hasked : asked = set_collectors self (collectors self ++ [c])).
  { subst asked. apply (lookup_installs_collector self type_ onFinish Hne). }
  assert (Hk : 0 < k) by (subst k; destruct (sessions self); [congruence|cbn; lia]).
  assert (Hwf : carries_match data = true).
  { unfold carries_match. rewrite Hdata. apply orb_true_r. }
  assert (Hnth : nth_error (collectors asked) n = Some c).
  { rewrite Hasked. cbn [collectors set_collectors]. subst n.
    rewrite nth_error_app2, Nat.sub_diag by lia. reflexivity. }
  assert (Hs : sessions_get asked (WindowMessage.originUUID data)
               = Some (Member (to_key (WindowMessage.originUUID data)))).
  { rewrite Hasked. exact (sessions_get_member self _ Hnone Hown). }
  destruct (collector_handler_run n data asked c Hnth eq_refl Hk Hwf)
    as (self1 & tr1 & Hrun1 & _ & Hinv1).
  cbn [found c negb andb] in Hinv1. rewrite Hfound, Hs in Hinv1.
  cbn [andb option_map is_some orb negb app onFinish_arguments WindowManager.onFinish
       argument_of] in Hinv1.
  rewrite andb_false_r in Hinv1.
  rewrite Hrun1. unfold trace_of. cbn [fst snd]. rewrite Hinv1. reflexivity.
Qed.

Lemma FOUND_from_an_inherited_name_is_accepted_witness :
  invocations
    (trace_of
       (collector_handler 0 found_by_constructor
          (state_of (lookup (VStr "3D") (UserFunction 1) router_R_two))))
  = [(UserFunction 1, [Prototype "constructor"; Val (VStr "T1"); Val (VStr "3D")])].
Proof.
  assert (Hne : sessions router_R_two <> []) by discriminate.
  exact (FOUND_from_an_inherited_name_is_accepted
           router_R_two (VStr "3D") (UserFunction 1) found_by_constructor
           Hne eq_refl eq_refl eq_refl eq_refl).
Defined.


(** ** Who hears a broadcast *)



